(** * frictionless_ckan_mapper: CKAN <-> Frictionless metadata converters

    A shallow embedding of [ckan_to_frictionless.py] and
    [frictionless_to_ckan.py] and the properties of the two converters.

    Python values are embedded as the inductive type [value]; a Python
    [dict] with string keys is an association list in insertion order
    (Python dictionaries keep it, and [items()], [keys()] and [values()]
    iterate in it).  A raised exception is the [Raise] branch of [result].

    Modelling boundaries, stated once:
    - a [str] is a Rocq [string] holding its UTF-8 bytes;
    - a [float] is an IEEE 754 binary64 value, and a decimal literal is
      rounded to the nearest one, ties to even;
    - the decoder of [json] stops with RecursionError or ValueError where
      the interpreter does; the two thresholds depend on the interpreter
      and are the parameters [limits] of the development;
    - a dictionary key that is not a [str] is outside the record model:
      storing one raises [NonStringKey];
    - [DanglingRef] is the store's answer to a location that holds no
      object; no operation of the store produces such a location. *)

From Stdlib Require Import String Ascii List ZArith Bool Arith Lia.
From Stdlib Require Import SpecFloat.
Import ListNotations.
Open Scope string_scope.

(** ** Python values *)

(** A [float].  [FFinite s m e] is the number (-1)^s * m * 2^e, zero when
    [m] is 0.  A NaN carries the identity of its object: it is the one
    value that is not equal to itself, and [in] and the comparison of
    the elements of two lists or dictionaries test identity before
    equality.  Object 0 is [json.decoder.NaN], which the decoder returns
    for every NaN it reads. *)
Inductive pyfloat : Type :=
| FFinite (neg : bool) (m : N) (e : Z)
| FInf (neg : bool)
| FNaN (obj : nat).

#[local] Unset Elimination Schemes.
Inductive value : Type :=
| VNone
| VBool (b : bool)
| VInt (n : Z)
| VFloat (f : pyfloat)
| VStr (s : string)
| VList (l : list value)
| VDict (d : list (string * value)).
#[local] Set Elimination Schemes.

Definition dict : Type := list (string * value).

Inductive exn : Type :=
| KeyError | TypeError | ValueError | AttributeError | IndexError
| JSONDecodeError | RecursionError | NonStringKey | DanglingRef.

Inductive result (A : Type) : Type :=
| Ok (a : A)
| Raise (e : exn).
Arguments Ok {A} a.
Arguments Raise {A} e.

Definition bind {A B} (m : result A) (f : A -> result B) : result B :=
  match m with
  | Ok a => f a
  | Raise e => Raise e
  end.

Notation "x <- m ;; k" := (bind m (fun x => k))
  (at level 61, m at next level, right associativity).

(** [try: x = m except handled: pass]: after an exception of a handled
    class [x] is what it was; any other exception goes on to the
    caller. *)
Definition try_except {A} (m : result A) (handled : exn -> bool) (fallback : A)
  : result A :=
  match m with
  | Ok a => Ok a
  | Raise e => if handled e then Ok fallback else Raise e
  end.

(** ** Floats *)

Definition float_of_spec (f : spec_float) : pyfloat :=
  match f with
  | S754_zero s => FFinite s 0 0
  | S754_finite s m e => FFinite s (Npos m) e
  | S754_infinity s => FInf s
  | S754_nan => FNaN 0
  end.

(** [float(text)] for the decimal (-1)^neg * m * 10^e: the nearest
    binary64 number, ties to even; infinity past the largest one. *)
Definition float_of_decimal (neg : bool) (m e : Z) : pyfloat :=
  float_of_spec
    match m with
    | Zpos p =>
        if Z.leb 0 e
        then binary_normalize 53 1024
               (if neg then Z.opp (Z.pow 10 e * Zpos p) else Z.pow 10 e * Zpos p)
               0 neg
        else SFdiv 53 1024 (S754_finite neg p 0)
               (S754_finite false (Z.to_pos (Z.pow 10 (- e))) 0)
    | _ => S754_zero neg
    end.

Definition float_is_zero (f : pyfloat) : bool :=
  match f with
  | FFinite _ m _ => N.eqb m 0
  | _ => false
  end.

(** The numerator of [m * 2^e] over the power of two [2^(- min e e')]. *)
Definition scaled (m : N) (e e' : Z) : Z :=
  Z.of_N m * Z.pow 2 (e - Z.min e e').

(** [x == y] for two floats: equal numbers, the two zeros included; a
    NaN equals nothing. *)
Definition float_eqb (x y : pyfloat) : bool :=
  match x, y with
  | FFinite s m e, FFinite s' m' e' =>
      (N.eqb m 0 && N.eqb m' 0)
      || (Bool.eqb s s' && Z.eqb (scaled m e e') (scaled m' e' e))
  | FInf s, FInf s' => Bool.eqb s s'
  | _, _ => false
  end.

(** [x == n] for a float and an [int]: the comparison is exact. *)
Definition float_eqb_int (x : pyfloat) (n : Z) : bool :=
  match x with
  | FFinite s m e =>
      Z.eqb ((if s then -1 else 1) * scaled m e 0) (n * Z.pow 2 (0 - Z.min e 0))
  | _ => false
  end.

(** [x is y], for the floats that are not equal to themselves. *)
Definition same_nan (x y : pyfloat) : bool :=
  match x, y with
  | FNaN a, FNaN b => Nat.eqb a b
  | _, _ => false
  end.

(** ** Dictionaries

    The operations are generic in the type of the values, so that the
    same ones serve records of [value]s and objects of a store. *)

Section Dict.

Context {V : Type}.

Fixpoint dict_get (k : string) (d : list (string * V)) : option V :=
  match d with
  | [] => None
  | (k', v) :: rest => if String.eqb k k' then Some v else dict_get k rest
  end.

(** [k in d] *)
Definition dict_has (k : string) (d : list (string * V)) : bool :=
  match dict_get k d with
  | Some _ => true
  | None => false
  end.

(** [d[k] = v]: an existing key keeps its position, a new key goes last. *)
Fixpoint dict_set (k : string) (v : V) (d : list (string * V))
  : list (string * V) :=
  match d with
  | [] => [(k, v)]
  | (k', v') :: rest =>
      if String.eqb k k' then (k', v) :: rest
      else (k', v') :: dict_set k v rest
  end.

(** [del d[k]] on a present key, and [d.pop(k, None)]. *)
Definition dict_del (k : string) (d : list (string * V)) : list (string * V) :=
  filter (fun kv => negb (String.eqb k (fst kv))) d.

End Dict.

(** [d.get(k)] with its default [None]. *)
Definition dict_get_default (k : string) (d : dict) : value :=
  match dict_get k d with
  | Some v => v
  | None => VNone
  end.

(** [d[k]] *)
Definition dict_getitem (k : string) (d : dict) : result value :=
  match dict_get k d with
  | Some v => Ok v
  | None => Raise KeyError
  end.

(** ** Strings *)

Definition str_of_bytes (l : list nat) : string :=
  string_of_list_ascii (map ascii_of_nat l).

Fixpoint strip_prefix (p s : string) : option string :=
  match p, s with
  | EmptyString, _ => Some s
  | String a p', String b s' =>
      if Ascii.eqb a b then strip_prefix p' s' else None
  | String _ _, EmptyString => None
  end.

(** [s.startswith(p)] *)
Definition startswith (p s : string) : bool :=
  match strip_prefix p s with
  | Some _ => true
  | None => false
  end.

(** [p in s] for two strings *)
Fixpoint str_contains (p s : string) : bool :=
  startswith p s ||
  match s with
  | EmptyString => false
  | String _ s' => str_contains p s'
  end.

Fixpoint str_rev_onto (s acc : string) : string :=
  match s with
  | EmptyString => acc
  | String c s' => str_rev_onto s' (String c acc)
  end.
Definition str_rev (s : string) : string := str_rev_onto s EmptyString.

(** The characters [str.isspace] accepts, as UTF-8 byte sequences:
    U+0009..U+000D, U+001C..U+0020, U+0085, U+00A0, U+1680,
    U+2000..U+200A, U+2028, U+2029, U+202F, U+205F, U+3000. *)
Definition py_whitespace : list string :=
  map str_of_bytes
    ([[9]; [10]; [11]; [12]; [13]; [28]; [29]; [30]; [31]; [32];
      [194; 133]; [194; 160]; [225; 154; 128]]
     ++ map (fun n => [226; 128; n]) (seq 128 11)
     ++ [[226; 128; 168]; [226; 128; 169]; [226; 128; 175];
         [226; 129; 159]; [227; 128; 128]]).

Fixpoint drop_first_prefix (ps : list string) (s : string) : option string :=
  match ps with
  | [] => None
  | p :: ps' =>
      match strip_prefix p s with
      | Some s' => Some s'
      | None => drop_first_prefix ps' s
      end
  end.

Fixpoint lstrip_with (fuel : nat) (ps : list string) (s : string) : string :=
  match fuel with
  | O => s
  | S fuel' =>
      match drop_first_prefix ps s with
      | Some s' => lstrip_with fuel' ps s'
      | None => s
      end
  end.

(** [s.strip()] *)
Definition py_strip (s : string) : string :=
  let l := lstrip_with (String.length s) py_whitespace s in
  str_rev (lstrip_with (String.length l) (map str_rev py_whitespace) (str_rev l)).

(** Number of bytes of the UTF-8 character that starts with byte [c]. *)
Definition utf8_width (c : ascii) : nat :=
  let n := nat_of_ascii c in
  if Nat.ltb n 192 then 1 else if Nat.ltb n 224 then 2
  else if Nat.ltb n 240 then 3 else 4.

Fixpoint str_take (n : nat) (s : string) : string * string :=
  match n, s with
  | S n', String c s' => let '(a, b) := str_take n' s' in (String c a, b)
  | _, _ => (EmptyString, s)
  end.

(** The characters of a string, as iteration over a [str] yields them. *)
Fixpoint py_chars (fuel : nat) (s : string) : list string :=
  match fuel, s with
  | S fuel', String c s' =>
      let '(a, b) := str_take (utf8_width c - 1) s' in
      String c a :: py_chars fuel' b
  | _, _ => []
  end.

Definition ascii_lower (c : ascii) : ascii :=
  let n := nat_of_ascii c in
  if Nat.leb 65 n && Nat.leb n 90 then ascii_of_nat (n + 32) else c.

(** [s.lower()] on the ASCII letters, which is all a slug holds. *)
Fixpoint lower (s : string) : string :=
  match s with
  | EmptyString => EmptyString
  | String c s' => String (ascii_lower c) (lower s')
  end.

(** ** Truth value, equality and the protocols the converters use *)

(** [bool(v)] *)
Definition truthy (v : value) : bool :=
  match v with
  | VNone => false
  | VBool b => b
  | VInt n => negb (Z.eqb n 0)
  | VFloat f => negb (float_is_zero f)
  | VStr s => negb (String.eqb s "")
  | VList l => match l with [] => false | _ => true end
  | VDict d => match d with [] => false | _ => true end
  end.

(** Equality.  [bool] is a subclass of [int], and numbers compare by
    value, so that [1 == 1.0 == True]; dictionaries compare as
    mappings, whatever the order of their keys.  With [inner] the two
    values are first tested for identity, as the elements of two lists
    and the values of two dictionaries are; in this model of values
    identity adds to equality only for a NaN. *)
Fixpoint eq_with (inner : bool) (a b : value) : bool :=
  match a, b with
  | VNone, VNone => true
  | VBool x, VBool y => Bool.eqb x y
  | VBool x, VInt n => Z.eqb n (if x then 1 else 0)
  | VInt n, VBool x => Z.eqb n (if x then 1 else 0)
  | VInt x, VInt y => Z.eqb x y
  | VFloat x, VFloat y => (inner && same_nan x y) || float_eqb x y
  | VFloat x, VInt n => float_eqb_int x n
  | VInt n, VFloat x => float_eqb_int x n
  | VFloat x, VBool y => float_eqb_int x (if y then 1 else 0)
  | VBool y, VFloat x => float_eqb_int x (if y then 1 else 0)
  | VStr x, VStr y => String.eqb x y
  | VList xs, VList ys =>
      (fix go (xs ys : list value) : bool :=
         match xs, ys with
         | [], [] => true
         | x :: xs', y :: ys' => eq_with true x y && go xs' ys'
         | _, _ => false
         end) xs ys
  | VDict xs, VDict ys =>
      Nat.eqb (length xs) (length ys) &&
      (fix all (xs : dict) : bool :=
         match xs with
         | [] => true
         | (k, v) :: xs' =>
             match dict_get k ys with
             | Some w => eq_with true v w
             | None => false
             end && all xs'
         end) xs
  | _, _ => false
  end.

(** [a == b] *)
Definition py_eq (a b : value) : bool := eq_with false a b.

(** [a is b or a == b], the test of [in] on a list *)
Definition py_same_or_eq (a b : value) : bool := eq_with true a b.

(** [for x in v] *)
Definition py_iter (v : value) : result (list value) :=
  match v with
  | VList l => Ok l
  | VStr s => Ok (map VStr (py_chars (String.length s) s))
  | VDict d => Ok (map (fun kv => VStr (fst kv)) d)
  | _ => Raise TypeError
  end.

(** [v[k]] for a string [k] *)
Definition getitem (v : value) (k : string) : result value :=
  match v with
  | VDict d => dict_getitem k d
  | _ => Raise TypeError
  end.

(** [v[0]] *)
Definition getitem0 (v : value) : result value :=
  match v with
  | VList (x :: _) => Ok x
  | VList [] => Raise IndexError
  | VStr s =>
      match py_chars (String.length s) s with
      | c :: _ => Ok (VStr c)
      | [] => Raise IndexError
      end
  | VDict _ => Raise KeyError
  | _ => Raise TypeError
  end.

(** [v.get(k)] *)
Definition method_get (v : value) (k : string) : result value :=
  match v with
  | VDict d => Ok (dict_get_default k d)
  | _ => Raise AttributeError
  end.

(** [v.values()] *)
Definition method_values (v : value) : result (list value) :=
  match v with
  | VDict d => Ok (map snd d)
  | _ => Raise AttributeError
  end.

(** [v.keys()] *)
Definition method_keys (v : value) : result (list string) :=
  match v with
  | VDict d => Ok (map fst d)
  | _ => Raise AttributeError
  end.

(** [v.append(x)], as the new contents of [v] *)
Definition method_append (v x : value) : result value :=
  match v with
  | VList l => Ok (VList (l ++ [x])%list)
  | _ => Raise AttributeError
  end.

(** [len(v)] *)
Definition py_len (v : value) : result nat :=
  match v with
  | VList l => Ok (length l)
  | VStr s => Ok (length (py_chars (String.length s) s))
  | VDict d => Ok (length d)
  | _ => Raise TypeError
  end.

(** [x in v] *)
Definition py_contains (x v : value) : result bool :=
  match v with
  | VList l => Ok (existsb (py_same_or_eq x) l)
  | VDict d =>
      match x with
      | VStr k => Ok (dict_has k d)
      | VList _ | VDict _ => Raise TypeError
      | _ => Ok false
      end
  | VStr s =>
      match x with
      | VStr p => Ok (str_contains p s)
      | _ => Raise TypeError
      end
  | _ => Raise TypeError
  end.

(** [d[key] = v] where [key] is a computed value. *)
Definition dict_setitem (key v : value) (d : dict) : result dict :=
  match key with
  | VStr k => Ok (dict_set k v d)
  | VList _ | VDict _ => Raise TypeError
  | _ => Raise NonStringKey
  end.

(** [dict(v)] *)
Fixpoint dict_of_pairs (elems : list value) (acc : dict) : result dict :=
  match elems with
  | [] => Ok acc
  | e :: rest =>
      kv <- py_iter e ;;
      match kv with
      | [k; v] => acc' <- dict_setitem k v acc ;; dict_of_pairs rest acc'
      | _ => Raise ValueError
      end
  end.

Definition py_dict (v : value) : result dict :=
  match v with
  | VDict d => Ok d
  | _ => elems <- py_iter v ;; dict_of_pairs elems []
  end.

(** ** The JSON decoder ([json.loads])

    The standard decoder, as the converters see it.  On a [str] it
    returns a value or raises JSONDecodeError, and it has two more ways
    to fail, which depend on the interpreter: RecursionError when arrays
    and objects are nested deeper than the interpreter's stack allows,
    and ValueError on an integer of more digits than
    [sys.get_int_max_str_digits()].  On anything but a [str] it raises
    TypeError. *)

(** [max_nesting]: how many arrays and objects, one inside the other,
    the decoder can enter in a call made by the converters; it follows
    from [sys.getrecursionlimit()] and the frames in use.
    [int_max_str_digits]: the value of [sys.get_int_max_str_digits()],
    0 when integers have no limit. *)
Class limits : Type := {
  max_nesting : nat;
  int_max_str_digits : nat
}.

(** The defaults of the interpreter: a recursion limit of 1000, which
    bounds the nesting from above (the frames in use at the call lower
    it by a few: a call from the top level of CPython 3.11 enters 994
    levels), and 4300 digits.  The examples and the instances of the
    theorems are computed with them; the theorems hold for all limits. *)
#[global] Instance default_limits : limits :=
  {| max_nesting := 1000; int_max_str_digits := 4300 |}.

Module json.

Section Decoder.

Context {lim : limits}.

Definition dquote : ascii := ascii_of_nat 34.
Definition backslash : ascii := ascii_of_nat 92.

Definition is_ws (c : ascii) : bool :=
  let n := nat_of_ascii c in
  Nat.eqb n 32 || Nat.eqb n 9 || Nat.eqb n 10 || Nat.eqb n 13.

Fixpoint skip_ws (s : string) : string :=
  match s with
  | String c r => if is_ws c then skip_ws r else s
  | EmptyString => s
  end.

Definition is_digit (c : ascii) : bool :=
  Nat.leb 48 (nat_of_ascii c) && Nat.leb (nat_of_ascii c) 57.

Fixpoint span_digits (s : string) : string * string :=
  match s with
  | String c r =>
      if is_digit c
      then let '(a, b) := span_digits r in (String c a, b)
      else (EmptyString, s)
  | EmptyString => (EmptyString, EmptyString)
  end.

Fixpoint digits_to_Z (s : string) (acc : Z) : Z :=
  match s with
  | String c r => digits_to_Z r (10 * acc + Z.of_nat (nat_of_ascii c - 48))
  | EmptyString => acc
  end.

Definition hex_val (c : ascii) : option N :=
  let n := N_of_ascii c in
  if N.leb 48 n && N.leb n 57 then Some (n - 48)%N
  else if N.leb 65 n && N.leb n 70 then Some (n - 55)%N
  else if N.leb 97 n && N.leb n 102 then Some (n - 87)%N
  else None.

Definition hex4 (s : string) : option (N * string) :=
  match s with
  | String a (String b (String c (String d r))) =>
      match hex_val a, hex_val b, hex_val c, hex_val d with
      | Some x, Some y, Some z, Some w =>
          Some ((((x * 16 + y) * 16 + z) * 16 + w)%N, r)
      | _, _, _, _ => None
      end
  | _ => None
  end.

Definition utf8_encode (cp : N) : string :=
  let b (n : N) := ascii_of_N n in
  let cont (n : N) := b (128 + n mod 64)%N in
  if N.ltb cp 128 then String (b cp) EmptyString
  else if N.ltb cp 2048 then
    String (b (192 + cp / 64)%N) (String (cont cp) EmptyString)
  else if N.ltb cp 65536 then
    String (b (224 + cp / 4096)%N)
      (String (cont (cp / 64)%N) (String (cont cp) EmptyString))
  else
    String (b (240 + cp / 262144)%N)
      (String (cont (cp / 4096)%N)
         (String (cont (cp / 64)%N) (String (cont cp) EmptyString))).

Definition simple_escape (e : ascii) : option ascii :=
  let n := nat_of_ascii e in
  if Nat.eqb n 34 then Some dquote
  else if Nat.eqb n 92 then Some backslash
  else if Ascii.eqb e "/" then Some e
  else if Ascii.eqb e "b" then Some (ascii_of_nat 8)
  else if Ascii.eqb e "f" then Some (ascii_of_nat 12)
  else if Ascii.eqb e "n" then Some (ascii_of_nat 10)
  else if Ascii.eqb e "r" then Some (ascii_of_nat 13)
  else if Ascii.eqb e "t" then Some (ascii_of_nat 9)
  else None.

Definition is_high_surrogate (n : N) : bool := N.leb 55296 n && N.leb n 56319.
Definition is_low_surrogate (n : N) : bool := N.leb 56320 n && N.leb n 57343.

Definition prepend (p : string) (r : option (string * string))
  : option (string * string) :=
  match r with
  | Some (s, rest) => Some (p ++ s, rest)
  | None => None
  end.

(** The body of a string literal, after its opening quote. *)
Fixpoint scan_string (fuel : nat) (s : string) : option (string * string) :=
  match fuel with
  | O => None
  | S f =>
      match s with
      | EmptyString => None
      | String c r =>
          if Ascii.eqb c dquote then Some (EmptyString, r)
          else if Ascii.eqb c backslash then
            match r with
            | EmptyString => None
            | String e r1 =>
                if Ascii.eqb e "u" then
                  match hex4 r1 with
                  | None => None
                  | Some (hi, r2) =>
                      let single := prepend (utf8_encode hi) (scan_string f r2) in
                      if is_high_surrogate hi then
                        match strip_prefix (String backslash "u") r2 with
                        | None => single
                        | Some r3 =>
                            match hex4 r3 with
                            | None => None
                            | Some (lo, r4) =>
                                if is_low_surrogate lo then
                                  prepend
                                    (utf8_encode
                                       (65536 + (hi - 55296) * 1024
                                        + (lo - 56320))%N)
                                    (scan_string f r4)
                                else single
                            end
                        end
                      else single
                  end
                else
                  match simple_escape e with
                  | Some ch => prepend (String ch EmptyString) (scan_string f r1)
                  | None => None
                  end
            end
          else if Nat.ltb (nat_of_ascii c) 32 then None
          else prepend (String c EmptyString) (scan_string f r)
      end
  end.

(** [int(text)] refuses a text of more digits than the limit in force;
    below 640 digits no limit applies. *)
Definition too_many_digits (digits : string) : bool :=
  let n := String.length digits in
  Nat.ltb 640 n && Nat.ltb 0 int_max_str_digits
  && Nat.ltb int_max_str_digits n.

(** [float(text)] for the text of a number: [frac] is empty or a dot and
    digits, [ex] is empty or the letter e, an optional sign and
    digits. *)
Definition float_of_literal (neg : bool) (ipart frac ex : string) : pyfloat :=
  let fdigits :=
    match frac with
    | String _ ds => ds
    | EmptyString => EmptyString
    end in
  let exponent :=
    match ex with
    | String _ (String c ds) =>
        if Ascii.eqb c "-" then Z.opp (digits_to_Z ds 0)
        else if Ascii.eqb c "+" then digits_to_Z ds 0
        else digits_to_Z (String c ds) 0
    | _ => 0%Z
    end in
  float_of_decimal neg (digits_to_Z (ipart ++ fdigits) 0)
    (exponent - Z.of_nat (String.length fdigits)).

(** A number: an optional minus sign, then 0 or a digit string that does
    not start with 0, then an optional fraction (a dot and digits) and an
    optional exponent (e or E, an optional sign, digits).  It is an [int]
    when it has neither fraction nor exponent. *)
Definition scan_number (s : string) : result (value * string) :=
  let '(neg, r0) :=
    match s with
    | String "-" r => (true, r)
    | _ => (false, s)
    end in
  match r0 with
  | String c r1 =>
      if is_digit c then
        let '(ipart, r2) :=
          if Ascii.eqb c "0" then ("0", r1) else span_digits r0 in
        let '(frac, r3) :=
          match r2 with
          | String "." r' =>
              let '(ds, r'') := span_digits r' in
              if String.eqb ds "" then (EmptyString, r2)
              else (String "." ds, r'')
          | _ => (EmptyString, r2)
          end in
        let '(ex, r4) :=
          match r3 with
          | String e r' =>
              if Ascii.eqb e "e" || Ascii.eqb e "E" then
                let '(sign, r'') :=
                  match r' with
                  | String "+" x => ("+", x)
                  | String "-" x => ("-", x)
                  | _ => (EmptyString, r')
                  end in
                let '(ds, r''') := span_digits r'' in
                if String.eqb ds "" then (EmptyString, r3)
                else (String e (sign ++ ds), r''')
              else (EmptyString, r3)
          | EmptyString => (EmptyString, r3)
          end in
        if String.eqb frac "" && String.eqb ex "" then
          if too_many_digits ipart then Raise ValueError
          else Ok (VInt ((if neg then -1 else 1) * digits_to_Z ipart 0), r4)
        else
          Ok (VFloat (float_of_literal neg ipart frac ex), r4)
      else Raise JSONDecodeError
  | EmptyString => Raise JSONDecodeError
  end.

Definition scan_atom (s : string) : result (value * string) :=
  match strip_prefix "null" s with
  | Some r => Ok (VNone, r)
  | None =>
  match strip_prefix "true" s with
  | Some r => Ok (VBool true, r)
  | None =>
  match strip_prefix "false" s with
  | Some r => Ok (VBool false, r)
  | None =>
  match strip_prefix "NaN" s with
  | Some r => Ok (VFloat (FNaN 0), r)
  | None =>
  match strip_prefix "Infinity" s with
  | Some r => Ok (VFloat (FInf false), r)
  | None =>
  match strip_prefix "-Infinity" s with
  | Some r => Ok (VFloat (FInf true), r)
  | None => scan_number s
  end end end end end end.

(** One value at the head of [s], and the rest of the input; [depth] is
    the number of arrays and objects that can still be entered.  A key
    met twice in an object keeps its first position and its last value,
    as [dict(pairs)] does. *)
Fixpoint scan_value (fuel depth : nat) (s : string) : result (value * string) :=
  match fuel with
  | O => Raise JSONDecodeError
  | S f =>
      match s with
      | String c r =>
          if Ascii.eqb c dquote then
            match scan_string (S (String.length r)) r with
            | Some (str, r') => Ok (VStr str, r')
            | None => Raise JSONDecodeError
            end
          else if Ascii.eqb c "{" then
            match depth with
            | O => Raise RecursionError
            | S d =>
                match skip_ws r with
                | String c' r' =>
                    if Ascii.eqb c' "}" then Ok (VDict [], r')
                    else scan_members f d [] (String c' r')
                | EmptyString => Raise JSONDecodeError
                end
            end
          else if Ascii.eqb c "[" then
            match depth with
            | O => Raise RecursionError
            | S d =>
                match skip_ws r with
                | String c' r' =>
                    if Ascii.eqb c' "]" then Ok (VList [], r')
                    else scan_elems f d [] (String c' r')
                | EmptyString => Raise JSONDecodeError
                end
            end
          else scan_atom s
      | EmptyString => Raise JSONDecodeError
      end
  end
with scan_elems (fuel depth : nat) (acc : list value) (s : string)
  : result (value * string) :=
  match fuel with
  | O => Raise JSONDecodeError
  | S f =>
      match scan_value f depth s with
      | Raise e => Raise e
      | Ok (v, r) =>
          match skip_ws r with
          | String c r' =>
              if Ascii.eqb c "," then scan_elems f depth (v :: acc) (skip_ws r')
              else if Ascii.eqb c "]" then Ok (VList (rev (v :: acc)), r')
              else Raise JSONDecodeError
          | EmptyString => Raise JSONDecodeError
          end
      end
  end
with scan_members (fuel depth : nat) (acc : dict) (s : string)
  : result (value * string) :=
  match fuel with
  | O => Raise JSONDecodeError
  | S f =>
      match s with
      | String c r =>
          if Ascii.eqb c dquote then
            match scan_string (S (String.length r)) r with
            | None => Raise JSONDecodeError
            | Some (k, r1) =>
                match skip_ws r1 with
                | String c1 r2 =>
                    if Ascii.eqb c1 ":" then
                      match scan_value f depth (skip_ws r2) with
                      | Raise e => Raise e
                      | Ok (v, r3) =>
                          match skip_ws r3 with
                          | String c3 r4 =>
                              if Ascii.eqb c3 "," then
                                scan_members f depth (dict_set k v acc)
                                  (skip_ws r4)
                              else if Ascii.eqb c3 "}" then
                                Ok (VDict (dict_set k v acc), r4)
                              else Raise JSONDecodeError
                          | EmptyString => Raise JSONDecodeError
                          end
                      end
                    else Raise JSONDecodeError
                | EmptyString => Raise JSONDecodeError
                end
            end
          else Raise JSONDecodeError
      | EmptyString => Raise JSONDecodeError
      end
  end.

(** [json.loads(s)] for a [str] *)
Definition loads_str (s : string) : result value :=
  match scan_value (2 * String.length s + 2) max_nesting (skip_ws s) with
  | Ok (v, r) =>
      if String.eqb (skip_ws r) "" then Ok v else Raise JSONDecodeError
  | Raise e => Raise e
  end.

(** [json.loads(v)] *)
Definition loads (v : value) : result value :=
  match v with
  | VStr s => loads_str s
  | _ => Raise TypeError
  end.

End Decoder.

End json.

(** Single quotes stand for double quotes in the JSON texts of the
    examples below. *)
Fixpoint q (s : string) : string :=
  match s with
  | String c r => String (if Ascii.eqb c "'" then json.dquote else c) (q r)
  | EmptyString => EmptyString
  end.

(** ** Helpers shared by the two converters *)

Fixpoint map_result {A B} (f : A -> result B) (l : list A) : result (list B) :=
  match l with
  | [] => Ok []
  | x :: rest => y <- f x ;; ys <- map_result f rest ;; Ok (y :: ys)
  end.

(** [del d[k]] *)
Definition dict_delitem (k : string) (d : dict) : result dict :=
  if dict_has k d then Ok (dict_del k d) else Raise KeyError.

(** [for key in list(d.keys()): if d[key] is None: del d[key]] *)
Definition strip_nulls (d : dict) : dict :=
  fold_left
    (fun d key =>
       match dict_get key d with
       | Some VNone => dict_del key d
       | _ => d
       end)
    (map fst d) d.

(** [for key in keys: d.pop(key, None)] *)
Definition pop_keys (keys : list string) (d : dict) : dict :=
  fold_left (fun d key => dict_del key d) keys d.

(** * ckan_to_frictionless.py *)

Module ckan_to_frictionless.

Definition resource_mapping : list (string * string) :=
  [("size", "bytes"); ("mimetype", "mediatype"); ("url", "path")].

Definition resource_keys_to_remove : list string :=
  ["package_id"; "position"; "datastore_active"; "state"].

(** [for key in keys: if key in d: del d[key]] *)
Definition remove_keys (keys : list string) (d : dict) : dict :=
  fold_left (fun d key => if dict_has key d then dict_del key d else d) keys d.

Section Converters.

Context {lim : limits}.

(** The classes of [except (json_parse_exception, TypeError)], where
    [json_parse_exception] is [json.decoder.JSONDecodeError]. *)
Definition handled (e : exn) : bool :=
  match e with
  | JSONDecodeError | TypeError => true
  | _ => false
  end.

(** The body of the unjsonify loop for one value: the entry is
    reassigned only when the stripped string parses; an exception of
    the decoder that the [except] clause does not name leaves the
    function. *)
Definition unjsonify (v : value) : result value :=
  match v with
  | VStr s =>
      let stripped := py_strip s in
      if startswith "{" stripped || startswith "[" stripped
      then try_except (json.loads (VStr stripped)) handled v
      else Ok v
  | _ => Ok v
  end.

(** [for key, value in d.items(): ... d[key] = value]: the entries are
    visited in order, each once, and keep their key and position. *)
Definition unjsonify_values (d : dict) : result dict :=
  map_result (fun kv => v <- unjsonify (snd kv) ;; Ok (fst kv, v)) d.

(** One turn of [for key, value in resource_mapping.items()]. *)
Definition rename_key (key value : string) (d : dict) : dict :=
  if dict_has key d
  then dict_del key (dict_set value (dict_get_default key d) d)
  else d.

Definition remap (mapping : list (string * string)) (d : dict) : dict :=
  fold_left (fun d kv => rename_key (fst kv) (snd kv) d) mapping d.

(** [resource(ckandict)] for a record [ckandict]. *)
Definition resource (ckandict : dict) : result dict :=
  let resource := ckandict in
  let resource := remove_keys resource_keys_to_remove resource in
  resource <- unjsonify_values resource ;;
  let resource := remap resource_mapping resource in
  Ok (strip_nulls resource).

(** [resource(v)] for any value: [dict(v)] comes first. *)
Definition resource_of (v : value) : result value :=
  d <- py_dict v ;; r <- resource d ;; Ok (VDict r).

Definition dataset_keys_to_remove : list string := ["state"].

Definition dataset_mapping : list (string * string) :=
  [("notes", "description"); ("url", "homepage")].

Fixpoint expand_loop (extras : list value) (outdict : dict) : result dict :=
  match extras with
  | [] => Ok outdict
  | extra :: rest =>
      key <- getitem extra "key" ;;
      value <- getitem extra "value" ;;
      value <- try_except (json.loads value) handled value ;;
      outdict' <- dict_setitem key value outdict ;;
      expand_loop rest outdict'
  end.

Definition expand_extras (ckandict outdict : dict) : result dict :=
  if dict_has "extras" ckandict then
    extras <- dict_getitem "extras" ckandict ;;
    items <- py_iter extras ;;
    outdict <- expand_loop items outdict ;;
    dict_delitem "extras" outdict
  else Ok outdict.

Fixpoint map_keys (mapping : list (string * string)) (ckandict outdict : dict)
  : result dict :=
  match mapping with
  | [] => Ok outdict
  | (key, value) :: rest =>
      if dict_has key ckandict then
        v <- dict_getitem key ckandict ;;
        outdict' <- dict_delitem key (dict_set value v outdict) ;;
        map_keys rest ckandict outdict'
      else map_keys rest ckandict outdict
  end.

Definition convert_tags (ckandict outdict : dict) : result dict :=
  if dict_has "tags" ckandict then
    tags <- dict_getitem "tags" ckandict ;;
    items <- py_iter tags ;;
    names <- map_result (fun tag => getitem tag "name") items ;;
    dict_delitem "tags" (dict_set "keywords" (VList names) outdict)
  else Ok outdict.

(** The [contrib] dictionary built for one role. *)
Definition contrib (role email_key : string) (title : value) (outdict : dict)
  : value :=
  let contrib := [("title", title); ("role", VStr role)] in
  VDict (if dict_has email_key outdict
         then dict_set "email" (dict_get_default email_key outdict) contrib
         else contrib).

Definition synth_contributors (outdict : dict) : dict :=
  if negb (dict_has "contributors" outdict
           && truthy (dict_get_default "contributors" outdict))
     && (dict_has "author" outdict || dict_has "maintainer" outdict)
  then
    let contributors := [] in
    let contributors :=
      if dict_has "author" outdict
         && truthy (dict_get_default "author" outdict)
      then (contributors
            ++ [contrib "author" "author_email"
                  (dict_get_default "author" outdict) outdict])%list
      else contributors in
    let contributors :=
      if dict_has "maintainer" outdict
         && truthy (dict_get_default "maintainer" outdict)
      then (contributors
            ++ [contrib "maintainer" "maintainer_email"
                  (dict_get_default "maintainer" outdict) outdict])%list
      else contributors in
    dict_set "contributors" (VList contributors) outdict
  else outdict.

Definition convert_resources (outdict : dict) : result dict :=
  if dict_has "resources" outdict then
    resources <- dict_getitem "resources" outdict ;;
    items <- py_iter resources ;;
    converted <- map_result resource_of items ;;
    Ok (dict_set "resources" (VList converted) outdict)
  else Ok outdict.

(** [licenses] is created as [[{}]] when one of the three keys is there,
    and its only element then receives the fields that are there. *)
Definition synth_license (outdict : dict) : dict :=
  let copy (src dst : string) (license : dict) : dict :=
    if dict_has src outdict
    then dict_set dst (dict_get_default src outdict) license
    else license in
  let outdict' :=
    if existsb (fun key => dict_has key outdict)
         ["license_id"; "license_title"; "license_url"]
    then
      let license := [] in
      let license := copy "license_id" "name" license in
      let license := copy "license_title" "title" license in
      let license := copy "license_url" "path" license in
      dict_set "licenses" (VList [VDict license]) outdict
    else outdict in
  pop_keys ["license_id"; "license_title"; "license_url"] outdict'.

(** The search loop over [ckandict['extras']]: the first item one of
    whose values equals ['licenses'] is decoded, outside any [try]. *)
Fixpoint find_licenses (items : list value) : result (option value) :=
  match items with
  | [] => Ok None
  | item :: rest =>
      values <- method_values item ;;
      if existsb (fun value => py_eq value (VStr "licenses")) values then
        item_copy <- py_dict item ;;
        licenses_dict <- json.loads (dict_get_default "value" item_copy) ;;
        licenses_list <- method_get licenses_dict "licenses" ;;
        Ok (Some licenses_list)
      else find_licenses rest
  end.

Definition copy_field (k : string) (license : value) (license_out : dict)
  : result dict :=
  present <- py_contains (VStr k) license ;;
  if present
  then v <- getitem license k ;; Ok (dict_set k v license_out)
  else Ok license_out.

Fixpoint add_licenses (licenses_list : list value) (outdict : dict)
  : result dict :=
  match licenses_list with
  | [] => Ok outdict
  | license :: rest =>
      license_out <- copy_field "name" license [] ;;
      license_out <- copy_field "title" license license_out ;;
      license_out <- copy_field "path" license license_out ;;
      licenses <- dict_getitem "licenses" outdict ;;
      there <- py_contains (VDict license_out) licenses ;;
      outdict' <-
        (if there then Ok outdict
         else licenses' <- method_append licenses (VDict license_out) ;;
              Ok (dict_set "licenses" licenses' outdict)) ;;
      add_licenses rest outdict'
  end.

Definition extras_licenses (ckandict outdict : dict) : result dict :=
  if truthy (dict_get_default "extras" ckandict) then
    extras <- dict_getitem "extras" ckandict ;;
    items <- py_iter extras ;;
    found <- find_licenses items ;;
    match found with
    | Some licenses_list =>
        licenses <- py_iter licenses_list ;; add_licenses licenses outdict
    | None => Ok outdict
    end
  else Ok outdict.

(** [dataset(ckandict)] *)
Definition dataset (ckandict : dict) : result dict :=
  let outdict := ckandict in
  outdict <- expand_extras ckandict outdict ;;
  outdict <- map_keys dataset_mapping ckandict outdict ;;
  outdict <- convert_tags ckandict outdict ;;
  let outdict := synth_contributors outdict in
  let outdict :=
    pop_keys ["author"; "author_email"; "maintainer"; "maintainer_email"]
      outdict in
  outdict <- convert_resources outdict ;;
  let outdict := synth_license outdict in
  outdict <- extras_licenses ckandict outdict ;;
  let outdict := pop_keys dataset_keys_to_remove outdict in
  Ok (strip_nulls outdict).

End Converters.

End ckan_to_frictionless.

(** * frictionless_to_ckan.py *)

Module frictionless_to_ckan.

Section FrictionlessToCKAN.

(** [slugify.slugify], the external slug function: any value may be
    passed to it, and it returns a [str] or raises. *)
Variable slugify : value -> result string.

Definition resource_mapping : list (string * string) :=
  [("bytes", "size"); ("mediatype", "mimetype"); ("path", "url")].

Definition package_mapping : list (string * string) :=
  [("description", "notes"); ("homepage", "url")].

(** Defined by the class and read by none of its methods. *)
Definition ckan_package_keys : list string :=
  ["author"; "author_email"; "groups"; "license_id"; "maintainer";
   "maintainer_email"; "name"; "notes"; "owner_org"; "private";
   "relationships_as_object"; "relationships_as_subject"; "resources";
   "state"; "tags"; "title"; "type"; "url"; "version"].

(** [resource(self, fddict)]: the body is [pass], the call returns
    [None]. *)
Definition resource (fddict : dict) : value := VNone.

Fixpoint map_keys (mapping : list (string * string)) (fddict outdict : dict)
  : result dict :=
  match mapping with
  | [] => Ok outdict
  | (k, v) :: rest =>
      if dict_has k fddict then
        x <- dict_getitem k fddict ;;
        outdict' <- dict_delitem k (dict_set v x outdict) ;;
        map_keys rest fddict outdict'
      else map_keys rest fddict outdict
  end.

(** [if not outdict.get('extras'): outdict['extras'] = []] and then
    [outdict['extras'].append({name: seq})]. *)
Definition archive (name : string) (seq : value) (outdict : dict)
  : result dict :=
  let outdict :=
    if negb (truthy (dict_get_default "extras" outdict))
    then dict_set "extras" (VList []) outdict
    else outdict in
  extras <- dict_getitem "extras" outdict ;;
  extras' <- method_append extras (VDict [(name, seq)]) ;;
  Ok (dict_set "extras" extras' outdict).

(** [if first.get(src): outdict[dst] = first[src]] *)
Definition copy_if_set (first : value) (src dst : string) (outdict : dict)
  : result dict :=
  x <- method_get first src ;;
  if truthy x
  then y <- getitem first src ;; Ok (dict_set dst y outdict)
  else Ok outdict.

Definition collapse_licenses (outdict : dict) : result dict :=
  if truthy (dict_get_default "licenses" outdict) then
    licenses <- dict_getitem "licenses" outdict ;;
    first <- getitem0 licenses ;;
    type <- getitem first "type" ;;
    let outdict := dict_set "license_id" type outdict in
    outdict <- copy_if_set first "title" "license_title" outdict ;;
    n <- py_len licenses ;;
    outdict <-
      (if Nat.ltb 1 n then archive "licenses" licenses outdict
       else Ok outdict) ;;
    dict_delitem "licenses" outdict
  else Ok outdict.

Definition collapse_sources (outdict : dict) : result dict :=
  if truthy (dict_get_default "sources" outdict) then
    sources <- dict_getitem "sources" outdict ;;
    first <- getitem0 sources ;;
    title <- getitem first "title" ;;
    let outdict := dict_set "author" title outdict in
    outdict <- copy_if_set first "email" "author_email" outdict ;;
    outdict <- copy_if_set first "path" "url" outdict ;;
    n <- py_len sources ;;
    outdict <-
      (if Nat.ltb 1 n then archive "sources" sources outdict
       else Ok outdict) ;;
    dict_delitem "sources" outdict
  else Ok outdict.

(** The [else] branch of the contributors block: [extras] is created
    and filled, and the loop left, only under
    [if not outdict.get('extras')]. *)
Fixpoint overflow_loop (keys : list string) (contributors : value)
  (outdict : dict) : dict :=
  match keys with
  | [] => outdict
  | key :: rest =>
      if existsb (String.eqb key) ["path"; "organisation"; "role"] then
        if negb (truthy (dict_get_default "extras" outdict)) then
          dict_set "extras"
            (VList [VDict [("contributors", contributors)]]) outdict
        else overflow_loop rest contributors outdict
      else overflow_loop rest contributors outdict
  end.

Definition collapse_contributors (outdict : dict) : result dict :=
  if truthy (dict_get_default "contributors" outdict) then
    contributors <- dict_getitem "contributors" outdict ;;
    first <- getitem0 contributors ;;
    title <- getitem first "title" ;;
    let outdict := dict_set "maintainer" title outdict in
    outdict <- copy_if_set first "email" "maintainer_email" outdict ;;
    n <- py_len contributors ;;
    outdict <-
      (if Nat.ltb 1 n then archive "contributors" contributors outdict
       else keys <- method_keys first ;;
            Ok (overflow_loop keys contributors outdict)) ;;
    dict_delitem "contributors" outdict
  else Ok outdict.

Definition tag_of (keyword : value) : result value :=
  slug <- slugify keyword ;; Ok (VDict [("name", VStr (lower slug))]).

Definition convert_keywords (outdict : dict) : result dict :=
  if truthy (dict_get_default "keywords" outdict) then
    keywords <- dict_getitem "keywords" outdict ;;
    items <- py_iter keywords ;;
    tags <- map_result tag_of items ;;
    dict_delitem "keywords" (dict_set "tags" (VList tags) outdict)
  else Ok outdict.

(** [package(self, fddict)] *)
Definition package (fddict : dict) : result dict :=
  let outdict := fddict in
  outdict <- map_keys package_mapping fddict outdict ;;
  outdict <- collapse_licenses outdict ;;
  outdict <- collapse_sources outdict ;;
  outdict <- collapse_contributors outdict ;;
  convert_keywords outdict.

End FrictionlessToCKAN.

End frictionless_to_ckan.

(** * The converters over a store of objects

    A Python list or dictionary is an object with an identity: a name or
    a dictionary entry holds a reference to it, [dict(d)] copies the
    references of [d], and [append] and item assignment change the one
    object every holder sees.  This section gives [package] that reading:
    values that are references into a heap of list and dictionary
    objects, and a state and exception monad over the heap. *)

Module store.

Inductive ref_value : Type :=
| RNone
| RBool (b : bool)
| RInt (n : Z)
| RFloat (f : pyfloat)
| RStr (s : string)
| RRef (loc : nat).

Inductive object : Type :=
| OList (items : list ref_value)
| ODict (entries : list (string * ref_value)).

(** The object at location [n] is the [n]-th one allocated. *)
Definition heap : Type := list object.

Definition M (A : Type) : Type := heap -> result (A * heap).

Definition ret {A} (a : A) : M A := fun h => Ok (a, h).

Definition mbind {A B} (m : M A) (f : A -> M B) : M B :=
  fun h =>
    match m h with
    | Ok (a, h') => f a h'
    | Raise e => Raise e
    end.

Definition throw {A} (e : exn) : M A := fun _ => Raise e.

Definition lift {A} (r : result A) : M A :=
  fun h =>
    match r with
    | Ok a => Ok (a, h)
    | Raise e => Raise e
    end.

Declare Scope store_scope.
Delimit Scope store_scope with store.
Notation "x <- m ;; k" := (mbind m (fun x => k))
  (at level 61, m at next level, right associativity) : store_scope.
Notation "m ;; k" := (mbind m (fun _ => k))
  (at level 61, right associativity) : store_scope.
Local Open Scope store_scope.

Definition get_heap : M heap := fun h => Ok (h, h).

Definition alloc (o : object) : M nat :=
  fun h => Ok (length h, (h ++ [o])%list).

Definition deref (loc : nat) : M object :=
  fun h =>
    match nth_error h loc with
    | Some o => Ok (o, h)
    | None => Raise DanglingRef
    end.

Fixpoint replace_nth (n : nat) (o : object) (h : heap) : heap :=
  match h, n with
  | [], _ => []
  | _ :: rest, O => o :: rest
  | x :: rest, S n' => x :: replace_nth n' o rest
  end.

Definition assign (loc : nat) (o : object) : M unit :=
  fun h =>
    if Nat.ltb loc (length h) then Ok (tt, replace_nth loc o h)
    else Raise DanglingRef.

(** The value a reference stands for, read off the heap. *)
Fixpoint reify (fuel : nat) (h : heap) (v : ref_value) : value :=
  match v with
  | RNone => VNone
  | RBool b => VBool b
  | RInt n => VInt n
  | RFloat f => VFloat f
  | RStr s => VStr s
  | RRef loc =>
      match fuel with
      | O => VNone
      | S f =>
          match nth_error h loc with
          | Some (OList items) => VList (map (reify f h) items)
          | Some (ODict entries) =>
              VDict (map (fun kv => (fst kv, reify f h (snd kv))) entries)
          | None => VNone
          end
      end
  end.

Definition view (h : heap) (v : ref_value) : value :=
  reify (S (length h)) h v.

(** A value built in the heap, every list and dictionary a new object. *)
Fixpoint load (v : value) : M ref_value :=
  match v with
  | VNone => ret RNone
  | VBool b => ret (RBool b)
  | VInt n => ret (RInt n)
  | VFloat f => ret (RFloat f)
  | VStr s => ret (RStr s)
  | VList l =>
      items <-
        (fix go (l : list value) : M (list ref_value) :=
           match l with
           | [] => ret []
           | x :: rest => x' <- load x ;; rest' <- go rest ;; ret (x' :: rest')
           end) l ;;
      loc <- alloc (OList items) ;;
      ret (RRef loc)
  | VDict d =>
      entries <-
        (fix go (d : list (string * value)) : M (list (string * ref_value)) :=
           match d with
           | [] => ret []
           | (k, x) :: rest =>
               x' <- load x ;; rest' <- go rest ;; ret ((k, x') :: rest')
           end) d ;;
      loc <- alloc (ODict entries) ;;
      ret (RRef loc)
  end.

(** [bool(v)] *)
Definition is_true (v : ref_value) : M bool :=
  match v with
  | RRef loc =>
      o <- deref loc ;;
      ret (match o with
           | OList [] | ODict [] => false
           | _ => true
           end)
  | _ => h <- get_heap ;; ret (truthy (view h v))
  end.

(** The entries of the dictionary [v], for the operations only a
    dictionary has; [e] is what the others raise. *)
Definition entries_of (e : exn) (v : ref_value)
  : M (nat * list (string * ref_value)) :=
  match v with
  | RRef loc =>
      o <- deref loc ;;
      match o with
      | ODict entries => ret (loc, entries)
      | OList _ => throw e
      end
  | _ => throw e
  end.

(** [v[k]] for a string [k] *)
Definition getitem (v : ref_value) (k : string) : M ref_value :=
  le <- entries_of TypeError v ;;
  match dict_get k (snd le) with
  | Some x => ret x
  | None => throw KeyError
  end.

(** [v.get(k)] *)
Definition method_get (v : ref_value) (k : string) : M ref_value :=
  le <- entries_of AttributeError v ;;
  ret (match dict_get k (snd le) with
       | Some x => x
       | None => RNone
       end).

(** [v.keys()] *)
Definition method_keys (v : ref_value) : M (list string) :=
  le <- entries_of AttributeError v ;; ret (map fst (snd le)).

(** [v[k] = x] on a dictionary [v] *)
Definition setitem (v : ref_value) (k : string) (x : ref_value) : M unit :=
  le <- entries_of TypeError v ;;
  assign (fst le) (ODict (dict_set k x (snd le))).

(** [del v[k]] on a dictionary [v] *)
Definition delitem (v : ref_value) (k : string) : M unit :=
  le <- entries_of TypeError v ;;
  if dict_has k (snd le)
  then assign (fst le) (ODict (dict_del k (snd le)))
  else throw KeyError.

(** [k in v] on a dictionary [v] *)
Definition has_key (v : ref_value) (k : string) : M bool :=
  le <- entries_of TypeError v ;; ret (dict_has k (snd le)).

(** [v[0]] *)
Definition getitem0 (v : ref_value) : M ref_value :=
  match v with
  | RRef loc =>
      o <- deref loc ;;
      match o with
      | OList (x :: _) => ret x
      | OList [] => throw IndexError
      | ODict _ => throw KeyError
      end
  | RStr s =>
      match py_chars (String.length s) s with
      | c :: _ => ret (RStr c)
      | [] => throw IndexError
      end
  | _ => throw TypeError
  end.

(** [len(v)] *)
Definition py_len (v : ref_value) : M nat :=
  match v with
  | RRef loc =>
      o <- deref loc ;;
      ret (match o with
           | OList items => length items
           | ODict entries => length entries
           end)
  | RStr s => ret (length (py_chars (String.length s) s))
  | _ => throw TypeError
  end.

(** [for x in v] *)
Definition py_iter (v : ref_value) : M (list ref_value) :=
  match v with
  | RRef loc =>
      o <- deref loc ;;
      ret (match o with
           | OList items => items
           | ODict entries => map (fun kv => RStr (fst kv)) entries
           end)
  | RStr s => ret (map RStr (py_chars (String.length s) s))
  | _ => throw TypeError
  end.

(** [v.append(x)]: the list object [v] refers to is changed in place. *)
Definition method_append (v x : ref_value) : M unit :=
  match v with
  | RRef loc =>
      o <- deref loc ;;
      match o with
      | OList items => assign loc (OList (items ++ [x])%list)
      | ODict _ => throw AttributeError
      end
  | _ => throw AttributeError
  end.

(** [dict(v)] for a dictionary [v]: a new object with the same entries. *)
Definition copy_dict (v : ref_value) : M ref_value :=
  le <- entries_of TypeError v ;;
  loc <- alloc (ODict (snd le)) ;;
  ret (RRef loc).

Fixpoint for_each {A} (f : A -> M unit) (l : list A) : M unit :=
  match l with
  | [] => ret tt
  | x :: rest => f x ;; for_each f rest
  end.

Fixpoint map_m {A B} (f : A -> M B) (l : list A) : M (list B) :=
  match l with
  | [] => ret []
  | x :: rest => y <- f x ;; ys <- map_m f rest ;; ret (y :: ys)
  end.

Section FrictionlessToCKAN.

Variable slugify : value -> result string.

(** [outdict.get(k)], on the dictionary [outdict] *)
Definition field (outdict : ref_value) (k : string) : M ref_value :=
  method_get outdict k.

Definition when (b : bool) (m : M unit) : M unit :=
  if b then m else ret tt.

Definition map_keys (fddict outdict : ref_value) : M unit :=
  for_each
    (fun kv =>
       present <- has_key fddict (fst kv) ;;
       when present
         (x <- getitem fddict (fst kv) ;;
          setitem outdict (snd kv) x ;;
          delitem outdict (fst kv)))
    frictionless_to_ckan.package_mapping.

(** [if not outdict.get('extras'): outdict['extras'] = []] and then
    [outdict['extras'].append({name: outdict[name]})]. *)
Definition archive (name : string) (outdict : ref_value) : M unit :=
  extras <- field outdict "extras" ;;
  t <- is_true extras ;;
  when (negb t)
    (loc <- alloc (OList []) ;; setitem outdict "extras" (RRef loc)) ;;
  extras <- getitem outdict "extras" ;;
  seq <- getitem outdict name ;;
  entry <- alloc (ODict [(name, seq)]) ;;
  method_append extras (RRef entry).

Definition copy_if_set (first : ref_value) (src dst : string)
  (outdict : ref_value) : M unit :=
  x <- method_get first src ;;
  t <- is_true x ;;
  when t (y <- getitem first src ;; setitem outdict dst y).

Definition collapse_licenses (outdict : ref_value) : M unit :=
  licenses <- field outdict "licenses" ;;
  t <- is_true licenses ;;
  when t
    (licenses <- getitem outdict "licenses" ;;
     first <- getitem0 licenses ;;
     type <- getitem first "type" ;;
     setitem outdict "license_id" type ;;
     copy_if_set first "title" "license_title" outdict ;;
     n <- py_len licenses ;;
     when (Nat.ltb 1 n) (archive "licenses" outdict) ;;
     delitem outdict "licenses").

Definition collapse_sources (outdict : ref_value) : M unit :=
  sources <- field outdict "sources" ;;
  t <- is_true sources ;;
  when t
    (sources <- getitem outdict "sources" ;;
     first <- getitem0 sources ;;
     title <- getitem first "title" ;;
     setitem outdict "author" title ;;
     copy_if_set first "email" "author_email" outdict ;;
     copy_if_set first "path" "url" outdict ;;
     n <- py_len sources ;;
     when (Nat.ltb 1 n) (archive "sources" outdict) ;;
     delitem outdict "sources").

Fixpoint overflow_loop (keys : list string) (outdict : ref_value) : M unit :=
  match keys with
  | [] => ret tt
  | key :: rest =>
      if existsb (String.eqb key) ["path"; "organisation"; "role"] then
        extras <- field outdict "extras" ;;
        t <- is_true extras ;;
        if negb t then
          loc <- alloc (OList []) ;;
          setitem outdict "extras" (RRef loc) ;;
          extras <- getitem outdict "extras" ;;
          contributors <- getitem outdict "contributors" ;;
          entry <- alloc (ODict [("contributors", contributors)]) ;;
          method_append extras (RRef entry)
        else overflow_loop rest outdict
      else overflow_loop rest outdict
  end.

Definition collapse_contributors (outdict : ref_value) : M unit :=
  contributors <- field outdict "contributors" ;;
  t <- is_true contributors ;;
  when t
    (contributors <- getitem outdict "contributors" ;;
     first <- getitem0 contributors ;;
     title <- getitem first "title" ;;
     setitem outdict "maintainer" title ;;
     copy_if_set first "email" "maintainer_email" outdict ;;
     n <- py_len contributors ;;
     (if Nat.ltb 1 n then archive "contributors" outdict
      else keys <- method_keys first ;; overflow_loop keys outdict) ;;
     delitem outdict "contributors").

Definition tag_of (keyword : ref_value) : M ref_value :=
  h <- get_heap ;;
  slug <- lift (slugify (view h keyword)) ;;
  loc <- alloc (ODict [("name", RStr (lower slug))]) ;;
  ret (RRef loc).

Definition convert_keywords (outdict : ref_value) : M unit :=
  keywords <- field outdict "keywords" ;;
  t <- is_true keywords ;;
  when t
    (keywords <- getitem outdict "keywords" ;;
     items <- py_iter keywords ;;
     tags <- map_m tag_of items ;;
     loc <- alloc (OList tags) ;;
     setitem outdict "tags" (RRef loc) ;;
     delitem outdict "keywords").

(** [package(self, fddict)]; [fddict] refers to a dictionary. *)
Definition package (fddict : ref_value) : M ref_value :=
  outdict <- copy_dict fddict ;;
  map_keys fddict outdict ;;
  collapse_licenses outdict ;;
  collapse_sources outdict ;;
  collapse_contributors outdict ;;
  convert_keywords outdict ;;
  ret outdict.

End FrictionlessToCKAN.

End store.

(** * Vocabulary of the properties *)

Section Vocabulary.

Context {lim : limits}.

(** The value of [x] after [try: x = m except ...: pass], when the
    statement went through: the result of [m], or what [x] was. *)
Definition try_or {A} (m : result A) (fallback : A) : A :=
  match m with
  | Ok a => a
  | Raise _ => fallback
  end.

(** What [strip_nulls] leaves of a field. *)
Definition drop_none (field : option value) : option value :=
  match field with
  | Some VNone => None
  | _ => field
  end.

(** Two records hold the same fields with the same values; the order of
    the keys is not compared, as in [==] on dictionaries. *)
Definition dict_equiv (a b : dict) : Prop :=
  forall k, dict_get k a = dict_get k b.

(** Catalog to Package and back to Catalog. *)
Definition catalog_roundtrip (slugify : value -> result string) (D : dict)
  : result dict :=
  F <- ckan_to_frictionless.dataset D ;; frictionless_to_ckan.package slugify F.

(** The key under which [resource] returns the field [key]. *)
Definition renamed (mapping : list (string * string)) (key : string) : string :=
  match dict_get key mapping with
  | Some key' => key'
  | None => key
  end.

(** What the unjsonify step makes of the string [s], when it goes
    through. *)
Definition parsed_or_original (s : string) : value :=
  match json.loads_str (py_strip s) with
  | Ok parsed => parsed
  | Raise _ => VStr s
  end.

(** What the unjsonify step makes of a value, when it goes through: a
    string that once stripped begins with a brace or a bracket is decoded
    or kept, any other value is kept. *)
Definition unjsonified (v : value) : value :=
  match v with
  | VStr s =>
      if startswith "{" (py_strip s) || startswith "[" (py_strip s)
      then parsed_or_original s
      else v
  | _ => v
  end.

(** The decoder returns on the stripped string or rejects it as not
    being JSON: it does not stop on one of the interpreter's limits. *)
Definition decodable (s : string) : Prop :=
  forall e, json.loads_str (py_strip s) = Raise e -> e = JSONDecodeError.

(** The contributor entry synthesised for [role] from a title and the
    optional email field. *)
Definition contributor_entry (role : string) (title : value)
  (email : option value) : value :=
  VDict ([("title", title); ("role", VStr role)]
         ++ match email with
            | Some e => [("email", e)]
            | None => []
            end)%list.

(** The steps of [dataset] from the resource list on. *)
Definition dataset_tail (ckandict outdict : dict) : result dict :=
  outdict <- ckan_to_frictionless.convert_resources outdict ;;
  let outdict := ckan_to_frictionless.synth_license outdict in
  outdict <- ckan_to_frictionless.extras_licenses ckandict outdict ;;
  let outdict :=
    pop_keys ckan_to_frictionless.dataset_keys_to_remove outdict in
  Ok (strip_nulls outdict).

(** The fields of [record] that the contributor step of [dataset]
    reads. *)
Definition contributor_keys : list string :=
  ["contributors"; "author"; "author_email"; "maintainer";
   "maintainer_email"].

(** The keys that the steps of [dataset] after the rename step write
    or delete. *)
Definition later_keys : list string :=
  ["tags"; "keywords"; "contributors"; "author"; "author_email";
   "maintainer"; "maintainer_email"; "resources"; "licenses";
   "license_id"; "license_title"; "license_url"; "state"].

(** Membership in a list of keys, as a boolean. *)
Definition key_in (k : string) (keys : list string) : bool :=
  existsb (String.eqb k) keys.

(** The field of the input that [resource] returns under the key [k],
    before the values are unjsonified: none for a removed key or the old
    name of a renamed one; for a new name, the field under the old name
    when there is one. *)
Definition resource_field (k : string) (d : dict) : option value :=
  if key_in k ckan_to_frictionless.resource_keys_to_remove
     || key_in k (map fst ckan_to_frictionless.resource_mapping)
  then None
  else
    match find (fun kv => String.eqb k (snd kv))
               ckan_to_frictionless.resource_mapping with
    | Some (old_key, _) =>
        match dict_get old_key d with
        | Some v => Some v
        | None => dict_get k d
        end
    | None => dict_get k d
    end.

(** The value of the last entry of an extras list whose key is [k]. *)
Fixpoint last_extra (k : string) (items : list value) : option value :=
  match items with
  | [] => None
  | item :: rest =>
      match last_extra k rest with
      | Some v => Some v
      | None =>
          match item with
          | VDict entry =>
              match dict_get "key" entry with
              | Some (VStr k') =>
                  if String.eqb k k' then dict_get "value" entry else None
              | _ => None
              end
          | _ => None
          end
      end
  end.

(** The keys of a Catalog record that a step of [dataset] reads, writes
    or deletes. *)
Definition dataset_keys : list string :=
  (["extras"; "notes"; "description"; "url"; "homepage"] ++ later_keys)%list.

(** The keys of a Package record that a step of [package] reads, writes
    or deletes. *)
Definition package_keys : list string :=
  ["description"; "notes"; "homepage"; "url";
   "licenses"; "license_id"; "license_title"; "extras";
   "sources"; "author"; "author_email";
   "contributors"; "maintainer"; "maintainer_email";
   "keywords"; "tags"].

(** The license entry [dataset] builds from the three license fields
    that are there. *)
Definition license_entry (fields : dict) : value :=
  let field (src dst : string) : dict :=
    match dict_get src fields with
    | Some v => [(dst, v)]
    | None => []
    end in
  VDict (field "license_id" "name" ++ field "license_title" "title"
         ++ field "license_url" "path")%list.

(** An entry [dataset] takes from the licenses of the extras: a record
    with no key other than name, title and path. *)
Definition license_fields_only (e : value) : Prop :=
  exists license_out : dict,
    e = VDict license_out
    /\ forall k, key_in k ["name"; "title"; "path"] = false ->
                 dict_get k license_out = None.

(** An entry [package] appends to extras: a record with the one key
    licenses, sources or contributors. *)
Definition archive_entry (e : value) : Prop :=
  exists name seq,
    e = VDict [(name, seq)]
    /\ In name ["licenses"; "sources"; "contributors"].

(** The extras of [o] are empty, or hold only archive entries. *)
Definition only_archived (o : dict) : Prop :=
  truthy (dict_get_default "extras" o) = false
  \/ exists added,
       dict_get "extras" o = Some (VList added)
       /\ Forall archive_entry added.

(** The extras of [o] are the list [old] followed by archive entries. *)
Definition extends_extras (old : list value) (o : dict) : Prop :=
  exists added,
    dict_get "extras" o = Some (VList (old ++ added)%list)
    /\ Forall archive_entry added.

(** A computation over the store keeps the dictionary object [entries]
    at the location [loc]. *)
Definition keeps_object {A} (loc : nat)
  (entries : list (string * store.ref_value)) (m : store.M A) : Prop :=
  forall h a h',
    nth_error h loc = Some (store.ODict entries) ->
    m h = Ok (a, h') ->
    nth_error h' loc = Some (store.ODict entries).

(** A slug function for the examples: it accepts a [str] and returns it
    as it is. *)
Definition plain_slugify (v : value) : result string :=
  match v with
  | VStr s => Ok s
  | _ => Raise TypeError
  end.

(** The string of [n] characters [c]. *)
Fixpoint str_repeat (n : nat) (c : ascii) : string :=
  match n with
  | O => EmptyString
  | S n' => String c (str_repeat n' c)
  end.

End Vocabulary.

(** * Properties *)

(** ** The decoder and the converters on the records of the tests *)

Example loads_nested :
  json.loads_str (q "{'a': [1, -2, 3.5e+10, true, null, 'x\ny'], 'b': {}}")
  = Ok (VDict [("a", VList [VInt 1; VInt (-2);
                            VFloat (FFinite false 4587520000000000 (-17));
                            VBool true; VNone;
                            VStr (String (ascii_of_nat 120)
                                    (String (ascii_of_nat 10) "y"))]);
               ("b", VDict [])]).
Proof. reflexivity. Qed.

Example loads_rejects :
  map json.loads_str
    ["hello world"; "{'abc': 1"; "[1,]"; " 01"; "[1] x"; ""; "{,}"; "nul"]
  = repeat (Raise JSONDecodeError) 8.
Proof. reflexivity. Qed.

Example loads_scalars :
  map json.loads_str
    ["1.3"; " 2016 "; "-0"; "true"; "null"; "-Infinity"; "1e-400"; "-0.0";
     "1e400"; "NaN"]
  = [Ok (VFloat (FFinite false 5854679515581645 (-52))); Ok (VInt 2016);
     Ok (VInt 0); Ok (VBool true); Ok VNone; Ok (VFloat (FInf true));
     Ok (VFloat (FFinite false 0 0)); Ok (VFloat (FFinite true 0 0));
     Ok (VFloat (FInf false)); Ok (VFloat (FNaN 0))].
Proof. reflexivity. Qed.

(** The decoder stops on the limits of the interpreter: an array nested
    deeper than [max_nesting], an integer of more digits than
    [int_max_str_digits]; a float has no limit of digits. *)
Example loads_limits :
  json.loads_str (str_repeat 900 "[" ++ str_repeat 900 "]")
  = Ok (Nat.iter 899 (fun v => VList (v :: nil)) (VList nil))
  /\ json.loads_str (str_repeat 1001 "[" ++ str_repeat 1001 "]")
     = Raise RecursionError
  /\ json.loads_str (str_repeat 1001 "[") = Raise RecursionError
  /\ json.loads_str (str_repeat 900 "[") = Raise JSONDecodeError
  /\ json.loads_str ("-" ++ str_repeat 4300 "7")
     = Ok (VInt (- Z.of_N (N.iter 4300 (fun n => 10 * n + 7)%N 0%N)))
  /\ json.loads_str ("-" ++ str_repeat 4301 "7") = Raise ValueError
  /\ json.loads_str (str_repeat 4300 "7")
     = Ok (VInt (Z.of_N (N.iter 4300 (fun n => 10 * n + 7)%N 0%N)))
  /\ json.loads_str (str_repeat 4301 "7") = Raise ValueError
  /\ json.loads_str ("[" ++ str_repeat 4301 "7") = Raise ValueError
  /\ json.loads_str (str_repeat 4301 "7" ++ ".5") = Ok (VFloat (FInf false)).
Proof. vm_compute. repeat split. Qed.

(** Truth value and equality of numbers. *)
Example float_truth_and_equality :
  map truthy [VFloat (FFinite false 0 0); VFloat (FFinite true 0 0);
              VFloat (FFinite false 1 (-1074)); VFloat (FNaN 0)]
  = [false; false; true; true]
  /\ py_eq (VInt 1) (VFloat (FFinite false 4503599627370496 (-52))) = true
  /\ py_eq (VBool true) (VFloat (FFinite false 1 0)) = true
  /\ py_eq (VFloat (FFinite false 1 1)) (VFloat (FFinite false 4 (-1))) = true
  /\ py_eq (VFloat (FFinite false 0 0)) (VFloat (FFinite true 0 0)) = true
  /\ py_eq (VInt 3) (VFloat (FFinite false 5854679515581645 (-52))) = false
  /\ py_eq (VFloat (FNaN 0)) (VFloat (FNaN 0)) = false
  /\ py_contains (VFloat (FNaN 0)) (VList [VFloat (FNaN 0)]) = Ok true
  /\ py_contains (VFloat (FNaN 0)) (VList [VFloat (FNaN 1)]) = Ok false
  /\ py_eq (VList [VFloat (FNaN 0)]) (VList [VFloat (FNaN 0)]) = true.
Proof. repeat split. Qed.

Example test_values_are_unjsonified :
  let schema :=
    VDict [("fields",
            VList [VDict [("name", VStr "abc"); ("type", VStr "string")]])] in
  let text := q "{'fields': [{'name': 'abc', 'type': 'string'}]}" in
  ckan_to_frictionless.resource
    [("schema", VStr text); ("otherval", VStr text); ("x", VStr "{'abc': 1")]
  = Ok [("schema", schema); ("otherval", schema); ("x", VStr "{'abc': 1")]
  /\ ckan_to_frictionless.resource
       [("x", VStr "hello world"); ("y", VStr "1.3")]
     = Ok [("x", VStr "hello world"); ("y", VStr "1.3")].
Proof. split; reflexivity. Qed.

Example test_resource_keys_are_removed :
  ckan_to_frictionless.resource
    [("package_id", VStr "xxx"); ("position", VInt 2);
     ("datastore_active", VBool true); ("state", VStr "active")]
  = Ok [].
Proof. reflexivity. Qed.

Example test_resource_mapping :
  ckan_to_frictionless.resource
    [("url", VStr "http://www.somewhere.com/data.csv"); ("size", VInt 110);
     ("mimetype", VStr "text/csv")]
  = Ok [("bytes", VInt 110); ("mediatype", VStr "text/csv");
        ("path", VStr "http://www.somewhere.com/data.csv")].
Proof. reflexivity. Qed.

Example test_nulls_are_stripped :
  ckan_to_frictionless.resource
    [("abc", VStr "xxx"); ("size", VNone); ("xyz", VNone)]
  = Ok [("abc", VStr "xxx")].
Proof. reflexivity. Qed.

Example test_dataset_extras :
  ckan_to_frictionless.dataset
    [("extras",
      VList [VDict [("key", VStr "title_cn"); ("value", VStr "GDP")];
             VDict [("key", VStr "years"); ("value", VStr "[2015, 2016]")];
             VDict [("key", VStr "last_year"); ("value", VInt 2016)];
             VDict [("key", VStr "location");
                    ("value", VStr (q "{'country': 'China'}"))]])]
  = Ok [("title_cn", VStr "GDP");
        ("years", VList [VInt 2015; VInt 2016]);
        ("last_year", VInt 2016);
        ("location", VDict [("country", VStr "China")])].
Proof. reflexivity. Qed.

Example test_dataset_license :
  ckan_to_frictionless.dataset [("license_id", VStr "odc-odbl")]
  = Ok [("licenses", VList [VDict [("name", VStr "odc-odbl")]])]
  /\ ckan_to_frictionless.dataset
       [("license_id", VStr "cc-by");
        ("license_title", VStr "Creative Commons Attribution");
        ("license_url", VStr "http://www.opendefinition.org/licenses/cc-by")]
     = Ok [("licenses",
            VList [VDict
                     [("name", VStr "cc-by");
                      ("title", VStr "Creative Commons Attribution");
                      ("path",
                       VStr "http://www.opendefinition.org/licenses/cc-by")]])].
Proof. split; reflexivity. Qed.

(** The additional licenses are read from a JSON object with the key
    licenses; a JSON list, as [test_dataset_license_with_licenses_in_extras]
    passes, has no [get]. *)
Example dataset_licenses_in_extras :
  ckan_to_frictionless.dataset
    [("license_id", VStr "odc-odbl");
     ("extras",
      VList [VDict [("key", VStr "licenses");
                    ("value",
                     VStr (q "{'licenses': [{'name': 'cc-by', 'id': 1}, {'name': 'odc-odbl'}]}"))]])]
  = Ok [("licenses",
         VList [VDict [("name", VStr "odc-odbl")];
                VDict [("name", VStr "cc-by")]])]
  /\ ckan_to_frictionless.dataset
       [("license_id", VStr "odc-odbl");
        ("extras",
         VList [VDict [("key", VStr "licenses");
                       ("value", VStr (q "[{'name': 'cc-by'}]"))]])]
     = Raise AttributeError.
Proof. split; reflexivity. Qed.

Example test_key_mappings :
  ckan_to_frictionless.dataset
    [("notes", VStr "Country, regional and world GDP");
     ("url", VStr "https://datopian.com")]
  = Ok [("description", VStr "Country, regional and world GDP");
        ("homepage", VStr "https://datopian.com")].
Proof. reflexivity. Qed.

Example test_dataset_contributors_already_there :
  ckan_to_frictionless.dataset
    [("contributors", VList [VDict [("title", VStr "Datopians")]]);
     ("author", VStr "World Bank and OECD")]
  = Ok [("contributors", VList [VDict [("title", VStr "Datopians")]])].
Proof. reflexivity. Qed.

Example test_dataset_tags :
  ckan_to_frictionless.dataset
    [("tags",
      VList [VDict [("display_name", VStr "economy"); ("name", VStr "economy");
                    ("state", VStr "active")];
             VDict [("display_name", VStr "worldbank");
                    ("name", VStr "worldbank"); ("state", VStr "active")]])]
  = Ok [("keywords", VList [VStr "economy"; VStr "worldbank"])].
Proof. reflexivity. Qed.

Example test_resources_are_converted :
  ckan_to_frictionless.dataset
    [("name", VStr "gdp");
     ("resources",
      VList [VDict [("id", VStr "1234"); ("name", VStr "data.csv");
                    ("url", VStr "http://someplace.com/data.csv")]])]
  = Ok [("name", VStr "gdp");
        ("resources",
         VList [VDict [("id", VStr "1234"); ("name", VStr "data.csv");
                       ("path", VStr "http://someplace.com/data.csv")]])].
Proof. reflexivity. Qed.

Example test_package_basic_mappings :
  frictionless_to_ckan.package plain_slugify
    [("description", VStr "Country, regional and world GDP in current USD.");
     ("homepage", VStr "https://datopian.com")]
  = Ok [("notes", VStr "Country, regional and world GDP in current USD.");
        ("url", VStr "https://datopian.com")].
Proof. reflexivity. Qed.

Example package_collapses :
  frictionless_to_ckan.package plain_slugify
    [("licenses", VList [VDict [("type", VStr "odc-pddl"); ("title", VStr "T")];
                         VDict [("type", VStr "cc-zero")]]);
     ("sources", VList [VDict [("title", VStr "S"); ("path", VStr "http://s")]]);
     ("keywords", VList [VStr "Economy"])]
  = Ok [("license_id", VStr "odc-pddl"); ("license_title", VStr "T");
        ("extras",
         VList [VDict [("licenses",
                        VList [VDict [("type", VStr "odc-pddl");
                                      ("title", VStr "T")];
                               VDict [("type", VStr "cc-zero")]])]]);
        ("author", VStr "S"); ("url", VStr "http://s");
        ("tags", VList [VDict [("name", VStr "economy")]])].
Proof. reflexivity. Qed.

(** The store reading of [package] and the functional one return the
    same record, on records that go through every branch. *)
Example store_package_agrees :
  let run (P : dict) : result value :=
    match store.load (VDict P) [] with
    | Ok (input, h0) =>
        match store.package plain_slugify input h0 with
        | Ok (outdict, h1) => Ok (store.view h1 outdict)
        | Raise e => Raise e
        end
    | Raise e => Raise e
    end in
  let pure (P : dict) : result value :=
    match frictionless_to_ckan.package plain_slugify P with
    | Ok outdict => Ok (VDict outdict)
    | Raise e => Raise e
    end in
  let licenses :=
    VList [VDict [("type", VStr "a"); ("title", VStr "T")];
           VDict [("type", VStr "b")]] in
  let extras := VList [VDict [("key", VStr "k"); ("value", VStr "v")]] in
  let records : list dict :=
    [ [("name", VStr "gdp"); ("description", VStr "d"); ("homepage", VStr "h")];
      [("licenses", licenses)];
      [("extras", extras); ("licenses", licenses)];
      [("licenses", VList [VDict [("name", VStr "a")]])];
      [("sources", VList [VDict [("title", VStr "s"); ("email", VStr "e")];
                          VInt 1]); ("licenses", licenses)];
      [("contributors", VList [VDict [("title", VStr "A")]])];
      [("contributors",
        VList [VDict [("title", VStr "A"); ("role", VStr "author")]])];
      [("extras", extras);
       ("contributors",
        VList [VDict [("title", VStr "A"); ("role", VStr "author")]])];
      [("contributors",
        VList [VDict [("title", VStr "A")]; VDict [("title", VStr "B")]])];
      [("keywords", VList [VStr "Economy"; VStr "World Bank"])];
      [("keywords", VStr "ab")]; [("keywords", VInt 4)];
      [("extras", VStr "x"); ("licenses", licenses)];
      [("licenses", VStr "x")]; [("licenses", VDict [("type", VStr "a")])] ] in
  map run records = map pure records.
Proof. reflexivity. Qed.

(** ** The fuel of the decoder is enough

    The scanners recurse on a fuel that [loads_str] sets from the length
    of the text.  The results below show that the fuel is never what
    makes a text fail: every scanner consumes input, and with the fuel
    of [loads_str] or more the result does not depend on the fuel. *)

Section DecoderFuel.

Context {lim : limits}.

Lemma strip_prefix_length p : forall s r,
  strip_prefix p s = Some r -> String.length s = String.length p + String.length r.
Proof.
  induction p as [|a p IH]; intros s r H; simpl in H.
  - now injection H as <-.
  - destruct s as [|b s]; [discriminate|].
    destruct (Ascii.eqb a b); [|discriminate].
    simpl. now rewrite (IH _ _ H).
Qed.

Lemma skip_ws_length s : String.length (json.skip_ws s) <= String.length s.
Proof.
  induction s as [|c s IH]; simpl; [lia|].
  destruct (json.is_ws c); simpl; lia.
Qed.

Lemma span_digits_length s : forall a b,
  json.span_digits s = (a, b) -> String.length b <= String.length s.
Proof.
  induction s as [|c s IH]; intros a b H; simpl in H.
  - injection H as <- <-. simpl. lia.
  - destruct (json.is_digit c).
    + destruct (json.span_digits s) as [a' b'] eqn:E.
      injection H as <- <-. specialize (IH _ _ eq_refl). simpl. lia.
    + injection H as <- <-. simpl. lia.
Qed.

Lemma scan_number_shrinks s v r :
  json.scan_number s = Ok (v, r) -> String.length r < String.length s.
Proof.
  unfold json.scan_number.
  set (split_sign :=
         match s with
         | String "-" r0 => (true, r0)
         | _ => (false, s)
         end).
  assert (Hsign : String.length (snd split_sign) <= String.length s).
  { unfold split_sign. destruct s as [|c s]; simpl; [lia|].
    destruct c as [[] [] [] [] [] [] [] []]; simpl; lia. }
  destruct split_sign as [neg r0]. simpl in Hsign.
  destruct r0 as [|c r1]; [discriminate|].
  destruct (json.is_digit c) eqn:Hc; [|discriminate].
  set (int_part := if Ascii.eqb c "0" then ("0", r1)
                   else json.span_digits (String c r1)).
  assert (Hint : String.length (snd int_part) <= String.length r1).
  { unfold int_part. destruct (Ascii.eqb c "0"); simpl; [lia|].
    rewrite Hc. destruct (json.span_digits r1) as [a b] eqn:E.
    simpl. eapply span_digits_length; eassumption. }
  destruct int_part as [ipart r2]. simpl in Hint.
  set (frac_part :=
         match r2 with
         | String "." r' =>
             let '(ds, r'') := json.span_digits r' in
             if String.eqb ds "" then (EmptyString, r2)
             else (String "." ds, r'')
         | _ => (EmptyString, r2)
         end).
  assert (Hfrac : String.length (snd frac_part) <= String.length r2).
  { unfold frac_part. destruct r2 as [|d r']; simpl; [lia|].
    destruct d as [[] [] [] [] [] [] [] []]; simpl; try lia.
    destruct (json.span_digits r') as [ds r''] eqn:E.
    apply span_digits_length in E.
    destruct (String.eqb ds ""); simpl; lia. }
  destruct frac_part as [frac r3]. simpl in Hfrac.
  set (exp_part :=
         match r3 with
         | String e r' =>
             if Ascii.eqb e "e" || Ascii.eqb e "E" then
               let '(sign, r'') :=
                 match r' with
                 | String "+" x => ("+", x)
                 | String "-" x => ("-", x)
                 | _ => (EmptyString, r')
                 end in
               let '(ds, r''') := json.span_digits r'' in
               if String.eqb ds "" then (EmptyString, r3)
               else (String e (sign ++ ds), r''')
             else (EmptyString, r3)
         | EmptyString => (EmptyString, r3)
         end).
  assert (Hexp : String.length (snd exp_part) <= String.length r3).
  { unfold exp_part. destruct r3 as [|e r']; simpl; [lia|].
    destruct (Ascii.eqb e "e" || Ascii.eqb e "E"); simpl; [|lia].
    set (sign_part :=
           match r' with
           | String "+" x => ("+", x)
           | String "-" x => ("-", x)
           | _ => (EmptyString, r')
           end).
    assert (Hs : String.length (snd sign_part) <= String.length r').
    { unfold sign_part. destruct r' as [|d x]; simpl; [lia|].
      destruct d as [[] [] [] [] [] [] [] []]; simpl; lia. }
    destruct sign_part as [sign r'']. simpl in Hs.
    destruct (json.span_digits r'') as [ds r'''] eqn:E.
    apply span_digits_length in E.
    destruct (String.eqb ds ""); simpl; lia. }
  destruct exp_part as [ex r4]. simpl in Hexp.
  intros H.
  destruct (String.eqb frac "" && String.eqb ex "");
    [destruct (json.too_many_digits ipart); [discriminate|]|];
    injection H as <- <-; simpl in *; lia.
Qed.

Lemma scan_atom_shrinks s v r :
  json.scan_atom s = Ok (v, r) -> String.length r < String.length s.
Proof.
  unfold json.scan_atom. intros H.
  destruct (strip_prefix "null" s) eqn:E1;
    [injection H as <- <-; apply strip_prefix_length in E1;
     simpl in E1; lia|].
  destruct (strip_prefix "true" s) eqn:E2;
    [injection H as <- <-; apply strip_prefix_length in E2;
     simpl in E2; lia|].
  destruct (strip_prefix "false" s) eqn:E3;
    [injection H as <- <-; apply strip_prefix_length in E3;
     simpl in E3; lia|].
  destruct (strip_prefix "NaN" s) eqn:E4;
    [injection H as <- <-; apply strip_prefix_length in E4;
     simpl in E4; lia|].
  destruct (strip_prefix "Infinity" s) eqn:E5;
    [injection H as <- <-; apply strip_prefix_length in E5;
     simpl in E5; lia|].
  destruct (strip_prefix "-Infinity" s) eqn:E6;
    [injection H as <- <-; apply strip_prefix_length in E6;
     simpl in E6; lia|].
  exact (scan_number_shrinks _ _ _ H).
Qed.

Lemma prepend_some p x str r :
  json.prepend p x = Some (str, r) -> exists str', x = Some (str', r).
Proof.
  unfold json.prepend. destruct x as [[s' r']|]; [|discriminate].
  intros H. injection H as <- <-. eauto.
Qed.

Lemma hex4_length s n r :
  json.hex4 s = Some (n, r) -> String.length s = 4 + String.length r.
Proof.
  unfold json.hex4.
  destruct s as [|a [|b [|c [|d s]]]]; try discriminate.
  destruct (json.hex_val a), (json.hex_val b), (json.hex_val c),
    (json.hex_val d); try discriminate.
  intros H. injection H as <- <-. reflexivity.
Qed.

Lemma scan_string_shrinks fuel : forall s str r,
  json.scan_string fuel s = Some (str, r) -> String.length r < String.length s.
Proof.
  induction fuel as [|f IH]; intros s str r H; cbn [json.scan_string] in H;
    [discriminate|].
  destruct s as [|c s]; [discriminate|].
  destruct (Ascii.eqb c json.dquote).
  { injection H as <- <-. simpl. lia. }
  destruct (Ascii.eqb c json.backslash).
  - destruct s as [|e r1]; [discriminate|].
    destruct (Ascii.eqb e "u").
    + destruct (json.hex4 r1) as [[hi r2]|] eqn:E1; [|discriminate].
      apply hex4_length in E1.
      assert (Hsingle : forall str r,
                 json.prepend (json.utf8_encode hi) (json.scan_string f r2)
                 = Some (str, r) ->
                 String.length r < String.length (String c (String e r1))).
      { intros str0 r0 H0. apply prepend_some in H0. destruct H0 as [x H0].
        apply IH in H0. simpl. lia. }
      destruct (json.is_high_surrogate hi); [|now apply Hsingle in H].
      destruct (strip_prefix _ r2) as [r3|] eqn:E2; [|now apply Hsingle in H].
      apply strip_prefix_length in E2. simpl in E2.
      destruct (json.hex4 r3) as [[lo r4]|] eqn:E3; [|discriminate].
      apply hex4_length in E3.
      destruct (json.is_low_surrogate lo); [|now apply Hsingle in H].
      apply prepend_some in H. destruct H as [x H]. apply IH in H.
      simpl. lia.
    + destruct (json.simple_escape e); [|discriminate].
      apply prepend_some in H. destruct H as [x H]. apply IH in H.
      simpl in *. lia.
  - destruct (Nat.ltb (nat_of_ascii c) 32); [discriminate|].
    apply prepend_some in H. destruct H as [x H]. apply IH in H.
    simpl. lia.
Qed.

Lemma scan_string_fuel f : forall f' s,
  String.length s < f -> String.length s < f' ->
  json.scan_string f s = json.scan_string f' s.
Proof.
  induction f as [|f IH]; intros f' s Hf Hf'; [lia|].
  destruct f' as [|f']; [lia|]. cbn [json.scan_string].
  destruct s as [|c s]; [reflexivity|]. simpl in Hf, Hf'.
  destruct (Ascii.eqb c json.dquote); [reflexivity|].
  destruct (Ascii.eqb c json.backslash).
  - destruct s as [|e r1]; [reflexivity|]. simpl in Hf, Hf'.
    destruct (Ascii.eqb e "u").
    + destruct (json.hex4 r1) as [[hi r2]|] eqn:E1; [|reflexivity].
      apply hex4_length in E1.
      rewrite (IH f' r2) by lia.
      destruct (json.is_high_surrogate hi); [|reflexivity].
      destruct (strip_prefix _ r2) as [r3|] eqn:E2; [|reflexivity].
      apply strip_prefix_length in E2. simpl in E2.
      destruct (json.hex4 r3) as [[lo r4]|] eqn:E3; [|reflexivity].
      apply hex4_length in E3.
      now rewrite (IH f' r4) by lia.
    + destruct (json.simple_escape e); [|reflexivity].
      now rewrite (IH f' r1) by lia.
  - destruct (Nat.ltb (nat_of_ascii c) 32); [reflexivity|].
    now rewrite (IH f' s) by lia.
Qed.

Lemma scan_shrinks fuel :
  (forall depth s v r, json.scan_value fuel depth s = Ok (v, r) ->
                       String.length r < String.length s)
  /\ (forall depth acc s v r, json.scan_elems fuel depth acc s = Ok (v, r) ->
                              String.length r < String.length s)
  /\ (forall depth acc s v r, json.scan_members fuel depth acc s = Ok (v, r) ->
                              String.length r < String.length s).
Proof.
  induction fuel as [|f (IHv & IHe & IHm)];
    [repeat split; intros; discriminate|].
  repeat split.
  - intros depth s v r H. cbn [json.scan_value] in H.
    destruct s as [|c s]; [discriminate|].
    destruct (Ascii.eqb c json.dquote).
    { destruct (json.scan_string _ s) as [[str r']|] eqn:E; [|discriminate].
      injection H as <- <-. apply scan_string_shrinks in E. simpl. lia. }
    destruct (Ascii.eqb c "{").
    { destruct depth as [|d]; [discriminate|].
      pose proof (skip_ws_length s) as Hw.
      destruct (json.skip_ws s) as [|c' r']; [discriminate|].
      destruct (Ascii.eqb c' "}").
      - injection H as <- <-. simpl in *. lia.
      - apply IHm in H. simpl in *. lia. }
    destruct (Ascii.eqb c "[").
    { destruct depth as [|d]; [discriminate|].
      pose proof (skip_ws_length s) as Hw.
      destruct (json.skip_ws s) as [|c' r']; [discriminate|].
      destruct (Ascii.eqb c' "]").
      - injection H as <- <-. simpl in *. lia.
      - apply IHe in H. simpl in *. lia. }
    exact (scan_atom_shrinks _ _ _ H).
  - intros depth acc s v r H. cbn [json.scan_elems] in H.
    destruct (json.scan_value f depth s) as [[x r1]|] eqn:E; [|discriminate].
    apply IHv in E. pose proof (skip_ws_length r1) as Hw.
    destruct (json.skip_ws r1) as [|c r2]; [discriminate|].
    destruct (Ascii.eqb c ",").
    + apply IHe in H. pose proof (skip_ws_length r2). simpl in *. lia.
    + destruct (Ascii.eqb c "]"); [|discriminate].
      injection H as <- <-. simpl in *. lia.
  - intros depth acc s v r H. cbn [json.scan_members] in H.
    destruct s as [|c s]; [discriminate|].
    destruct (Ascii.eqb c json.dquote); [|discriminate].
    destruct (json.scan_string _ s) as [[k r1]|] eqn:E; [|discriminate].
    apply scan_string_shrinks in E. pose proof (skip_ws_length r1) as Hw1.
    destruct (json.skip_ws r1) as [|c1 r2]; [discriminate|].
    destruct (Ascii.eqb c1 ":"); [|discriminate].
    pose proof (skip_ws_length r2) as Hw2.
    destruct (json.scan_value f depth (json.skip_ws r2)) as [[x r3]|] eqn:Ev;
      [|discriminate].
    apply IHv in Ev. pose proof (skip_ws_length r3) as Hw3.
    destruct (json.skip_ws r3) as [|c3 r4]; [discriminate|].
    destruct (Ascii.eqb c3 ",").
    + apply IHm in H. pose proof (skip_ws_length r4). simpl in *. lia.
    + destruct (Ascii.eqb c3 "}"); [|discriminate].
      injection H as <- <-. simpl in *. lia.
Qed.

Lemma scan_fuel f :
  (forall f' depth s,
      2 * String.length s < f -> 2 * String.length s < f' ->
      json.scan_value f depth s = json.scan_value f' depth s)
  /\ (forall f' depth acc s,
         2 * String.length s + 1 < f -> 2 * String.length s + 1 < f' ->
         json.scan_elems f depth acc s = json.scan_elems f' depth acc s)
  /\ (forall f' depth acc s,
         2 * String.length s < f -> 2 * String.length s < f' ->
         json.scan_members f depth acc s = json.scan_members f' depth acc s).
Proof.
  induction f as [|f (IHv & IHe & IHm)]; [repeat split; intros; lia|].
  repeat split.
  - intros f' depth s Hf Hf'. destruct f' as [|f']; [lia|].
    cbn [json.scan_value].
    destruct s as [|c s]; [reflexivity|]. simpl String.length in Hf, Hf'.
    destruct (Ascii.eqb c json.dquote); [reflexivity|].
    pose proof (skip_ws_length s) as Hw.
    destruct (Ascii.eqb c "{").
    { destruct depth as [|d]; [reflexivity|].
      destruct (json.skip_ws s) as [|c' r']; [reflexivity|].
      destruct (Ascii.eqb c' "}"); [reflexivity|].
      apply IHm; simpl in *; lia. }
    destruct (Ascii.eqb c "["); [|reflexivity].
    destruct depth as [|d]; [reflexivity|].
    destruct (json.skip_ws s) as [|c' r']; [reflexivity|].
    destruct (Ascii.eqb c' "]"); [reflexivity|].
    apply IHe; simpl in *; lia.
  - intros f' depth acc s Hf Hf'. destruct f' as [|f']; [lia|].
    cbn [json.scan_elems].
    rewrite (IHv f' depth s) by lia.
    destruct (json.scan_value f' depth s) as [[x r1]|] eqn:E; [|reflexivity].
    apply (proj1 (scan_shrinks f')) in E.
    pose proof (skip_ws_length r1) as Hw.
    destruct (json.skip_ws r1) as [|c r2]; [reflexivity|].
    destruct (Ascii.eqb c ","); [|reflexivity].
    pose proof (skip_ws_length r2).
    apply IHe; simpl in *; lia.
  - intros f' depth acc s Hf Hf'. destruct f' as [|f']; [lia|].
    cbn [json.scan_members].
    destruct s as [|c s]; [reflexivity|]. simpl String.length in Hf, Hf'.
    destruct (Ascii.eqb c json.dquote); [|reflexivity].
    destruct (json.scan_string _ s) as [[k r1]|] eqn:E; [|reflexivity].
    apply scan_string_shrinks in E. pose proof (skip_ws_length r1) as Hw1.
    destruct (json.skip_ws r1) as [|c1 r2]; [reflexivity|].
    destruct (Ascii.eqb c1 ":"); [|reflexivity].
    pose proof (skip_ws_length r2) as Hw2.
    rewrite (IHv f' depth (json.skip_ws r2)) by (simpl in *; lia).
    destruct (json.scan_value f' depth (json.skip_ws r2)) as [[x r3]|] eqn:Ev;
      [|reflexivity].
    apply (proj1 (scan_shrinks f')) in Ev.
    pose proof (skip_ws_length r3) as Hw3.
    destruct (json.skip_ws r3) as [|c3 r4]; [reflexivity|].
    destruct (Ascii.eqb c3 ","); [|reflexivity].
    pose proof (skip_ws_length r4).
    apply IHm; simpl in *; lia.
Qed.

(** More fuel than [loads_str] gives changes nothing. *)
Lemma loads_str_fuel (s : string) fuel :
  2 * String.length s + 2 <= fuel ->
  json.scan_value fuel max_nesting (json.skip_ws s)
  = json.scan_value (2 * String.length s + 2) max_nesting (json.skip_ws s).
Proof.
  intros H. pose proof (skip_ws_length s).
  apply (proj1 (scan_fuel fuel)); lia.
Qed.

End DecoderFuel.

(** ** Lookup after the dictionary operations *)

Section DictFacts.

Context {V : Type}.
Implicit Types (d : list (string * V)) (k : string) (v : V).

Lemma dict_get_set_eq d k v : dict_get k (dict_set k v d) = Some v.
Proof.
  induction d as [|[k' v'] d IH]; simpl.
  - now rewrite String.eqb_refl.
  - destruct (String.eqb k k') eqn:E; simpl; rewrite E; auto.
Qed.

Lemma dict_get_set_ne d k k' v :
  k <> k' -> dict_get k (dict_set k' v d) = dict_get k d.
Proof.
  intros Hne. induction d as [|[k0 v0] d IH]; simpl.
  - apply String.eqb_neq in Hne. now rewrite Hne.
  - destruct (String.eqb k' k0) eqn:E; simpl.
    + apply String.eqb_eq in E. subst k0.
      apply String.eqb_neq in Hne. now rewrite Hne.
    + now rewrite IH.
Qed.

Lemma dict_get_set d k k' v :
  dict_get k (dict_set k' v d)
  = if String.eqb k k' then Some v else dict_get k d.
Proof.
  destruct (String.eqb k k') eqn:E.
  - apply String.eqb_eq in E. subst. apply dict_get_set_eq.
  - apply String.eqb_neq in E. now apply dict_get_set_ne.
Qed.

Lemma dict_get_del d k k' :
  dict_get k (dict_del k' d)
  = if String.eqb k k' then None else dict_get k d.
Proof.
  unfold dict_del. induction d as [|[k0 v0] d IH]; simpl.
  - now destruct (String.eqb k k').
  - destruct (String.eqb k' k0) eqn:E; simpl.
    + apply String.eqb_eq in E. subst k0. rewrite IH.
      destruct (String.eqb k k'); reflexivity.
    + rewrite IH. destruct (String.eqb k k0) eqn:E0.
      * apply String.eqb_eq in E0. subst k0.
        rewrite String.eqb_sym in E. now rewrite E.
      * reflexivity.
Qed.

Lemma dict_get_del_eq d k : dict_get k (dict_del k d) = None.
Proof. rewrite dict_get_del. now rewrite String.eqb_refl. Qed.

Lemma dict_get_del_ne d k k' :
  k <> k' -> dict_get k (dict_del k' d) = dict_get k d.
Proof.
  intros Hne. rewrite dict_get_del.
  apply String.eqb_neq in Hne. now rewrite Hne.
Qed.

Lemma dict_has_get d k :
  dict_has k d = match dict_get k d with Some _ => true | None => false end.
Proof. reflexivity. Qed.

Lemma dict_has_false d k : dict_has k d = false <-> dict_get k d = None.
Proof.
  unfold dict_has. destruct (dict_get k d); split; congruence.
Qed.

Lemma dict_get_In d k v : dict_get k d = Some v -> In k (map fst d).
Proof.
  induction d as [|[k' v'] d IH]; simpl; [discriminate|].
  destruct (String.eqb k k') eqn:E.
  - apply String.eqb_eq in E. auto.
  - auto.
Qed.

Lemma dict_get_map (f : V -> V) d k :
  dict_get k (map (fun kv => (fst kv, f (snd kv))) d)
  = option_map f (dict_get k d).
Proof.
  induction d as [|[k' v'] d IH]; simpl; [reflexivity|].
  destruct (String.eqb k k'); auto.
Qed.

End DictFacts.

Lemma dict_get_pop_keys keys (d : dict) k :
  dict_get k (pop_keys keys d)
  = if key_in k keys then None else dict_get k d.
Proof.
  unfold pop_keys, key_in. revert d.
  induction keys as [|a keys IH]; intros d; simpl; [reflexivity|].
  rewrite IH, dict_get_del.
  destruct (String.eqb k a); simpl; [|reflexivity].
  now destruct (existsb (String.eqb k) keys).
Qed.

Lemma drop_none_idem o : drop_none (drop_none o) = drop_none o.
Proof. destruct o as [[]|]; reflexivity. Qed.

Lemma drop_none_not_null o : drop_none o <> Some VNone.
Proof. destruct o as [[]|]; simpl; congruence. Qed.

Lemma dict_get_strip_loop keys (d : dict) k :
  dict_get k
    (fold_left
       (fun d key =>
          match dict_get key d with
          | Some VNone => dict_del key d
          | _ => d
          end) keys d)
  = if key_in k keys then drop_none (dict_get k d) else dict_get k d.
Proof.
  unfold key_in. revert d.
  induction keys as [|a keys IH]; intros d; simpl; [reflexivity|].
  rewrite IH. clear IH.
  assert (Hstep :
    dict_get k
      match dict_get a d with
      | Some VNone => dict_del a d
      | _ => d
      end
    = if String.eqb k a then drop_none (dict_get k d) else dict_get k d).
  { destruct (String.eqb k a) eqn:E.
    - apply String.eqb_eq in E. subst a.
      destruct (dict_get k d) as [[]|] eqn:G; simpl; rewrite ?G; auto.
      apply dict_get_del_eq.
    - destruct (dict_get a d) as [[]|]; auto.
      rewrite dict_get_del. now rewrite E. }
  rewrite Hstep.
  destruct (String.eqb k a); simpl.
  - rewrite drop_none_idem. now destruct (existsb (String.eqb k) keys).
  - reflexivity.
Qed.

Lemma key_in_true k keys : In k keys -> key_in k keys = true.
Proof.
  intros H. unfold key_in. apply existsb_exists.
  exists k. split; [assumption|apply String.eqb_refl].
Qed.

Lemma dict_get_strip_nulls (d : dict) k :
  dict_get k (strip_nulls d) = drop_none (dict_get k d).
Proof.
  unfold strip_nulls. rewrite dict_get_strip_loop.
  destruct (key_in k (map fst d)) eqn:E; [reflexivity|].
  destruct (dict_get k d) eqn:G; [|reflexivity].
  apply dict_get_In, key_in_true in G. congruence.
Qed.

(** ** The result monad *)

Lemma bind_ok {A B} (m : result A) (f : A -> result B) b :
  bind m f = Ok b -> exists a, m = Ok a /\ f a = Ok b.
Proof. destruct m; simpl; [eauto|discriminate]. Qed.

Tactic Notation "bind_inv" hyp(H) "as" ident(a) ident(Ha) :=
  apply bind_ok in H; destruct H as (a & Ha & H).

Tactic Notation "bind_inv" hyp(H) :=
  let a := fresh "x" in
  let Ha := fresh "Hx" in
  bind_inv H as a Ha.

Lemma dict_delitem_ok k (d d' : dict) :
  dict_delitem k d = Ok d' -> d' = dict_del k d.
Proof.
  unfold dict_delitem. destruct (dict_has k d); congruence.
Qed.

Ltac case_key k s :=
  destruct (String.eqb_spec k s);
  [subst k; cbn [String.eqb Ascii.eqb Bool.eqb]|].

Ltac key_not_in Hk :=
  unfold key_in in Hk; simpl in Hk;
  repeat match type of Hk with
         | (String.eqb ?k ?s || _) = false =>
             let n := fresh "n" in
             destruct (String.eqb_spec k s) as [|n];
             [discriminate|]; simpl in Hk
         end.


(** ** Null values in the outputs *)

Import ckan_to_frictionless.

Section NullValues.

Context {lim : limits}.

Lemma resource_strips (ckandict outdict : dict) :
  resource ckandict = Ok outdict -> exists d, outdict = strip_nulls d.
Proof.
  unfold resource. intros H. bind_inv H. injection H as <-. eauto.
Qed.

Lemma dataset_strips (ckandict outdict : dict) :
  dataset ckandict = Ok outdict -> exists d, outdict = strip_nulls d.
Proof.
  unfold dataset. intros H.
  bind_inv H. bind_inv H. bind_inv H. bind_inv H. bind_inv H.
  injection H as <-. eauto.
Qed.

(** C3, as amended: no key of the record returned by
    catalogResourceToPackage ([resource]) has a null value, and no key of
    a record returned by catalogDatasetToPackage ([dataset]) has one.
    packageToCatalog ([package]) has no such step and is not covered. *)
Theorem c2f_outputs_have_no_null :
  (forall (ckandict outdict : dict) k,
      resource ckandict = Ok outdict ->
      dict_get k outdict <> Some VNone)
  /\ (forall (ckandict outdict : dict) k,
         dataset ckandict = Ok outdict ->
         dict_get k outdict <> Some VNone).
Proof.
  split.
  - intros ckandict outdict k H.
    destruct (resource_strips _ _ H) as [d ->].
    rewrite dict_get_strip_nulls. apply drop_none_not_null.
  - intros ckandict outdict k H.
    destruct (dataset_strips _ _ H) as [d ->].
    rewrite dict_get_strip_nulls. apply drop_none_not_null.
Qed.

End NullValues.

(** The theorem at the record of [test_null_values_are_stripped]. *)
Lemma c2f_outputs_have_no_null_witness :
  dataset [("id", VStr "12312"); ("title", VStr "title here");
           ("format", VNone)]
  = Ok [("id", VStr "12312"); ("title", VStr "title here")]
  /\ dict_get "format" [("id", VStr "12312"); ("title", VStr "title here")]
     <> Some VNone.
Proof.
  split; [reflexivity|].
  apply (proj2 c2f_outputs_have_no_null
           [("id", VStr "12312"); ("title", VStr "title here");
            ("format", VNone)]).
  reflexivity.
Defined.

(** C3 as stated fails for packageToCatalog: a null field of the input
    is a null field of the output. *)
Lemma package_keeps_null :
  exists (fddict outdict : dict) k,
    (forall slugify, frictionless_to_ckan.package slugify fddict = Ok outdict)
    /\ dict_get k outdict = Some VNone.
Proof.
  exists [("title", VStr "t"); ("version", VNone)],
         [("title", VStr "t"); ("version", VNone)], "version".
  split; [intros slugify|]; reflexivity.
Qed.

(** ** What each step of [dataset] leaves alone *)

Section DatasetSteps.

Context {lim : limits}.

Lemma expand_loop_keeps extras : forall (outdict o : dict) k,
  expand_loop extras outdict = Ok o ->
  dict_has k outdict = true -> dict_has k o = true.
Proof.
  induction extras as [|extra rest IH]; simpl; intros outdict o k H Hk.
  - now injection H as <-.
  - bind_inv H as key Hkey. bind_inv H as val Hval.
    bind_inv H as val' Hval'. bind_inv H as o1 Ho1.
    apply (IH _ _ _ H).
    unfold dict_setitem in Ho1. destruct key; try discriminate.
    injection Ho1 as <-. unfold dict_has in *.
    rewrite dict_get_set. now destruct (String.eqb k s).
Qed.

(** The field [k] after the rename step of [dataset_mapping], from the
    top-level record [ckandict] and the record [o] of the step before. *)
Lemma map_keys_dataset_get (ckandict o o' : dict) k :
  map_keys dataset_mapping ckandict o = Ok o' ->
  dict_get k o'
  = if String.eqb k "notes" then
      if dict_has "notes" ckandict then None else dict_get k o
    else if String.eqb k "description" then
      if dict_has "notes" ckandict then dict_get "notes" ckandict
      else dict_get k o
    else if String.eqb k "url" then
      if dict_has "url" ckandict then None else dict_get k o
    else if String.eqb k "homepage" then
      if dict_has "url" ckandict then dict_get "url" ckandict
      else dict_get k o
    else dict_get k o.
Proof.
  unfold dataset_mapping. simpl. unfold dict_getitem, dict_has.
  intros H.
  destruct (dict_get "notes" ckandict) as [n|] eqn:Hn;
    destruct (dict_get "url" ckandict) as [u|] eqn:Hu; simpl in H;
    repeat (let o1 := fresh "o" in let Ho1 := fresh "Ho" in
            bind_inv H as o1 Ho1; apply dict_delitem_ok in Ho1; subst o1);
    injection H as <-;
    rewrite ?dict_get_del, ?dict_get_set, ?dict_get_del, ?dict_get_set;
    (case_key k "notes"; [reflexivity|]);
    (case_key k "description"; [reflexivity|]);
    (case_key k "url"; [reflexivity|]);
    (case_key k "homepage"; reflexivity).
Qed.

Lemma map_keys_dataset_frame (ckandict o o' : dict) k :
  map_keys dataset_mapping ckandict o = Ok o' ->
  key_in k ["notes"; "description"; "url"; "homepage"] = false ->
  dict_get k o' = dict_get k o.
Proof.
  intros H Hk. rewrite (map_keys_dataset_get _ _ _ k H).
  unfold key_in in Hk. simpl in Hk.
  destruct (String.eqb k "notes"); [discriminate|].
  destruct (String.eqb k "description"); [discriminate|].
  destruct (String.eqb k "url"); [discriminate|].
  destruct (String.eqb k "homepage"); [discriminate|reflexivity].
Qed.

Lemma convert_tags_frame (ckandict o o' : dict) k :
  convert_tags ckandict o = Ok o' ->
  key_in k ["tags"; "keywords"] = false ->
  dict_get k o' = dict_get k o.
Proof.
  unfold convert_tags, key_in. simpl. intros H Hk.
  destruct (dict_has "tags" ckandict).
  - bind_inv H. bind_inv H. bind_inv H.
    apply dict_delitem_ok in H. subst.
    rewrite dict_get_del, dict_get_set.
    destruct (String.eqb k "tags"); [discriminate|].
    destruct (String.eqb k "keywords"); [discriminate|reflexivity].
  - now injection H as <-.
Qed.

Lemma synth_contributors_frame (o : dict) k :
  k <> "contributors" ->
  dict_get k (synth_contributors o) = dict_get k o.
Proof.
  intros Hk. unfold synth_contributors.
  match goal with |- context [if ?c then _ else _] => destruct c end;
    [|reflexivity].
  now apply dict_get_set_ne.
Qed.

Lemma convert_resources_frame (o o' : dict) k :
  convert_resources o = Ok o' ->
  k <> "resources" ->
  dict_get k o' = dict_get k o.
Proof.
  unfold convert_resources. intros H Hk.
  destruct (dict_has "resources" o).
  - bind_inv H. bind_inv H. bind_inv H. injection H as <-.
    now apply dict_get_set_ne.
  - now injection H as <-.
Qed.

Lemma synth_license_frame (o : dict) k :
  key_in k ["licenses"; "license_id"; "license_title"; "license_url"] = false ->
  dict_get k (synth_license o) = dict_get k o.
Proof.
  intros Hk. unfold synth_license.
  rewrite dict_get_pop_keys. unfold key_in in *. simpl in *.
  destruct (String.eqb k "licenses") eqn:E0; [discriminate|].
  destruct (String.eqb k "license_id"); [discriminate|].
  destruct (String.eqb k "license_title"); [discriminate|].
  destruct (String.eqb k "license_url"); [discriminate|]. simpl.
  match goal with |- context [if ?c then _ else _] => destruct c end;
    [|reflexivity].
  rewrite dict_get_set. now rewrite E0.
Qed.

Lemma add_licenses_frame licenses_list : forall (o o' : dict) k,
  add_licenses licenses_list o = Ok o' ->
  k <> "licenses" ->
  dict_get k o' = dict_get k o.
Proof.
  induction licenses_list as [|license rest IH]; simpl; intros o o' k H Hk.
  - now injection H as <-.
  - bind_inv H. bind_inv H. bind_inv H. bind_inv H.
    bind_inv H as there Hthere. bind_inv H as o1 Ho1.
    rewrite (IH _ _ _ H Hk).
    destruct there.
    + now injection Ho1 as <-.
    + bind_inv Ho1. injection Ho1 as <-. now apply dict_get_set_ne.
Qed.

Lemma extras_licenses_frame (ckandict o o' : dict) k :
  extras_licenses ckandict o = Ok o' ->
  k <> "licenses" ->
  dict_get k o' = dict_get k o.
Proof.
  unfold extras_licenses. intros H Hk.
  destruct (truthy (dict_get_default "extras" ckandict)).
  - bind_inv H. bind_inv H. bind_inv H as found Hfound.
    destruct found as [licenses_list|].
    + bind_inv H. now apply (add_licenses_frame _ _ _ _ H).
    + now injection H as <-.
  - now injection H as <-.
Qed.

Lemma dataset_unfold (ckandict : dict) :
  dataset ckandict
  = (o1 <- expand_extras ckandict ckandict ;;
     o2 <- map_keys dataset_mapping ckandict o1 ;;
     o3 <- convert_tags ckandict o2 ;;
     dataset_tail ckandict
       (pop_keys ["author"; "author_email"; "maintainer"; "maintainer_email"]
          (synth_contributors o3))).
Proof. reflexivity. Qed.

Lemma dataset_tail_get (ckandict o outdict : dict) k :
  dataset_tail ckandict o = Ok outdict ->
  key_in k ["resources"; "licenses"; "license_id"; "license_title";
            "license_url"; "state"] = false ->
  dict_get k outdict = drop_none (dict_get k o).
Proof.
  unfold dataset_tail. intros H Hk.
  bind_inv H as o1 Ho1. bind_inv H as o2 Ho2. injection H as <-.
  unfold key_in in Hk. simpl in Hk.
  destruct (String.eqb_spec k "resources"); [discriminate|].
  destruct (String.eqb_spec k "licenses"); [discriminate|].
  destruct (String.eqb k "license_id") eqn:E1; [discriminate|].
  destruct (String.eqb k "license_title") eqn:E2; [discriminate|].
  destruct (String.eqb k "license_url") eqn:E3; [discriminate|].
  destruct (String.eqb k "state") eqn:E4; [discriminate|].
  rewrite dict_get_strip_nulls, dict_get_del, E4.
  rewrite (extras_licenses_frame _ _ _ k Ho2) by assumption.
  rewrite synth_license_frame.
  - now rewrite (convert_resources_frame _ _ k Ho1).
  - unfold key_in. simpl. rewrite E1, E2, E3.
    destruct (String.eqb_spec k "licenses"); [contradiction|reflexivity].
Qed.

(** A run of [dataset], cut after the tags step: the record there has
    the fields of the expanded record, but for the renamed keys and the
    tags. *)
Lemma dataset_head (ckandict fields outdict : dict) :
  expand_extras ckandict ckandict = Ok fields ->
  dataset ckandict = Ok outdict ->
  exists o2 o3,
    map_keys dataset_mapping ckandict fields = Ok o2
    /\ (forall k, key_in k ["tags"; "keywords"] = false ->
                  dict_get k o3 = dict_get k o2)
    /\ dataset_tail ckandict
         (pop_keys ["author"; "author_email"; "maintainer"; "maintainer_email"]
            (synth_contributors o3)) = Ok outdict.
Proof.
  intros Hf H. rewrite dataset_unfold, Hf in H. simpl in H.
  bind_inv H as o2 Ho2. bind_inv H as o3 Ho3.
  exists o2, o3. split; [assumption|]. split; [|assumption].
  intros k Hk. now apply (convert_tags_frame _ _ _ _ Ho3).
Qed.

Lemma synth_contributors_ext (o o' : dict) :
  (forall k, In k contributor_keys -> dict_get k o = dict_get k o') ->
  dict_get "contributors" (synth_contributors o)
  = dict_get "contributors" (synth_contributors o').
Proof.
  intros Hext.
  assert (Hc := Hext "contributors"). assert (Ha := Hext "author").
  assert (Hae := Hext "author_email"). assert (Hm := Hext "maintainer").
  assert (Hme := Hext "maintainer_email").
  unfold contributor_keys in *. simpl in *.
  unfold synth_contributors, contrib, dict_has, dict_get_default.
  rewrite Hc, Ha, Hae, Hm, Hme by tauto.
  match goal with |- context [if ?c then _ else _] => destruct c end.
  - now rewrite !dict_get_set_eq.
  - apply Hc. tauto.
Qed.

Lemma contrib_entry role email_key title (o : dict) :
  contrib role email_key title o
  = contributor_entry role title (dict_get email_key o).
Proof.
  unfold contrib, contributor_entry, dict_has, dict_get_default.
  destruct (dict_get email_key o); reflexivity.
Qed.

(** The contributors of the output are those the contributor step makes
    from the expanded record. *)
Lemma dataset_contributors (ckandict fields outdict : dict) :
  expand_extras ckandict ckandict = Ok fields ->
  dataset ckandict = Ok outdict ->
  dict_get "contributors" outdict
  = drop_none (dict_get "contributors" (synth_contributors fields)).
Proof.
  intros Hf H.
  destruct (dataset_head _ _ _ Hf H) as (o2 & o3 & Ho2 & Ho3 & Htail).
  rewrite (dataset_tail_get _ _ _ "contributors" Htail) by reflexivity.
  rewrite dict_get_pop_keys. simpl. f_equal.
  apply synth_contributors_ext.
  intros k Hk. rewrite Ho3.
  - apply (map_keys_dataset_frame _ _ _ _ Ho2).
    unfold contributor_keys in Hk. simpl in Hk.
    repeat (destruct Hk as [<-|Hk]; [reflexivity|]). contradiction.
  - unfold contributor_keys in Hk. simpl in Hk.
    repeat (destruct Hk as [<-|Hk]; [reflexivity|]). contradiction.
Qed.

Lemma dataset_after_rename (ckandict fields outdict : dict) :
  expand_extras ckandict ckandict = Ok fields ->
  dataset ckandict = Ok outdict ->
  exists o2,
    map_keys dataset_mapping ckandict fields = Ok o2
    /\ forall k, key_in k later_keys = false ->
                 dict_get k outdict = drop_none (dict_get k o2).
Proof.
  intros Hf H.
  destruct (dataset_head _ _ _ Hf H) as (o2 & o3 & Ho2 & Ho3 & Htail).
  exists o2. split; [assumption|]. intros k Hk.
  unfold key_in, later_keys in Hk. simpl in Hk.
  repeat match type of Hk with
         | (String.eqb k ?s || _) = false =>
             let E := fresh "E" in
             destruct (String.eqb k s) eqn:E; [discriminate|]; simpl in Hk
         end.
  rewrite (dataset_tail_get _ _ _ k Htail)
    by (unfold key_in; simpl; now rewrite E6, E7, E8, E9, E10, E11).
  rewrite dict_get_pop_keys. unfold key_in. simpl.
  rewrite E2, E3, E4, E5. simpl.
  rewrite synth_contributors_frame
    by (intros ->; discriminate).
  rewrite Ho3 by (unfold key_in; simpl; now rewrite E, E0).
  reflexivity.
Qed.

End DatasetSteps.


(** ** Contributors (C8, C9) *)

Section Contributors.

Context {lim : limits}.

(** C8: [dataset] on the record with author A and author_email a@x.com
    returns the record whose only field is contributors, holding the one
    entry with title A, role author and email a@x.com.  For every record
    whose contributors field (as [dataset] sees the fields, extras
    expanded) is absent or empty, and whose author and maintainer are
    both non-empty, the contributors of the output are the author entry
    followed by the maintainer entry.  Whatever the record, the keys
    author, author_email, maintainer and maintainer_email are absent from
    the output. *)
Theorem dataset_contributors_from_author_and_maintainer :
  dataset [("author", VStr "A"); ("author_email", VStr "a@x.com")]
  = Ok [("contributors",
         VList [VDict [("title", VStr "A"); ("role", VStr "author");
                       ("email", VStr "a@x.com")]])]
  /\ (forall (ckandict fields outdict : dict) author maintainer,
         expand_extras ckandict ckandict = Ok fields ->
         dataset ckandict = Ok outdict ->
         truthy (dict_get_default "contributors" fields) = false ->
         dict_get "author" fields = Some author ->
         truthy author = true ->
         dict_get "maintainer" fields = Some maintainer ->
         truthy maintainer = true ->
         dict_get "contributors" outdict
         = Some (VList
                   [contributor_entry "author" author
                      (dict_get "author_email" fields);
                    contributor_entry "maintainer" maintainer
                      (dict_get "maintainer_email" fields)]))
  /\ (forall (ckandict outdict : dict) k,
         dataset ckandict = Ok outdict ->
         In k ["author"; "author_email"; "maintainer"; "maintainer_email"] ->
         dict_get k outdict = None).
Proof.
  split; [reflexivity|]. split.
  - intros ckandict fields outdict author maintainer Hf H Hc Ha Hta Hm Htm.
    rewrite (dataset_contributors _ _ _ Hf H).
    unfold synth_contributors, dict_has.
    unfold dict_get_default in Hc |- *.
    rewrite Ha, Hm, Hta, Htm.
    replace (match dict_get "contributors" fields with
             | Some _ => true
             | None => false
             end
             && truthy match dict_get "contributors" fields with
                       | Some v => v
                       | None => VNone
                       end) with false
      by (destruct (dict_get "contributors" fields); simpl; congruence).
    simpl. rewrite dict_get_set_eq, !contrib_entry. reflexivity.
  - intros ckandict outdict k H Hk.
    rewrite dataset_unfold in H.
    bind_inv H as o1 Ho1. bind_inv H as o2 Ho2. bind_inv H as o3 Ho3.
    simpl in Hk.
    rewrite (dataset_tail_get _ _ _ k H)
      by (repeat (destruct Hk as [<-|Hk]; [reflexivity|]); contradiction).
    rewrite dict_get_pop_keys.
    repeat (destruct Hk as [<-|Hk]; [reflexivity|]). contradiction.
Qed.

(** C9: for every record whose contributors field is absent or empty,
    that has an author or a maintainer key, and whose author and
    maintainer are absent or empty (the fields as [dataset] sees them,
    extras expanded), the output holds the key contributors with the
    empty list. *)
Theorem dataset_empty_contributors :
  forall (ckandict fields outdict : dict),
    expand_extras ckandict ckandict = Ok fields ->
    dataset ckandict = Ok outdict ->
    truthy (dict_get_default "contributors" fields) = false ->
    dict_has "author" fields || dict_has "maintainer" fields = true ->
    truthy (dict_get_default "author" fields) = false ->
    truthy (dict_get_default "maintainer" fields) = false ->
    dict_get "contributors" outdict = Some (VList []).
Proof.
  intros ckandict fields outdict Hf H Hc Hany Ha Hm.
  rewrite (dataset_contributors _ _ _ Hf H).
  unfold synth_contributors.
  rewrite Hc, Hany, Ha, Hm, !andb_false_r. simpl.
  now rewrite dict_get_set_eq.
Qed.

End Contributors.

(** The theorem at the second record of
    [test_dataset_author_and_maintainer]. *)
Lemma dataset_contributors_from_author_and_maintainer_witness :
  let ckandict :=
    [("author", VStr "World Bank and OECD");
     ("author_email", VStr "someone@worldbank.org");
     ("maintainer", VStr "Datopian");
     ("maintainer_email", VStr "helloxxx@datopian.com")] in
  let outdict :=
    [("contributors",
      VList [VDict [("title", VStr "World Bank and OECD");
                    ("role", VStr "author");
                    ("email", VStr "someone@worldbank.org")];
             VDict [("title", VStr "Datopian");
                    ("role", VStr "maintainer");
                    ("email", VStr "helloxxx@datopian.com")]])] in
  dataset ckandict = Ok outdict
  /\ dict_get "contributors" outdict
     = Some (VList
               [contributor_entry "author" (VStr "World Bank and OECD")
                  (dict_get "author_email" ckandict);
                contributor_entry "maintainer" (VStr "Datopian")
                  (dict_get "maintainer_email" ckandict)])
  /\ dict_get "maintainer" outdict = None.
Proof.
  intros ckandict outdict.
  pose proof dataset_contributors_from_author_and_maintainer as (_ & Hb & Hc).
  split; [reflexivity|]. split.
  - apply (Hb ckandict ckandict outdict); reflexivity.
  - apply (Hc ckandict outdict); [reflexivity|simpl; tauto].
Defined.

(** The theorem at the record whose only field is an empty author. *)
Lemma dataset_empty_contributors_witness :
  dataset [("author", VStr "")] = Ok [("contributors", VList [])]
  /\ dict_get "contributors" [("contributors", VList [])] = Some (VList []).
Proof.
  split; [reflexivity|].
  apply (dataset_empty_contributors
           [("author", VStr "")] [("author", VStr "")]); reflexivity.
Defined.

(** ** The rename table of [dataset] (C10) *)

Section RenameTable.

Context {lim : limits}.

(** C10: for each pair of the rename table (notes to description, url to
    homepage): when the old key is a top-level key of the input, the
    output has no field under the old key and the new key holds the
    top-level value, whatever the extras held for either key; when it is
    not, the old and the new key hold what the expansion of the extras
    left under them.  In both cases a null value is dropped by the last
    step, which is what [drop_none] says. *)
Theorem dataset_rename_reads_top_level :
  forall (ckandict fields outdict : dict) old_key new_key,
    In (old_key, new_key) dataset_mapping ->
    expand_extras ckandict ckandict = Ok fields ->
    dataset ckandict = Ok outdict ->
    (dict_has old_key ckandict = true ->
       dict_get old_key outdict = None
       /\ dict_get new_key outdict = drop_none (dict_get old_key ckandict))
    /\ (dict_has old_key ckandict = false ->
          dict_get old_key outdict = drop_none (dict_get old_key fields)
          /\ dict_get new_key outdict = drop_none (dict_get new_key fields)).
Proof.
  intros ckandict fields outdict old_key new_key Hin Hf H.
  destruct (dataset_after_rename _ _ _ Hf H) as (o2 & Ho2 & Hget).
  unfold dataset_mapping in Hin. simpl in Hin.
  destruct Hin as [E|[E|[]]]; injection E as <- <-;
    (split; intros Hk;
     (split;
      [rewrite Hget by reflexivity
      |rewrite Hget by reflexivity]);
     rewrite (map_keys_dataset_get _ _ _ _ Ho2); simpl;
     rewrite Hk; reflexivity).
Qed.

End RenameTable.

(** The theorem at a record with a top-level notes field and extras
    that hold a notes and a url entry: notes is renamed with its
    top-level value, url is not renamed. *)
Lemma dataset_rename_reads_top_level_witness :
  let ckandict :=
    [("notes", VStr "top");
     ("extras",
      VList [VDict [("key", VStr "notes"); ("value", VStr "from extras")];
             VDict [("key", VStr "url"); ("value", VStr "http://e")]])] in
  let fields :=
    [("notes", VStr "from extras"); ("url", VStr "http://e")] in
  let outdict :=
    [("url", VStr "http://e"); ("description", VStr "top")] in
  dataset ckandict = Ok outdict
  /\ (dict_get "notes" outdict = None
      /\ dict_get "description" outdict
         = drop_none (dict_get "notes" ckandict))
  /\ (dict_get "url" outdict = drop_none (dict_get "url" fields)
      /\ dict_get "homepage" outdict = drop_none (dict_get "homepage" fields)).
Proof.
  intros ckandict fields outdict.
  split; [reflexivity|]. split.
  - apply (proj1 (dataset_rename_reads_top_level
                    ckandict fields outdict "notes" "description"
                    (or_introl eq_refl) eq_refl eq_refl)).
    reflexivity.
  - apply (proj2 (dataset_rename_reads_top_level
                    ckandict fields outdict "url" "homepage"
                    (or_intror (or_introl eq_refl)) eq_refl eq_refl)).
    reflexivity.
Defined.

(** ** Unjsonified values of a resource (C7) *)

Section Unjsonify.

Context {lim : limits}.

Lemma scan_members_dict fuel : forall depth acc s v r,
  json.scan_members fuel depth acc s = Ok (v, r) -> exists d, v = VDict d.
Proof.
  induction fuel as [|f IH]; intros depth acc s v r H;
    cbn [json.scan_members] in H; [discriminate|].
  destruct s as [|c s]; [discriminate|].
  destruct (Ascii.eqb c json.dquote); [|discriminate].
  destruct (json.scan_string _ s) as [[k r1]|]; [|discriminate].
  destruct (json.skip_ws r1) as [|c1 r2]; [discriminate|].
  destruct (Ascii.eqb c1 ":"); [|discriminate].
  destruct (json.scan_value f depth (json.skip_ws r2)) as [[x r3]|];
    [|discriminate].
  destruct (json.skip_ws r3) as [|c3 r4]; [discriminate|].
  destruct (Ascii.eqb c3 ","); [eauto|].
  destruct (Ascii.eqb c3 "}"); [|discriminate].
  injection H as <- <-. eauto.
Qed.

Lemma scan_elems_list fuel : forall depth acc s v r,
  json.scan_elems fuel depth acc s = Ok (v, r) -> exists l, v = VList l.
Proof.
  induction fuel as [|f IH]; intros depth acc s v r H;
    cbn [json.scan_elems] in H; [discriminate|].
  destruct (json.scan_value f depth s) as [[x r1]|]; [|discriminate].
  destruct (json.skip_ws r1) as [|c r2]; [discriminate|].
  destruct (Ascii.eqb c ","); [eauto|].
  destruct (Ascii.eqb c "]"); [|discriminate].
  injection H as <- <-. eauto.
Qed.

Lemma startswith_head (p : ascii) (t : string) :
  startswith (String p EmptyString) t = true ->
  exists r, t = String p r.
Proof.
  unfold startswith. destruct t as [|c r]; simpl; [discriminate|].
  destruct (Ascii.eqb_spec p c); [subst; eauto|discriminate].
Qed.

(** A text that starts with a brace or a bracket decodes to a
    dictionary or a list, if it decodes. *)
Lemma loads_str_container (t : string) v :
  startswith "{" t || startswith "[" t = true ->
  json.loads_str t = Ok v ->
  (exists d, v = VDict d) \/ (exists l, v = VList l).
Proof.
  intros Hp H. unfold json.loads_str in H.
  replace (2 * String.length t + 2) with (S (2 * String.length t + 1)) in H
    by lia.
  apply orb_true_iff in Hp.
  destruct Hp as [Hp|Hp]; apply startswith_head in Hp; destruct Hp as [r ->];
    [change (json.skip_ws (String "{" r)) with (String "{" r) in H
    |change (json.skip_ws (String "[" r)) with (String "[" r) in H];
    remember (2 * String.length (String _ r) + 1) as fuel eqn:Efuel;
    clear Efuel; cbn [json.scan_value] in H;
    [change (Ascii.eqb "{" json.dquote) with false in H;
     change (Ascii.eqb "{" "{") with true in H
    |change (Ascii.eqb "[" json.dquote) with false in H;
     change (Ascii.eqb "[" "{") with false in H;
     change (Ascii.eqb "[" "[") with true in H];
    cbv iota in H;
    (destruct max_nesting as [|depth]; [discriminate|]);
    (destruct (json.skip_ws r) as [|c r']; [discriminate|]).
  - left. destruct (Ascii.eqb c "}").
    + destruct (String.eqb (json.skip_ws r') ""); [|discriminate].
      injection H as <-. eauto.
    + destruct (json.scan_members _ _ _ _) as [[x r1]|] eqn:Em; [|discriminate].
      destruct (String.eqb (json.skip_ws r1) ""); [|discriminate].
      injection H as <-. eapply scan_members_dict; eassumption.
  - right. destruct (Ascii.eqb c "]").
    + destruct (String.eqb (json.skip_ws r') ""); [|discriminate].
      injection H as <-. eauto.
    + destruct (json.scan_elems _ _ _ _) as [[x r1]|] eqn:Em; [|discriminate].
      destruct (String.eqb (json.skip_ws r1) ""); [|discriminate].
      injection H as <-. eapply scan_elems_list; eassumption.
Qed.

(** The decoder raises one of three exceptions on a [str]. *)
Lemma loads_str_raises (s : string) e :
  json.loads_str s = Raise e ->
  e = JSONDecodeError \/ e = RecursionError \/ e = ValueError.
Proof.
  assert (Hnum : forall t r,
             json.scan_number t = Raise r ->
             r = JSONDecodeError \/ r = ValueError).
  { intros t r. unfold json.scan_number.
    repeat match goal with
           | |- context [let '(_, _) := ?x in _] => destruct x
           | |- context [match ?x with _ => _ end] => destruct x
           | |- context [if ?x then _ else _] => destruct x
           end;
      intros H; try discriminate; injection H as <-; auto. }
  assert (Hatom : forall t r,
             json.scan_atom t = Raise r ->
             r = JSONDecodeError \/ r = ValueError).
  { intros t r. unfold json.scan_atom.
    repeat match goal with
           | |- context [match strip_prefix ?p t with _ => _ end] =>
               destruct (strip_prefix p t)
           end; try discriminate. apply Hnum. }
  assert (Hscan : forall fuel,
    (forall depth t r, json.scan_value fuel depth t = Raise r ->
        r = JSONDecodeError \/ r = RecursionError \/ r = ValueError)
    /\ (forall depth acc t r, json.scan_elems fuel depth acc t = Raise r ->
           r = JSONDecodeError \/ r = RecursionError \/ r = ValueError)
    /\ (forall depth acc t r, json.scan_members fuel depth acc t = Raise r ->
           r = JSONDecodeError \/ r = RecursionError \/ r = ValueError)).
  { induction fuel as [|f (IHv & IHe & IHm)].
    { repeat split; intros; cbn in *; injection H as <-; auto. }
    repeat split.
    - intros depth t r H. cbn [json.scan_value] in H.
      destruct t as [|c t]; [injection H as <-; auto|].
      destruct (Ascii.eqb c json.dquote).
      { destruct (json.scan_string _ t) as [[str r']|]; [discriminate|].
        injection H as <-; auto. }
      destruct (Ascii.eqb c "{").
      { destruct depth as [|d]; [injection H as <-; auto|].
        destruct (json.skip_ws t) as [|c' r']; [injection H as <-; auto|].
        destruct (Ascii.eqb c' "}"); [discriminate|]. eauto. }
      destruct (Ascii.eqb c "[").
      { destruct depth as [|d]; [injection H as <-; auto|].
        destruct (json.skip_ws t) as [|c' r']; [injection H as <-; auto|].
        destruct (Ascii.eqb c' "]"); [discriminate|]. eauto. }
      destruct (Hatom _ _ H); auto.
    - intros depth acc t r H. cbn [json.scan_elems] in H.
      destruct (json.scan_value f depth t) as [[x r1]|e1] eqn:E;
        [|injection H as <-; eauto].
      destruct (json.skip_ws r1) as [|c r2]; [injection H as <-; auto|].
      destruct (Ascii.eqb c ","); [eauto|].
      destruct (Ascii.eqb c "]"); [discriminate|]. injection H as <-; auto.
    - intros depth acc t r H. cbn [json.scan_members] in H.
      destruct t as [|c t]; [injection H as <-; auto|].
      destruct (Ascii.eqb c json.dquote); [|injection H as <-; auto].
      destruct (json.scan_string _ t) as [[k r1]|];
        [|injection H as <-; auto].
      destruct (json.skip_ws r1) as [|c1 r2]; [injection H as <-; auto|].
      destruct (Ascii.eqb c1 ":"); [|injection H as <-; auto].
      destruct (json.scan_value f depth (json.skip_ws r2)) as [[x r3]|e1] eqn:E;
        [|injection H as <-; eauto].
      destruct (json.skip_ws r3) as [|c3 r4]; [injection H as <-; auto|].
      destruct (Ascii.eqb c3 ","); [eauto|].
      destruct (Ascii.eqb c3 "}"); [discriminate|]. injection H as <-; auto. }
  unfold json.loads_str.
  destruct (json.scan_value _ _ _) as [[v r]|e1] eqn:E.
  - destruct (String.eqb (json.skip_ws r) ""); [discriminate|].
    intros H. injection H as <-. auto.
  - intros H. injection H as <-. exact (proj1 (Hscan _) _ _ _ E).
Qed.

Lemma dict_get_remove_keys keys (d : dict) k :
  dict_get k (remove_keys keys d)
  = if key_in k keys then None else dict_get k d.
Proof.
  unfold remove_keys, key_in. revert d.
  induction keys as [|a keys IH]; intros d; simpl; [reflexivity|].
  rewrite IH. clear IH.
  assert (Hstep :
    dict_get k (if dict_has a d then dict_del a d else d)
    = if String.eqb k a then None else dict_get k d).
  { unfold dict_has. destruct (dict_get a d) eqn:G.
    - apply dict_get_del.
    - destruct (String.eqb_spec k a); congruence. }
  rewrite Hstep.
  destruct (String.eqb k a); simpl; [|reflexivity].
  now destruct (existsb (String.eqb k) keys).
Qed.

Lemma dict_get_rename_key src dst (d : dict) k :
  dict_get k (rename_key src dst d)
  = if String.eqb k src then None
    else if String.eqb k dst then
      match dict_get src d with
      | Some v => Some v
      | None => dict_get dst d
      end
    else dict_get k d.
Proof.
  unfold rename_key, dict_has, dict_get_default.
  destruct (dict_get src d) as [v|] eqn:G.
  - now rewrite dict_get_del, dict_get_set.
  - destruct (String.eqb_spec k src); [congruence|].
    destruct (String.eqb_spec k dst); congruence.
Qed.

(** *** When the unjsonify loop goes through, and what it leaves *)

Lemma try_except_ok {A} (m : result A) (h : exn -> bool) (fallback a : A) :
  try_except m h fallback = Ok a -> a = try_or m fallback.
Proof.
  unfold try_except, try_or. destruct m as [x|e]; [congruence|].
  destruct (h e); congruence.
Qed.

Lemma unjsonify_ok v v' : unjsonify v = Ok v' -> v' = unjsonified v.
Proof.
  unfold unjsonify, unjsonified, parsed_or_original.
  destruct v; try (intros H; now injection H as <-).
  destruct (startswith "{" (py_strip s) || startswith "[" (py_strip s));
    [|intros H; now injection H as <-].
  intros H. apply try_except_ok in H. exact H.
Qed.

(** The step raises on a string exactly when the decoder stops on it
    with an exception that the [except] clause does not name. *)
Lemma unjsonify_str (s : string) :
  startswith "{" (py_strip s) || startswith "[" (py_strip s) = true ->
  unjsonify (VStr s)
  = match json.loads_str (py_strip s) with
    | Ok parsed => Ok parsed
    | Raise e => if handled e then Ok (VStr s) else Raise e
    end.
Proof. unfold unjsonify. now intros ->. Qed.

Lemma decodable_handled (s : string) e :
  decodable s -> json.loads_str (py_strip s) = Raise e -> handled e = true.
Proof. intros Hd H. now rewrite (Hd e H). Qed.

Lemma unjsonify_returns v :
  (forall s, v = VStr s -> decodable s) -> exists v', unjsonify v = Ok v'.
Proof.
  intros Hd. destruct v; try (eexists; reflexivity).
  unfold unjsonify.
  destruct (startswith "{" (py_strip s) || startswith "[" (py_strip s));
    [|eauto].
  cbn [json.loads].
  destruct (json.loads_str (py_strip s)) as [parsed|e] eqn:E;
    cbn [try_except]; [eauto|].
  rewrite (decodable_handled s e (Hd s eq_refl) E). eauto.
Qed.

Lemma unjsonify_values_ok (d d' : dict) :
  unjsonify_values d = Ok d' ->
  d' = map (fun kv => (fst kv, unjsonified (snd kv))) d.
Proof.
  unfold unjsonify_values. revert d'.
  induction d as [|[k v] d IH]; intros d' H; cbn [map_result] in H.
  - now injection H as <-.
  - bind_inv H as kv Hkv. bind_inv H as rest Hrest. injection H as <-.
    bind_inv Hkv as v' Hv. injection Hkv as <-.
    cbn [map fst snd]. now rewrite (IH _ Hrest), (unjsonify_ok _ _ Hv).
Qed.

Lemma unjsonify_values_returns (d : dict) :
  (forall k s, In (k, VStr s) d -> decodable s) ->
  exists d', unjsonify_values d = Ok d'.
Proof.
  unfold unjsonify_values.
  induction d as [|[k v] d IH]; intros Hd; cbn [map_result]; [eauto|].
  destruct (unjsonify_returns v) as [v' Hv].
  { intros s ->. apply (Hd k). now left. }
  destruct IH as [d' Hd'].
  { intros k' s Hin. apply (Hd k'). now right. }
  cbn [fst snd]. rewrite Hv. cbn [bind]. rewrite Hd'. cbn [bind]. eauto.
Qed.

Lemma unjsonify_values_raises (d : dict) k v e :
  In (k, v) d -> unjsonify v = Raise e ->
  exists e', unjsonify_values d = Raise e'.
Proof.
  unfold unjsonify_values.
  induction d as [|[k0 v0] d IH]; intros Hin Hv; [contradiction|].
  cbn [map_result fst snd].
  destruct (unjsonify v0) as [v0'|e0] eqn:E0; [|cbn [bind]; eauto].
  cbn [bind].
  destruct Hin as [Heq|Hin].
  - injection Heq as -> ->. congruence.
  - destruct (IH Hin Hv) as [e' ->]. cbn [bind]. eauto.
Qed.

(** The record [resource] returns, when it returns. *)
Lemma resource_ok (ckandict outdict : dict) :
  resource ckandict = Ok outdict ->
  outdict
  = strip_nulls
      (remap resource_mapping
         (map (fun kv => (fst kv, unjsonified (snd kv)))
            (remove_keys resource_keys_to_remove ckandict))).
Proof.
  unfold resource. intros H. bind_inv H as d Hd. injection H as <-.
  now rewrite (unjsonify_values_ok _ _ Hd).
Qed.

Lemma In_remove_keys keys : forall (d : dict) kv,
  In kv (remove_keys keys d) -> In kv d.
Proof.
  unfold remove_keys.
  induction keys as [|a keys IH]; intros d kv H; [exact H|].
  cbn [fold_left] in H. apply IH in H.
  destruct (dict_has a d); [|exact H].
  unfold dict_del in H. now apply filter_In in H.
Qed.

Lemma dict_get_In_pair {V} (d : list (string * V)) k v :
  dict_get k d = Some v -> In (k, v) d.
Proof.
  induction d as [|[k' v'] d IH]; simpl; [discriminate|].
  destruct (String.eqb_spec k k').
  - intros H. injection H as <-. subst. now left.
  - intros H. right. now apply IH.
Qed.

(** [resource] returns on the records whose strings the decoder takes or
    rejects. *)
Lemma resource_returns (ckandict : dict) :
  (forall k s, In (k, VStr s) ckandict -> decodable s) ->
  exists outdict, resource ckandict = Ok outdict.
Proof.
  intros Hd. unfold resource.
  destruct (unjsonify_values_returns
              (remove_keys resource_keys_to_remove ckandict)) as [d' ->].
  { intros k s Hin. apply (Hd k). now apply In_remove_keys in Hin. }
  cbn [bind]. eauto.
Qed.

Lemma resource_raises (ckandict : dict) k v e :
  dict_get k ckandict = Some v ->
  key_in k resource_keys_to_remove = false ->
  unjsonify v = Raise e ->
  exists e', resource ckandict = Raise e'.
Proof.
  intros Hget Hkeep Hv. unfold resource.
  destruct (unjsonify_values_raises
              (remove_keys resource_keys_to_remove ckandict) k v e)
    as [e' ->]; [|assumption|cbn [bind]; eauto].
  apply dict_get_In_pair. now rewrite dict_get_remove_keys, Hkeep.
Qed.

(** C7, as amended: for every resource record and every key that
    survives the removal step and whose value is a string that, once
    stripped, begins with a brace or a bracket, provided no other field
    of the input is renamed onto that key.  When [resource] returns, the
    output holds, under the Package name of the key (bytes for size,
    mediatype for mimetype, path for url, the key itself otherwise), the
    decoded structure when the stripped string is valid JSON, and the
    original string, not the stripped one, when the decoder rejected it
    with JSONDecodeError.  [resource] returns when the decoder takes or
    rejects every string of the record; it raises when the decoder stops
    on the string with an exception other than JSONDecodeError
    (RecursionError on nesting past the interpreter's limit, ValueError
    on an integer past its limit of digits), which the [except] clause
    does not name. *)
Theorem resource_unjsonifies :
  forall (ckandict : dict) key s,
    dict_get key ckandict = Some (VStr s) ->
    key_in key resource_keys_to_remove = false ->
    startswith "{" (py_strip s) || startswith "[" (py_strip s) = true ->
    (forall old_key,
        In (old_key, key) resource_mapping ->
        dict_get old_key ckandict = None) ->
    (forall outdict,
        resource ckandict = Ok outdict ->
        decodable s
        /\ dict_get (renamed resource_mapping key) outdict
           = Some (parsed_or_original s))
    /\ ((forall k s', In (k, VStr s') ckandict -> decodable s') ->
        exists outdict, resource ckandict = Ok outdict)
    /\ (forall e,
           json.loads_str (py_strip s) = Raise e -> e <> JSONDecodeError ->
           exists e', resource ckandict = Raise e').
Proof.
  intros ckandict key s Hget Hkeep Hlooks Hfree.
  assert (Hraise : forall e,
             json.loads_str (py_strip s) = Raise e -> e <> JSONDecodeError ->
             exists e', resource ckandict = Raise e').
  { intros e He Hne.
    apply (resource_raises ckandict key (VStr s) e Hget Hkeep).
    rewrite (unjsonify_str s Hlooks), He.
    destruct (loads_str_raises _ _ He) as [->|[->| ->]];
      [contradiction|reflexivity|reflexivity]. }
  split; [|split; [apply resource_returns|exact Hraise]].
  intros outdict Hres.
  assert (Hdec : decodable s).
  { intros e He.
    destruct e; try reflexivity;
      (destruct (Hraise _ He) as [e' He']; [discriminate|congruence]). }
  split; [exact Hdec|].
  rewrite (resource_ok _ _ Hres).
  assert (Hun : unjsonified (VStr s) = parsed_or_original s).
  { unfold unjsonified. now rewrite Hlooks. }
  assert (Hnn : drop_none (Some (parsed_or_original s))
                = Some (parsed_or_original s)).
  { unfold parsed_or_original.
    destruct (json.loads_str (py_strip s)) as [v|e] eqn:E; [|reflexivity].
    destruct (loads_str_container _ _ Hlooks E) as [[d ->]|[l ->]];
      reflexivity. }
  assert (Hmid : forall k,
    dict_get k (map (fun kv => (fst kv, unjsonified (snd kv)))
                  (remove_keys resource_keys_to_remove ckandict))
    = if key_in k resource_keys_to_remove then None
      else option_map unjsonified (dict_get k ckandict)).
  { intros k.
    rewrite dict_get_map, dict_get_remove_keys.
    now destruct (key_in k resource_keys_to_remove). }
  rewrite dict_get_strip_nulls.
  unfold remap, resource_mapping. cbn [fold_left fst snd].
  rewrite !dict_get_rename_key, !Hmid.
  change (key_in "size" resource_keys_to_remove) with false.
  change (key_in "mimetype" resource_keys_to_remove) with false.
  change (key_in "url" resource_keys_to_remove) with false.
  cbv iota.
  assert (Hsize := Hfree "size"). assert (Hmime := Hfree "mimetype").
  assert (Hurl := Hfree "url").
  unfold resource_mapping in Hsize, Hmime, Hurl.
  unfold renamed, resource_mapping. cbn [dict_get].
  case_key key "size".
  { rewrite Hget. cbn [option_map]. now rewrite Hun. }
  case_key key "mimetype".
  { rewrite Hget. cbn [option_map]. now rewrite Hun. }
  case_key key "url".
  { rewrite Hget. cbn [option_map]. now rewrite Hun. }
  case_key key "bytes".
  { rewrite Hsize by (simpl; tauto).
    rewrite Hkeep, Hget. cbn [option_map]. now rewrite Hun. }
  case_key key "mediatype".
  { rewrite Hmime by (simpl; tauto).
    rewrite Hkeep, Hget. cbn [option_map]. now rewrite Hun. }
  case_key key "path".
  { rewrite Hurl by (simpl; tauto).
    rewrite Hkeep, Hget. cbn [option_map]. now rewrite Hun. }
  rewrite Hkeep, Hget. cbn [option_map].
  repeat match goal with
         | Hne : key <> _ |- _ =>
             apply String.eqb_neq in Hne; rewrite ?Hne; clear Hne
         end.
  now rewrite Hun.
Qed.

End Unjsonify.

(** The theorem at the record of [test_values_are_unjsonified]: the
    schema field holds valid JSON and is decoded, the field x only looks
    like JSON and is returned as it was. *)
Lemma resource_unjsonifies_witness :
  let text := q "{'fields': [{'name': 'abc', 'type': 'string'}]}" in
  let ckandict := [("schema", VStr text); ("x", VStr "{'abc': 1")] in
  exists outdict,
    resource ckandict = Ok outdict
    /\ dict_get "schema" outdict
       = Some (VDict [("fields",
                       VList [VDict [("name", VStr "abc");
                                     ("type", VStr "string")]])])
    /\ dict_get "x" outdict = Some (VStr "{'abc': 1").
Proof.
  intros text ckandict.
  destruct (resource ckandict) as [outdict|] eqn:H; [|discriminate H].
  exists outdict. split; [reflexivity|]. split.
  - refine (proj2 (proj1 (resource_unjsonifies ckandict "schema" text
                            eq_refl eq_refl eq_refl _) outdict H)).
    intros old_key Hin. simpl in Hin.
    repeat (destruct Hin as [Hin|Hin]; [discriminate|]). contradiction.
  - refine (proj2 (proj1 (resource_unjsonifies ckandict "x" "{'abc': 1"
                            eq_refl eq_refl eq_refl _) outdict H)).
    intros old_key Hin. simpl in Hin.
    repeat (destruct Hin as [Hin|Hin]; [discriminate|]). contradiction.
Defined.

(** C7 as stated fails where a rename lands on the key: with a size
    field in the record, the field bytes of the output is the size, and
    neither the structure decoded from the bytes string (first record)
    nor the original bytes string (second record) is in the output. *)
Lemma resource_rename_overwrites :
  resource [("bytes", VStr "[2]"); ("size", VInt 1)] = Ok [("bytes", VInt 1)]
  /\ parsed_or_original "[2]" = VList [VInt 2]
  /\ resource [("bytes", VStr "[2"); ("size", VInt 1)] = Ok [("bytes", VInt 1)]
  /\ parsed_or_original "[2" = VStr "[2".
Proof. repeat split; reflexivity. Qed.

(** It also fails on valid JSON that the decoder does not take: on an
    integer of 4301 digits and on arrays nested 1001 deep, with the
    limits of the interpreter's defaults, [resource] raises. *)
Example resource_raises_on_limits :
  resource [("x", VStr ("[" ++ str_repeat 4301 "7" ++ "]"))]
  = Raise ValueError
  /\ resource [("x", VStr (str_repeat 1001 "[" ++ str_repeat 1001 "]"))]
     = Raise RecursionError
  /\ dataset [("resources",
               VList [VDict [("x", VStr ("[" ++ str_repeat 4301 "7" ++ "]"))]])]
     = Raise ValueError.
Proof. vm_compute. repeat split. Qed.

(** ** Where [package] and [dataset] part from the specification
       (C2, C4, C5, C6) *)

Import frictionless_to_ckan.

Section Departures.

Context {lim : limits}.

(** C2, at the input where the code parts from it: the record whose
    extras hold the entry with key custom and value hello converts to the
    record with the top-level field custom, and [package] returns that
    record as it is: custom stays a top-level key, although it is not in
    [ckan_package_keys], and the output has no extras. *)
Theorem package_does_not_sweep :
  dataset [("extras",
            VList [VDict [("key", VStr "custom"); ("value", VStr "hello")]])]
  = Ok [("custom", VStr "hello")]
  /\ key_in "custom" ckan_package_keys = false
  /\ forall slugify,
       package slugify [("custom", VStr "hello")]
       = Ok [("custom", VStr "hello")].
Proof. repeat split. Qed.

(** C4, at the inputs where the code parts from it: whenever the
    decoder raises on the value of the extras entry with key licenses,
    [dataset] raises the same exception.  For a string that is not valid
    JSON this is JSONDecodeError: the guarded decoding of the expansion
    keeps the string, and the second decoding of that value, in the
    search for additional licenses, is outside any [try]. *)
Theorem dataset_raises_on_malformed_licenses :
  forall s e,
    json.loads_str s = Raise e ->
    dataset [("extras",
              VList [VDict [("key", VStr "licenses"); ("value", VStr s)]])]
    = Raise e.
Proof.
  intros s e H.
  destruct (loads_str_raises _ _ H) as [->|[->| ->]];
    cbv - [json.loads_str]; rewrite H;
    cbv - [json.loads_str]; rewrite ?H; reflexivity.
Qed.

(** C5, at the input where the code parts from it: a single contributor
    that carries a role, in a record whose extras are not empty.  The
    contributors key is deleted and the maintainer set, but nothing is
    appended to extras; without the extras of the input the same
    contributor is archived. *)
Theorem package_single_contributor_not_archived :
  forall slugify,
    let contributors :=
      VList [VDict [("title", VStr "A"); ("role", VStr "author")]] in
    let extras := VList [VDict [("key", VStr "k"); ("value", VStr "v")]] in
    package slugify [("extras", extras); ("contributors", contributors)]
    = Ok [("extras", extras); ("maintainer", VStr "A")]
    /\ package slugify [("contributors", contributors)]
       = Ok [("maintainer", VStr "A");
             ("extras", VList [VDict [("contributors", contributors)]])].
Proof. intros slugify. split; reflexivity. Qed.

(** C6, at the input where the code parts from it, over the store: the
    record is built in an empty heap, [package] runs on it, and the
    input is read again.  Its extras list, which had one entry, now has
    two: the overflow of licenses was appended to the very list the
    input refers to, since [dict(fddict)] copies references. *)
Theorem package_appends_to_input_extras :
  forall slugify,
    let entry := VDict [("key", VStr "k"); ("value", VStr "v")] in
    let licenses :=
      VList [VDict [("type", VStr "a")]; VDict [("type", VStr "b")]] in
    let fddict := [("extras", VList [entry]); ("licenses", licenses)] in
    exists input h0 outdict h1,
      store.load (VDict fddict) [] = Ok (input, h0)
      /\ store.view h0 input = VDict fddict
      /\ store.package slugify input h0 = Ok (outdict, h1)
      /\ store.view h1 input
         = VDict [("extras",
                   VList [entry; VDict [("licenses", licenses)]]);
                  ("licenses", licenses)]
      /\ store.view h1 outdict
         = VDict [("extras",
                   VList [entry; VDict [("licenses", licenses)]]);
                  ("license_id", VStr "a")].
Proof.
  intros slugify entry licenses fddict.
  destruct (store.load (VDict fddict) []) as [[input h0]|] eqn:Hload;
    [|discriminate Hload].
  vm_compute in Hload. injection Hload as <- <-.
  destruct (store.package slugify (store.RRef 5)
              [store.ODict [("key", store.RStr "k"); ("value", store.RStr "v")];
               store.OList [store.RRef 0];
               store.ODict [("type", store.RStr "a")];
               store.ODict [("type", store.RStr "b")];
               store.OList [store.RRef 2; store.RRef 3];
               store.ODict [("extras", store.RRef 1);
                            ("licenses", store.RRef 4)]])
    as [[outdict h1]|] eqn:Hrun; [|discriminate Hrun].
  vm_compute in Hrun. injection Hrun as <- <-.
  do 4 eexists. repeat split; reflexivity.
Qed.

End Departures.

(** The theorem at a licenses value with an unclosed brace. *)
Lemma dataset_raises_on_malformed_licenses_witness :
  json.loads_str "{bad" = Raise JSONDecodeError
  /\ dataset [("extras",
               VList [VDict [("key", VStr "licenses");
                             ("value", VStr "{bad")]])]
     = Raise JSONDecodeError.
Proof.
  split; [reflexivity|].
  apply (dataset_raises_on_malformed_licenses "{bad" JSONDecodeError).
  reflexivity.
Defined.

(** ** What each step of [package] leaves alone *)

Lemma dict_get_default_ext (o o' : dict) k :
  dict_get k o = dict_get k o' ->
  dict_get_default k o = dict_get_default k o'.
Proof. unfold dict_get_default. now intros ->. Qed.

Lemma dict_has_ext (o o' : dict) k :
  dict_get k o = dict_get k o' -> dict_has k o = dict_has k o'.
Proof. unfold dict_has. now intros ->. Qed.

Lemma dict_get_default_del (o : dict) k :
  dict_get_default k (dict_del k o) = VNone.
Proof. unfold dict_get_default. now rewrite dict_get_del_eq. Qed.

(** The field [k] after the rename step of [package_mapping]. *)
Lemma map_keys_package_get (fddict o o' : dict) k :
  frictionless_to_ckan.map_keys package_mapping fddict o = Ok o' ->
  dict_get k o'
  = if String.eqb k "description" then
      if dict_has "description" fddict then None else dict_get k o
    else if String.eqb k "notes" then
      if dict_has "description" fddict then dict_get "description" fddict
      else dict_get k o
    else if String.eqb k "homepage" then
      if dict_has "homepage" fddict then None else dict_get k o
    else if String.eqb k "url" then
      if dict_has "homepage" fddict then dict_get "homepage" fddict
      else dict_get k o
    else dict_get k o.
Proof.
  unfold package_mapping. simpl. unfold dict_getitem, dict_has.
  intros H.
  destruct (dict_get "description" fddict) as [n|] eqn:Hn;
    destruct (dict_get "homepage" fddict) as [u|] eqn:Hu; simpl in H;
    repeat (let o1 := fresh "o" in let Ho1 := fresh "Ho" in
            bind_inv H as o1 Ho1; apply dict_delitem_ok in Ho1; subst o1);
    injection H as <-;
    rewrite ?dict_get_del, ?dict_get_set, ?dict_get_del, ?dict_get_set;
    (case_key k "description"; [reflexivity|]);
    (case_key k "notes"; [reflexivity|]);
    (case_key k "homepage"; [reflexivity|]);
    (case_key k "url"; reflexivity).
Qed.

Lemma archive_frame name seq (o o' : dict) k :
  archive name seq o = Ok o' -> k <> "extras" ->
  dict_get k o' = dict_get k o.
Proof.
  unfold archive. intros H Hk.
  bind_inv H as extras Hextras. bind_inv H as extras' Hextras'.
  injection H as <-. rewrite dict_get_set_ne by assumption.
  destruct (negb (truthy (dict_get_default "extras" o))); [|reflexivity].
  now apply dict_get_set_ne.
Qed.

Lemma copy_if_set_frame first src dst (o o' : dict) k :
  copy_if_set first src dst o = Ok o' -> k <> dst ->
  dict_get k o' = dict_get k o.
Proof.
  unfold copy_if_set. intros H Hk.
  bind_inv H as x Hx. destruct (truthy x).
  - bind_inv H as y Hy. injection H as <-. now apply dict_get_set_ne.
  - now injection H as <-.
Qed.

Lemma overflow_loop_frame keys contributors (o : dict) k :
  k <> "extras" ->
  dict_get k (overflow_loop keys contributors o) = dict_get k o.
Proof.
  intros Hk. induction keys as [|key rest IH]; simpl; [reflexivity|].
  destruct (String.eqb key "path" || _); [|assumption].
  destruct (negb (truthy (dict_get_default "extras" o))); [|assumption].
  now apply dict_get_set_ne.
Qed.

Lemma collapse_licenses_spec (o o' : dict) :
  collapse_licenses o = Ok o' ->
  (forall k,
      key_in k ["license_id"; "license_title"; "extras"; "licenses"] = false ->
      dict_get k o' = dict_get k o)
  /\ truthy (dict_get_default "licenses" o') = false.
Proof.
  unfold collapse_licenses. intros H.
  destruct (truthy (dict_get_default "licenses" o)) eqn:G.
  - bind_inv H as licenses Hl. bind_inv H as first Hf.
    bind_inv H as type Ht. bind_inv H as o1 Ho1. bind_inv H as n Hn.
    bind_inv H as o2 Ho2. apply dict_delitem_ok in H. subst o'.
    split; [|now rewrite dict_get_default_del].
    intros k Hk. key_not_in Hk.
    rewrite dict_get_del_ne by assumption.
    transitivity (dict_get k o1).
    + destruct (Nat.ltb 1 n).
      * now apply (archive_frame _ _ _ _ _ Ho2).
      * now injection Ho2 as <-.
    + rewrite (copy_if_set_frame _ _ _ _ _ _ Ho1) by assumption.
      now apply dict_get_set_ne.
  - injection H as <-. split; [reflexivity|assumption].
Qed.

Lemma collapse_sources_spec (o o' : dict) :
  collapse_sources o = Ok o' ->
  (forall k,
      key_in k ["author"; "author_email"; "url"; "extras"; "sources"] = false ->
      dict_get k o' = dict_get k o)
  /\ truthy (dict_get_default "sources" o') = false.
Proof.
  unfold collapse_sources. intros H.
  destruct (truthy (dict_get_default "sources" o)) eqn:G.
  - bind_inv H as sources Hl. bind_inv H as first Hf.
    bind_inv H as title Ht. bind_inv H as o1 Ho1. bind_inv H as o2 Ho2.
    bind_inv H as n Hn.
    bind_inv H as o3 Ho3. apply dict_delitem_ok in H. subst o'.
    split; [|now rewrite dict_get_default_del].
    intros k Hk. key_not_in Hk.
    rewrite dict_get_del_ne by assumption.
    transitivity (dict_get k o2).
    + destruct (Nat.ltb 1 n).
      * now apply (archive_frame _ _ _ _ _ Ho3).
      * now injection Ho3 as <-.
    + rewrite (copy_if_set_frame _ _ _ _ _ _ Ho2) by assumption.
      rewrite (copy_if_set_frame _ _ _ _ _ _ Ho1) by assumption.
      now apply dict_get_set_ne.
  - injection H as <-. split; [reflexivity|assumption].
Qed.

Lemma collapse_contributors_spec (o o' : dict) :
  collapse_contributors o = Ok o' ->
  (forall k,
      key_in k ["maintainer"; "maintainer_email"; "extras"; "contributors"]
      = false ->
      dict_get k o' = dict_get k o)
  /\ truthy (dict_get_default "contributors" o') = false.
Proof.
  unfold collapse_contributors. intros H.
  destruct (truthy (dict_get_default "contributors" o)) eqn:G.
  - bind_inv H as contributors Hl. bind_inv H as first Hf.
    bind_inv H as title Ht. bind_inv H as o1 Ho1. bind_inv H as n Hn.
    bind_inv H as o2 Ho2. apply dict_delitem_ok in H. subst o'.
    split; [|now rewrite dict_get_default_del].
    intros k Hk. key_not_in Hk.
    rewrite dict_get_del_ne by assumption.
    transitivity (dict_get k o1).
    + destruct (Nat.ltb 1 n).
      * now apply (archive_frame _ _ _ _ _ Ho2).
      * bind_inv Ho2 as keys Hkeys. injection Ho2 as <-.
        now apply overflow_loop_frame.
    + rewrite (copy_if_set_frame _ _ _ _ _ _ Ho1) by assumption.
      now apply dict_get_set_ne.
  - injection H as <-. split; [reflexivity|assumption].
Qed.

Lemma convert_keywords_spec slugify (o o' : dict) :
  convert_keywords slugify o = Ok o' ->
  (forall k, key_in k ["tags"; "keywords"] = false ->
             dict_get k o' = dict_get k o)
  /\ truthy (dict_get_default "keywords" o') = false.
Proof.
  unfold convert_keywords. intros H.
  destruct (truthy (dict_get_default "keywords" o)) eqn:G.
  - bind_inv H as keywords Hl. bind_inv H as items Hi.
    bind_inv H as tags Ht. apply dict_delitem_ok in H. subst o'.
    split; [|now rewrite dict_get_default_del].
    intros k Hk. key_not_in Hk.
    rewrite dict_get_del_ne by assumption.
    now apply dict_get_set_ne.
  - injection H as <-. split; [reflexivity|assumption].
Qed.

(** What every record returned by [package] satisfies: the renamed keys
    are gone, and none of the four collapsed fields is left non-empty. *)
Lemma package_output (slugify : value -> result string) (P D : dict) :
  package slugify P = Ok D ->
  dict_get "description" D = None
  /\ dict_get "homepage" D = None
  /\ truthy (dict_get_default "licenses" D) = false
  /\ truthy (dict_get_default "sources" D) = false
  /\ truthy (dict_get_default "contributors" D) = false
  /\ truthy (dict_get_default "keywords" D) = false.
Proof.
  unfold package. intros H.
  bind_inv H as o1 Ho1. bind_inv H as o2 Ho2. bind_inv H as o3 Ho3.
  bind_inv H as o4 Ho4.
  apply collapse_licenses_spec in Ho2. destruct Ho2 as [F2 T2].
  apply collapse_sources_spec in Ho3. destruct Ho3 as [F3 T3].
  apply collapse_contributors_spec in Ho4. destruct Ho4 as [F4 T4].
  apply convert_keywords_spec in H. destruct H as [F5 T5].
  assert (Hd : dict_get "description" o1 = None).
  { rewrite (map_keys_package_get _ _ _ "description" Ho1). simpl.
    unfold dict_has. now destruct (dict_get "description" P). }
  assert (Hh : dict_get "homepage" o1 = None).
  { rewrite (map_keys_package_get _ _ _ "homepage" Ho1). simpl.
    unfold dict_has. now destruct (dict_get "homepage" P). }
  repeat split.
  - now rewrite F5, F4, F3, F2.
  - now rewrite F5, F4, F3, F2.
  - rewrite (dict_get_default_ext D o2); [assumption|].
    now rewrite F5, F4, F3.
  - rewrite (dict_get_default_ext D o3); [assumption|].
    now rewrite F5, F4.
  - rewrite (dict_get_default_ext D o4); [assumption|].
    now rewrite F5.
  - assumption.
Qed.

(** ** The rename steps return *)

Section RenameSteps.

Context {lim : limits}.

Lemma map_keys_dataset_total (D : dict) :
  exists o2, ckan_to_frictionless.map_keys dataset_mapping D D = Ok o2.
Proof.
  unfold dataset_mapping. cbn [ckan_to_frictionless.map_keys].
  unfold dict_getitem, dict_delitem, dict_has.
  destruct (dict_get "notes" D) as [n|] eqn:Hn;
    destruct (dict_get "url" D) as [u|] eqn:Hu; cbn [bind];
    rewrite ?dict_get_set, ?dict_get_del, ?dict_get_set;
    cbn [String.eqb Ascii.eqb Bool.eqb]; rewrite ?Hn, ?Hu; cbn [bind];
    rewrite ?dict_get_set, ?dict_get_del, ?dict_get_set;
    cbn [String.eqb Ascii.eqb Bool.eqb]; rewrite ?Hn, ?Hu; cbn [bind];
    eauto.
Qed.

Lemma map_keys_package_total (F : dict) :
  exists p1, frictionless_to_ckan.map_keys package_mapping F F = Ok p1.
Proof.
  unfold package_mapping. cbn [frictionless_to_ckan.map_keys].
  unfold dict_getitem, dict_delitem, dict_has.
  destruct (dict_get "description" F) as [n|] eqn:Hn;
    destruct (dict_get "homepage" F) as [u|] eqn:Hu; cbn [bind];
    rewrite ?dict_get_set, ?dict_get_del, ?dict_get_set;
    cbn [String.eqb Ascii.eqb Bool.eqb]; rewrite ?Hn, ?Hu; cbn [bind];
    rewrite ?dict_get_set, ?dict_get_del, ?dict_get_set;
    cbn [String.eqb Ascii.eqb Bool.eqb]; rewrite ?Hn, ?Hu; cbn [bind];
    eauto.
Qed.

Lemma dict_has_none (d : dict) k : dict_get k d = None -> dict_has k d = false.
Proof. apply dict_has_false. Qed.

Lemma dict_get_default_none (d : dict) k :
  dict_get k d = None -> dict_get_default k d = VNone.
Proof. unfold dict_get_default. now intros ->. Qed.

Lemma key_in_In k keys : key_in k keys = true -> In k keys.
Proof.
  unfold key_in. intros H. apply existsb_exists in H.
  destruct H as (x & Hx & E). apply String.eqb_eq in E. now subst.
Qed.

Lemma map_keys_package_frame (fddict o o' : dict) k :
  frictionless_to_ckan.map_keys package_mapping fddict o = Ok o' ->
  key_in k ["description"; "notes"; "homepage"; "url"] = false ->
  dict_get k o' = dict_get k o.
Proof.
  intros H Hk. rewrite (map_keys_package_get _ _ _ k H).
  unfold key_in in Hk. simpl in Hk.
  destruct (String.eqb k "description"); [discriminate|].
  destruct (String.eqb k "notes"); [discriminate|].
  destruct (String.eqb k "homepage"); [discriminate|].
  destruct (String.eqb k "url"); [discriminate|reflexivity].
Qed.

End RenameSteps.

(** * Further properties of the converters *)

(** ** [resource] as a mapping *)

Import ckan_to_frictionless.

Section ResourceMapping.

Context {lim : limits}.

Lemma dict_del_absent {V} (d : list (string * V)) k :
  dict_get k d = None -> dict_del k d = d.
Proof.
  unfold dict_del. induction d as [|[k' v] d IH]; simpl; [reflexivity|].
  destruct (String.eqb k k') eqn:E; [discriminate|].
  intros H. simpl. now rewrite IH.
Qed.

Lemma remove_keys_pop keys (d : dict) : remove_keys keys d = pop_keys keys d.
Proof.
  unfold remove_keys, pop_keys. revert d.
  induction keys as [|a keys IH]; intros d; simpl; [reflexivity|].
  rewrite <- IH. f_equal. unfold dict_has.
  destruct (dict_get a d) eqn:G; [reflexivity|].
  symmetry. now apply dict_del_absent.
Qed.

Lemma pop_keys_filter keys (d : dict) :
  pop_keys keys d = filter (fun kv => negb (key_in (fst kv) keys)) d.
Proof.
  unfold pop_keys. revert d.
  induction keys as [|a keys IH]; intros d; simpl.
  - induction d as [|x d IHd]; simpl; [reflexivity|]. now rewrite <- IHd.
  - rewrite IH. unfold dict_del. clear IH.
    induction d as [|[k v] d IHd]; simpl; [reflexivity|].
    rewrite (String.eqb_sym a k).
    destruct (String.eqb k a); simpl.
    + apply IHd.
    + destruct (negb (key_in k keys)); [f_equal|]; apply IHd.
Qed.

Lemma filter_idem {A} (f : A -> bool) (l : list A) :
  filter f (filter f l) = filter f l.
Proof.
  induction l as [|x l IH]; simpl; [reflexivity|].
  destruct (f x) eqn:E; simpl; rewrite ?E, IH; reflexivity.
Qed.

(** X1: converting a resource record from which the four bookkeeping
    keys (package_id, position, datastore_active, state) were removed
    beforehand gives the same result, record or exception, as converting
    the record itself. *)
Theorem resource_ignores_removed_keys :
  forall ckandict : dict,
    resource (pop_keys resource_keys_to_remove ckandict) = resource ckandict.
Proof.
  intros ckandict. unfold resource.
  rewrite !remove_keys_pop, !pop_keys_filter, filter_idem. reflexivity.
Qed.

Lemma resource_get (ckandict outdict : dict) k :
  resource ckandict = Ok outdict ->
  dict_get k outdict
  = drop_none (option_map unjsonified (resource_field k ckandict)).
Proof.
  intros Hres. rewrite (resource_ok _ _ Hres).
  assert (Hmid : forall x,
    dict_get x (map (fun kv => (fst kv, unjsonified (snd kv)))
                  (remove_keys resource_keys_to_remove ckandict))
    = if key_in x resource_keys_to_remove then None
      else option_map unjsonified (dict_get x ckandict)).
  { intros x.
    rewrite dict_get_map, dict_get_remove_keys.
    now destruct (key_in x resource_keys_to_remove). }
  rewrite dict_get_strip_nulls. f_equal.
  unfold remap, resource_mapping. cbn [fold_left fst snd].
  rewrite !dict_get_rename_key, !Hmid.
  change (key_in "size" resource_keys_to_remove) with false.
  change (key_in "mimetype" resource_keys_to_remove) with false.
  change (key_in "url" resource_keys_to_remove) with false.
  cbv iota.
  unfold resource_field, resource_mapping, resource_keys_to_remove, key_in.
  cbn [map fst snd existsb find].
  case_key k "url"; [reflexivity|].
  case_key k "mimetype"; [reflexivity|].
  case_key k "size"; [reflexivity|].
  case_key k "path".
  { destruct (dict_get "url" ckandict); reflexivity. }
  case_key k "mediatype".
  { destruct (dict_get "mimetype" ckandict); reflexivity. }
  case_key k "bytes".
  { destruct (dict_get "size" ckandict); reflexivity. }
  repeat match goal with
         | Hne : k <> _ |- _ =>
             apply String.eqb_neq in Hne; rewrite ?Hne; clear Hne
         end.
  cbn [orb].
  destruct (String.eqb k "package_id" || _); reflexivity.
Qed.

Lemma resource_drops_old_keys_aux (ckandict outdict : dict) k :
  resource ckandict = Ok outdict ->
  In k (resource_keys_to_remove ++ map fst resource_mapping) ->
  dict_get k outdict = None.
Proof.
  intros Hres Hk. rewrite (resource_get _ _ k Hres).
  unfold resource_field.
  replace (key_in k resource_keys_to_remove
           || key_in k (map fst resource_mapping)) with true; [reflexivity|].
  symmetry. apply in_app_or in Hk. apply orb_true_iff.
  destruct Hk as [Hk|Hk]; [left|right]; now apply key_in_true.
Qed.

(** X2: a record [resource] returns never has one of the removed keys
    (package_id, position, datastore_active, state) nor an old name of
    the rename table (size, mimetype, url). *)
Theorem resource_drops_old_keys :
  forall (ckandict outdict : dict) k,
    resource ckandict = Ok outdict ->
    In k (resource_keys_to_remove ++ map fst resource_mapping) ->
    dict_get k outdict = None.
Proof.
  intros ckandict outdict k. apply resource_drops_old_keys_aux.
Qed.

(** X3: for each pair of the rename table (size to bytes, mimetype to
    mediatype, url to path), when the record has the old key and
    [resource] returns, the new key of the output holds the unjsonified
    value of the old key (no field when that value is null), whatever
    the record held under the new key. *)
Theorem resource_rename_carries_value :
  forall (ckandict outdict : dict) old_key new_key v,
    In (old_key, new_key) resource_mapping ->
    dict_get old_key ckandict = Some v ->
    resource ckandict = Ok outdict ->
    dict_get new_key outdict = drop_none (Some (unjsonified v)).
Proof.
  intros ckandict outdict old_key new_key v Hin Hget Hres.
  rewrite (resource_get _ _ new_key Hres).
  unfold resource_mapping in Hin. simpl in Hin.
  destruct Hin as [E|[E|[E|[]]]]; injection E as <- <-;
    unfold resource_field; cbn; now rewrite Hget.
Qed.

Lemma resource_field_other (ckandict : dict) k :
  key_in k (resource_keys_to_remove ++ map fst resource_mapping
            ++ map snd resource_mapping) = false ->
  resource_field k ckandict = dict_get k ckandict.
Proof.
  unfold resource_field, resource_keys_to_remove, resource_mapping, key_in.
  cbn [map fst snd app existsb find]. intros Hk.
  repeat match type of Hk with
         | (String.eqb k ?s || _) = false =>
             let E := fresh "E" in
             destruct (String.eqb k s) eqn:E; [discriminate|];
             cbn [orb] in Hk
         end.
  reflexivity.
Qed.

(** X4: a key that is neither removed nor an old or a new name of the
    rename table passes through [resource]: a record it returns holds
    the unjsonified value of the input under the same key, and no field
    when the value is null.  In particular a value that is neither null
    nor a string, and a string that once stripped begins with neither a
    brace nor a bracket, come out as they are. *)
Theorem resource_passes_other_keys :
  forall (ckandict outdict : dict) k,
    key_in k (resource_keys_to_remove ++ map fst resource_mapping
              ++ map snd resource_mapping) = false ->
    resource ckandict = Ok outdict ->
    dict_get k outdict
    = drop_none (option_map unjsonified (dict_get k ckandict))
    /\ (forall v,
           dict_get k ckandict = Some v ->
           v <> VNone -> (forall s, v <> VStr s) ->
           dict_get k outdict = Some v)
    /\ (forall s,
           dict_get k ckandict = Some (VStr s) ->
           startswith "{" (py_strip s) || startswith "[" (py_strip s) = false ->
           dict_get k outdict = Some (VStr s)).
Proof.
  intros ckandict outdict k Hk Hres.
  assert (H : dict_get k outdict
              = drop_none (option_map unjsonified (dict_get k ckandict))).
  { now rewrite (resource_get _ _ k Hres), resource_field_other. }
  split; [exact H|]. split.
  - intros v Hv Hnn Hns. rewrite H, Hv.
    destruct v; try reflexivity; [contradiction|].
    exfalso. now apply (Hns s).
  - intros s Hs Hl. rewrite H, Hs. cbn [option_map unjsonified].
    now rewrite Hl.
Qed.

(** *** A second conversion *)

Lemma unjsonified_cases v :
  unjsonified v = v
  \/ (exists d, unjsonified v = VDict d)
  \/ (exists l, unjsonified v = VList l).
Proof.
  destruct v; try (left; reflexivity). unfold unjsonified.
  destruct (startswith "{" (py_strip s) || startswith "[" (py_strip s)) eqn:E;
    [|left; reflexivity].
  unfold parsed_or_original.
  destruct (json.loads_str (py_strip s)) as [x|e] eqn:L; [|left; reflexivity].
  right. exact (loads_str_container _ _ E L).
Qed.

Lemma unjsonified_idem v : unjsonified (unjsonified v) = unjsonified v.
Proof.
  destruct (unjsonified_cases v) as [E|[[d E]|[l E]]]; rewrite E;
    [exact E|reflexivity|reflexivity].
Qed.

(** A value the step returned is left as it is by the step. *)
Lemma unjsonify_fixed v w : unjsonify v = Ok w -> unjsonify w = Ok w.
Proof.
  intros H. destruct v; try (injection H as <-; reflexivity).
  destruct (startswith "{" (py_strip s) || startswith "[" (py_strip s)) eqn:E.
  - rewrite (unjsonify_str s E) in H.
    destruct (json.loads_str (py_strip s)) as [parsed|e] eqn:L.
    + injection H as <-.
      destruct (loads_str_container _ _ E L) as [[d ->]|[l ->]]; reflexivity.
    + destruct (handled e) eqn:Hh; [|discriminate H].
      injection H as <-. rewrite (unjsonify_str s E), L. now rewrite Hh.
  - unfold unjsonify in H. rewrite E in H. injection H as <-.
    unfold unjsonify. now rewrite E.
Qed.

Lemma unjsonify_values_fixed (d : dict) :
  Forall (fun w => unjsonify w = Ok w) (map snd d) ->
  unjsonify_values d = Ok d.
Proof.
  unfold unjsonify_values.
  induction d as [|[k v] d IH]; intros H; [reflexivity|].
  cbn [map snd] in H. inversion H as [|? ? Hv Hrest]; subst.
  cbn [map_result fst snd]. rewrite Hv. cbn [bind].
  now rewrite (IH Hrest).
Qed.

Lemma unjsonify_values_each (d d' : dict) :
  unjsonify_values d = Ok d' ->
  Forall (fun w => unjsonify w = Ok w) (map snd d').
Proof.
  unfold unjsonify_values. revert d'.
  induction d as [|[k v] d IH]; intros d' H; cbn [map_result] in H.
  - injection H as <-. constructor.
  - bind_inv H as kv Hkv. bind_inv H as rest Hrest. injection H as <-.
    bind_inv Hkv as v' Hv. injection Hkv as <-.
    cbn [map snd]. constructor; [exact (unjsonify_fixed _ _ Hv)|auto].
Qed.

Lemma In_dict_set_value {V} (d : list (string * V)) k x w :
  In w (map snd (dict_set k x d)) -> w = x \/ In w (map snd d).
Proof.
  induction d as [|[k' v'] d IH]; cbn [dict_set map snd In].
  - intros [<-|[]]. now left.
  - destruct (String.eqb k k'); cbn [map snd In].
    + intros [<-|H]; auto.
    + intros [<-|H]; auto. destruct (IH H); auto.
Qed.

Lemma In_dict_del {V} (d : list (string * V)) k kv :
  In kv (dict_del k d) -> In kv d.
Proof. unfold dict_del. intros H. now apply filter_In in H. Qed.

Lemma rename_key_values src dst (d : dict) w :
  In w (map snd (rename_key src dst d)) -> In w (map snd d).
Proof.
  unfold rename_key, dict_has, dict_get_default.
  destruct (dict_get src d) as [x|] eqn:G; [|auto].
  intros H. apply in_map_iff in H. destruct H as ([k v] & <- & H).
  apply In_dict_del in H. apply (in_map snd) in H. cbn [snd] in H.
  apply In_dict_set_value in H. destruct H as [->|H]; [|exact H].
  apply dict_get_In_pair in G. now apply (in_map snd) in G.
Qed.

Lemma remap_values mapping : forall (d : dict) w,
  In w (map snd (remap mapping d)) -> In w (map snd d).
Proof.
  unfold remap.
  induction mapping as [|[src dst] mapping IH]; intros d w H; [exact H|].
  cbn [fold_left fst snd] in H. apply IH in H.
  now apply rename_key_values in H.
Qed.

Lemma In_strip_nulls (d : dict) kv : In kv (strip_nulls d) -> In kv d.
Proof.
  unfold strip_nulls. generalize (map fst d) as keys. intros keys. revert d.
  induction keys as [|a keys IH]; intros d H; [exact H|].
  cbn [fold_left] in H. apply IH in H.
  destruct (dict_get a d) as [[]|]; try exact H.
  now apply In_dict_del in H.
Qed.

(** [resource] returns on a record it returned. *)
Lemma resource_returns_again (ckandict outdict : dict) :
  resource ckandict = Ok outdict ->
  exists outdict', resource outdict = Ok outdict'.
Proof.
  unfold resource at 1. intros H. bind_inv H as d Hd. injection H as <-.
  pose proof (unjsonify_values_each _ _ Hd) as Hall.
  unfold resource.
  rewrite unjsonify_values_fixed; [cbn [bind]; eauto|].
  apply Forall_forall. intros w Hw.
  apply in_map_iff in Hw. destruct Hw as (kv & <- & Hkv).
  apply In_remove_keys, In_strip_nulls in Hkv.
  apply (in_map snd) in Hkv.
  apply (remap_values resource_mapping d) in Hkv.
  now apply (proj1 (Forall_forall _ _) Hall).
Qed.

(** X5: [resource] is idempotent: on a record it returned it returns
    again, a record with the same fields and the same values. *)
Theorem resource_idempotent :
  forall ckandict outdict : dict,
    resource ckandict = Ok outdict ->
    exists outdict',
      resource outdict = Ok outdict' /\ dict_equiv outdict' outdict.
Proof.
  intros ckandict outdict Hres.
  destruct (resource_returns_again _ _ Hres) as [outdict' Hres'].
  exists outdict'. split; [exact Hres'|]. intros k.
  assert (Hfield : resource_field k outdict = dict_get k outdict).
  { unfold resource_field.
    destruct (key_in k resource_keys_to_remove
              || key_in k (map fst resource_mapping)) eqn:E.
    - symmetry. apply (resource_drops_old_keys_aux _ _ k Hres).
      apply orb_true_iff in E. apply in_or_app.
      destruct E as [E|E]; [left|right]; now apply key_in_In.
    - destruct (find _ resource_mapping) as [[old_key new_key]|] eqn:F;
        [|reflexivity].
      apply find_some in F. destruct F as [F _].
      rewrite (resource_drops_old_keys_aux _ _ old_key Hres); [reflexivity|].
      apply in_or_app. right. apply (in_map fst) in F. exact F. }
  rewrite (resource_get _ _ k Hres'), Hfield, (resource_get _ _ k Hres).
  destruct (resource_field k ckandict) as [v|]; [|reflexivity].
  cbn [option_map].
  destruct (unjsonified v) eqn:U; cbn [drop_none option_map];
    rewrite <- ?U, ?unjsonified_idem, ?U; reflexivity.
Qed.

End ResourceMapping.

(** The theorem at the record of [test_keys_are_removed_that_should_be]
    with a url. *)
Lemma resource_drops_old_keys_witness :
  let ckandict := [("package_id", VStr "xxx"); ("url", VStr "http://x")] in
  resource ckandict = Ok [("path", VStr "http://x")]
  /\ dict_get "url" [("path", VStr "http://x")] = None.
Proof.
  intros ckandict. split; [reflexivity|].
  apply (resource_drops_old_keys ckandict [("path", VStr "http://x")] "url").
  - reflexivity.
  - simpl. tauto.
Defined.

(** The theorem at a record that has both url and path. *)
Lemma resource_rename_carries_value_witness :
  let ckandict := [("path", VStr "old"); ("url", VStr "http://x/data.csv")] in
  resource ckandict = Ok [("path", VStr "http://x/data.csv")]
  /\ dict_get "path" [("path", VStr "http://x/data.csv")]
     = Some (VStr "http://x/data.csv").
Proof.
  intros ckandict. split; [reflexivity|].
  apply (resource_rename_carries_value ckandict
           [("path", VStr "http://x/data.csv")]
           "url" "path" (VStr "http://x/data.csv")).
  - simpl. tauto.
  - reflexivity.
  - reflexivity.
Defined.

(** The theorem at the record of [test_resource_keys_pass_through]. *)
Lemma resource_passes_other_keys_witness :
  let ckandict :=
    [("format", VStr "CSV"); ("hash", VInt 7); ("description", VStr " [x")] in
  exists outdict,
    resource ckandict = Ok outdict
    /\ dict_get "hash" outdict = Some (VInt 7)
    /\ dict_get "format" outdict = Some (VStr "CSV").
Proof.
  intros ckandict.
  destruct (resource ckandict) as [outdict|] eqn:H; [|discriminate H].
  exists outdict. split; [reflexivity|]. split.
  - apply (proj1 (proj2 (resource_passes_other_keys ckandict outdict "hash"
                           eq_refl H))).
    + reflexivity.
    + discriminate.
    + discriminate.
  - apply (proj2 (proj2 (resource_passes_other_keys ckandict outdict "format"
                           eq_refl H)));
      reflexivity.
Defined.

(** The theorem at a record with a string that only looks like JSON and
    a field to rename. *)
Lemma resource_idempotent_witness :
  let ckandict :=
    [("x", VStr "{'abc': 1"); ("size", VStr " [1, 2] "); ("bytes", VNone)] in
  exists outdict outdict',
    resource ckandict = Ok outdict
    /\ resource outdict = Ok outdict' /\ dict_equiv outdict' outdict.
Proof.
  intros ckandict.
  destruct (resource ckandict) as [outdict|] eqn:H; [|discriminate H].
  destruct (resource_idempotent ckandict outdict H) as (outdict' & H').
  exists outdict, outdict'. split; [reflexivity|exact H'].
Defined.

(** ** [dataset]: the expansion of the extras *)

Section DatasetExtras.

Context {lim : limits}.

Lemma expand_loop_get items : forall (o o' : dict) k,
  expand_loop items o = Ok o' ->
  dict_get k o'
  = match last_extra k items with
    | Some v => Some (try_or (json.loads v) v)
    | None => dict_get k o
    end.
Proof.
  induction items as [|item rest IH]; intros o o' k H.
  - simpl in H. injection H as <-. reflexivity.
  - cbn [expand_loop] in H.
    bind_inv H as key Hkey. bind_inv H as val Hval.
    bind_inv H as val' Hval'. apply try_except_ok in Hval'. subst val'.
    bind_inv H as o1 Ho1.
    rewrite (IH _ _ k H). cbn [last_extra].
    destruct (last_extra k rest) as [v|]; [reflexivity|].
    destruct item; simpl in Hkey; try discriminate.
    simpl in Hval. unfold dict_getitem in Hkey, Hval.
    destruct (dict_get "key" d) as [kv|]; [|discriminate].
    injection Hkey as ->.
    destruct (dict_get "value" d) as [vv|]; [|discriminate].
    injection Hval as ->.
    unfold dict_setitem in Ho1. destruct key; try discriminate.
    injection Ho1 as <-. rewrite dict_get_set.
    destruct (String.eqb k s); reflexivity.
Qed.

Lemma dataset_fields (ckandict outdict : dict) :
  dataset ckandict = Ok outdict ->
  exists fields, expand_extras ckandict ckandict = Ok fields.
Proof.
  rewrite dataset_unfold. intros H. bind_inv H as fields Hf. eauto.
Qed.

Lemma expand_extras_absent (ckandict : dict) :
  dict_has "extras" ckandict = false ->
  expand_extras ckandict ckandict = Ok ckandict.
Proof. unfold expand_extras. now intros ->. Qed.

Lemma expand_extras_drops (ckandict fields : dict) :
  expand_extras ckandict ckandict = Ok fields ->
  dict_get "extras" fields = None.
Proof.
  unfold expand_extras. destruct (dict_has "extras" ckandict) eqn:E.
  - intros H. bind_inv H as extras He. bind_inv H as items Hi.
    bind_inv H as o Ho. apply dict_delitem_ok in H. subst.
    apply dict_get_del_eq.
  - intros H. injection H as <-. now apply dict_has_false.
Qed.

Lemma expand_extras_list (ckandict fields : dict) items k :
  dict_get "extras" ckandict = Some (VList items) ->
  expand_extras ckandict ckandict = Ok fields ->
  k <> "extras" ->
  dict_get k fields
  = match last_extra k items with
    | Some v => Some (try_or (json.loads v) v)
    | None => dict_get k ckandict
    end.
Proof.
  intros He H Hk. unfold expand_extras, dict_has, dict_getitem in H.
  rewrite He in H. cbn [bind py_iter] in H.
  bind_inv H as o Ho. apply dict_delitem_ok in H. subst.
  rewrite dict_get_del_ne by assumption.
  apply (expand_loop_get _ _ _ _ Ho).
Qed.

Lemma falsy_iter v items :
  truthy v = false -> py_iter v = Ok items -> items = [].
Proof.
  destruct v; simpl; try discriminate.
  - destruct (String.eqb_spec s ""); [|discriminate].
    subst. intros _ H. now injection H as <-.
  - destruct l; [|discriminate]. intros _ H. now injection H as <-.
  - destruct d; [|discriminate]. intros _ H. now injection H as <-.
Qed.

Lemma expand_extras_falsy (ckandict fields : dict) k :
  truthy (dict_get_default "extras" ckandict) = false ->
  expand_extras ckandict ckandict = Ok fields ->
  k <> "extras" ->
  dict_get k fields = dict_get k ckandict.
Proof.
  intros Ht H Hk. unfold expand_extras, dict_has, dict_getitem in H.
  unfold dict_get_default in Ht.
  destruct (dict_get "extras" ckandict) as [extras|] eqn:He.
  - cbn [bind] in H. bind_inv H as items Hi.
    rewrite (falsy_iter _ _ Ht Hi) in H. cbn [expand_loop bind] in H.
    apply dict_delitem_ok in H. subst. now apply dict_get_del_ne.
  - now injection H as <-.
Qed.

(** A field under a key that no step of [dataset] names comes out as the
    expansion of the extras left it, null dropped. *)
Lemma dataset_other_key (ckandict fields outdict : dict) k :
  expand_extras ckandict ckandict = Ok fields ->
  dataset ckandict = Ok outdict ->
  key_in k dataset_keys = false ->
  dict_get k outdict = drop_none (dict_get k fields).
Proof.
  intros Hf H Hk.
  destruct (dataset_after_rename _ _ _ Hf H) as (o2 & Ho2 & Hget).
  unfold dataset_keys, key_in in Hk. rewrite existsb_app in Hk.
  apply orb_false_iff in Hk. destruct Hk as [Hk1 Hk2].
  rewrite Hget by exact Hk2. f_equal.
  apply (map_keys_dataset_frame _ _ _ _ Ho2).
  unfold key_in. cbn [existsb] in Hk1 |- *.
  destruct (String.eqb k "extras"); [discriminate|]. exact Hk1.
Qed.

Lemma dataset_tail_absent (ckandict o outdict : dict) k :
  dataset_tail ckandict o = Ok outdict ->
  In k ["state"; "license_id"; "license_title"; "license_url"] ->
  dict_get k outdict = None.
Proof.
  unfold dataset_tail. intros H Hk.
  bind_inv H as o1 Ho1. bind_inv H as o2 Ho2. injection H as <-.
  rewrite dict_get_strip_nulls, dict_get_del.
  simpl in Hk. destruct Hk as [<-|Hk]; [reflexivity|].
  assert (Hpop : dict_get k (synth_license o1) = None).
  { unfold synth_license. rewrite dict_get_pop_keys.
    repeat (destruct Hk as [<-|Hk]; [reflexivity|]). contradiction. }
  rewrite (extras_licenses_frame _ _ _ k Ho2), Hpop.
  - now destruct (String.eqb k "state").
  - repeat (destruct Hk as [<-|Hk]; [discriminate|]). contradiction.
Qed.

(** X6: a record returned by [dataset] has none of the keys extras,
    state, license_id, license_title and license_url. *)
Theorem dataset_drops_catalog_keys :
  forall (ckandict outdict : dict) k,
    dataset ckandict = Ok outdict ->
    In k ["extras"; "state"; "license_id"; "license_title"; "license_url"] ->
    dict_get k outdict = None.
Proof.
  intros ckandict outdict k H Hk.
  destruct (dataset_fields _ _ H) as [fields Hf].
  destruct Hk as [<-|Hk].
  - destruct (dataset_after_rename _ _ _ Hf H) as (o2 & Ho2 & Hget).
    rewrite Hget by reflexivity.
    rewrite (map_keys_dataset_frame _ _ _ "extras" Ho2) by reflexivity.
    now rewrite (expand_extras_drops _ _ Hf).
  - destruct (dataset_head _ _ _ Hf H) as (o2 & o3 & _ & _ & Htail).
    apply (dataset_tail_absent _ _ _ _ Htail Hk).
Qed.

(** X7: a key that no step of [dataset] names passes through: for a
    record without extras, the output holds the value of the input under
    the same key, and no field when that value is null. *)
Theorem dataset_passes_other_keys :
  forall (ckandict outdict : dict) k,
    dict_has "extras" ckandict = false ->
    dataset ckandict = Ok outdict ->
    key_in k dataset_keys = false ->
    dict_get k outdict = drop_none (dict_get k ckandict).
Proof.
  intros ckandict outdict k He H Hk.
  apply (dataset_other_key ckandict ckandict outdict k);
    [now apply expand_extras_absent|assumption|assumption].
Qed.

(** X8: for a record whose extras are a list, and a key that no step of
    [dataset] names: the output holds, under that key, the value of the
    last extras entry with that key, decoded when it is valid JSON and
    as it is otherwise; when no entry has the key, the top-level value
    of the input.  A null value gives no field. *)
Theorem dataset_extras_override :
  forall (ckandict outdict : dict) items k,
    dict_get "extras" ckandict = Some (VList items) ->
    dataset ckandict = Ok outdict ->
    key_in k dataset_keys = false ->
    dict_get k outdict
    = drop_none match last_extra k items with
                | Some v => Some (try_or (json.loads v) v)
                | None => dict_get k ckandict
                end.
Proof.
  intros ckandict outdict items k He H Hk.
  destruct (dataset_fields _ _ H) as [fields Hf].
  rewrite (dataset_other_key _ _ _ k Hf H Hk). f_equal.
  apply (expand_extras_list _ _ _ _ He Hf).
  intros ->. discriminate Hk.
Qed.

End DatasetExtras.

(** The theorem at a record with a state, a license and extras. *)
Lemma dataset_drops_catalog_keys_witness :
  let ckandict :=
    [("name", VStr "gdp"); ("state", VStr "active");
     ("license_id", VStr "cc-by"); ("extras", VList [])] in
  dataset ckandict
  = Ok [("name", VStr "gdp");
        ("licenses", VList [VDict [("name", VStr "cc-by")]])]
  /\ dict_get "license_id"
       [("name", VStr "gdp");
        ("licenses", VList [VDict [("name", VStr "cc-by")]])] = None.
Proof.
  intros ckandict. split; [reflexivity|].
  apply (dataset_drops_catalog_keys ckandict); [reflexivity|].
  simpl. tauto.
Defined.

(** The theorem at the record of [test_keys_are_passed_through]. *)
Lemma dataset_passes_other_keys_witness :
  let ckandict :=
    [("name", VStr "gdp"); ("title", VStr "Countries GDP");
     ("version", VStr "1.0"); ("xxx", VStr "aldka")] in
  dataset ckandict = Ok ckandict
  /\ dict_get "xxx" ckandict = drop_none (dict_get "xxx" ckandict).
Proof.
  intros ckandict. split; [reflexivity|].
  apply (dataset_passes_other_keys ckandict ckandict "xxx"); reflexivity.
Defined.

(** The theorem at a record whose extras hold two entries for the key
    years and whose top level holds years and id. *)
Lemma dataset_extras_override_witness :
  let items :=
    [VDict [("key", VStr "years"); ("value", VStr "[2015]")];
     VDict [("key", VStr "years"); ("value", VStr "[2015, 2016]")]] in
  let ckandict :=
    [("years", VStr "none"); ("id", VStr "x"); ("extras", VList items)] in
  dataset ckandict
  = Ok [("years", VList [VInt 2015; VInt 2016]); ("id", VStr "x")]
  /\ dict_get "years"
       [("years", VList [VInt 2015; VInt 2016]); ("id", VStr "x")]
     = Some (VList [VInt 2015; VInt 2016])
  /\ dict_get "id"
       [("years", VList [VInt 2015; VInt 2016]); ("id", VStr "x")]
     = Some (VStr "x").
Proof.
  intros items ckandict. split; [reflexivity|]. split.
  - apply (dataset_extras_override (lim := default_limits)
             ckandict _ items "years"); reflexivity.
  - apply (dataset_extras_override (lim := default_limits)
             ckandict _ items "id"); reflexivity.
Defined.

(** ** [dataset]: when it returns, tags, resources and licenses *)

Section DatasetFields.

Context {lim : limits}.

Lemma map_result_Forall2 {A B} (f : A -> result B) l : forall ys,
  map_result f l = Ok ys -> Forall2 (fun x y => f x = Ok y) l ys.
Proof.
  induction l as [|x l IH]; intros ys H; cbn [map_result] in H.
  - injection H as <-. constructor.
  - bind_inv H as y Hy. bind_inv H as ys' Hys. injection H as <-.
    constructor; auto.
Qed.

(** The resources step on a list of records: it returns the records
    [resource] returns, when [resource] returns on each. *)
Lemma map_result_resource_of ds rs :
  Forall2 (fun d r => resource d = Ok r) ds rs ->
  map_result resource_of (map VDict ds) = Ok (map VDict rs).
Proof.
  induction 1 as [|d r ds rs Hd _ IH]; [reflexivity|].
  cbn [map map_result]. unfold resource_of at 1. cbn [py_dict bind].
  rewrite Hd. cbn [bind]. now rewrite IH.
Qed.

Lemma map_result_resource_of_ok ds : forall vs,
  map_result resource_of (map VDict ds) = Ok vs ->
  exists rs,
    Forall2 (fun d r => resource d = Ok r) ds rs /\ vs = map VDict rs.
Proof.
  induction ds as [|d ds IH]; intros vs H; cbn [map map_result] in H.
  - injection H as <-. exists []. split; [constructor|reflexivity].
  - bind_inv H as v Hv. bind_inv H as vs' Hvs. injection H as <-.
    unfold resource_of in Hv. cbn [py_dict bind] in Hv.
    bind_inv Hv as r Hr. injection Hv as <-.
    destruct (IH _ Hvs) as (rs & Hall & ->).
    exists (r :: rs). split; [now constructor|reflexivity].
Qed.

Lemma Forall_returns_Forall2 ds :
  Forall (fun d => exists r, resource d = Ok r) ds ->
  exists rs, Forall2 (fun d r => resource d = Ok r) ds rs.
Proof.
  induction 1 as [|d ds [r Hd] _ [rs IH]].
  - exists []. constructor.
  - exists (r :: rs). now constructor.
Qed.

Lemma dataset_before_tail (ckandict fields outdict : dict) :
  expand_extras ckandict ckandict = Ok fields ->
  dataset ckandict = Ok outdict ->
  exists o5,
    dataset_tail ckandict o5 = Ok outdict
    /\ forall k,
         key_in k ["notes"; "description"; "url"; "homepage"; "tags";
                   "keywords"; "contributors"; "author"; "author_email";
                   "maintainer"; "maintainer_email"] = false ->
         dict_get k o5 = dict_get k fields.
Proof.
  intros Hf H.
  destruct (dataset_head _ _ _ Hf H) as (o2 & o3 & Ho2 & Ho3 & Htail).
  eexists. split; [exact Htail|]. intros k Hk.
  unfold key_in in Hk. cbn [existsb] in Hk.
  repeat match type of Hk with
         | (String.eqb k ?s || _) = false =>
             let E := fresh "E" in
             destruct (String.eqb k s) eqn:E; [discriminate|];
             cbn [orb] in Hk
         end.
  rewrite dict_get_pop_keys. unfold key_in. cbn [existsb].
  rewrite E6, E7, E8, E9. cbn [orb].
  rewrite synth_contributors_frame by (intros ->; discriminate).
  rewrite Ho3 by (unfold key_in; cbn [existsb]; now rewrite E3, E4).
  apply (map_keys_dataset_frame _ _ _ _ Ho2).
  unfold key_in. cbn [existsb]. now rewrite E, E0, E1, E2.
Qed.

(** X9: [dataset] returns, with no exception, on every record that has
    neither extras nor tags and whose resources, if any, are a list of
    records on each of which [resource] returns. *)
Theorem dataset_returns :
  forall ckandict : dict,
    dict_has "extras" ckandict = false ->
    dict_has "tags" ckandict = false ->
    (dict_get "resources" ckandict = None
     \/ exists ds,
          dict_get "resources" ckandict = Some (VList (map VDict ds))
          /\ Forall (fun d => exists r, resource d = Ok r) ds) ->
    exists outdict, dataset ckandict = Ok outdict.
Proof.
  intros ckandict He Ht Hr.
  destruct (map_keys_dataset_total ckandict) as [o2 Ho2].
  rewrite dataset_unfold, (expand_extras_absent _ He). cbn [bind].
  rewrite Ho2. cbn [bind]. unfold convert_tags. rewrite Ht. cbn [bind].
  set (o5 := pop_keys _ (synth_contributors o2)).
  assert (H5 : dict_get "resources" o5 = dict_get "resources" ckandict).
  { unfold o5. rewrite dict_get_pop_keys. cbn.
    rewrite synth_contributors_frame by discriminate.
    now apply (map_keys_dataset_frame _ _ _ _ Ho2). }
  unfold dataset_tail, convert_resources, dict_has, dict_getitem.
  rewrite H5.
  assert (Hx : dict_get_default "extras" ckandict = VNone).
  { apply dict_get_default_none. now apply dict_has_false. }
  destruct Hr as [Hr|(ds & Hr & Hall)]; rewrite Hr; cbn [bind py_iter].
  - unfold extras_licenses. rewrite Hx. cbn [truthy bind]. eauto.
  - destruct (Forall_returns_Forall2 _ Hall) as [rs Hrs].
    rewrite (map_result_resource_of _ _ Hrs). cbn [bind].
    unfold extras_licenses. rewrite Hx. cbn [truthy bind]. eauto.
Qed.

(** X10: when the record has a top-level tags list and [dataset]
    returns, the output has no tags key and its keywords are the names of
    the tags, one for each tag and in their order, whatever the record or
    its extras held under keywords. *)
Theorem dataset_tags_to_keywords :
  forall (ckandict outdict : dict) items,
    dict_get "tags" ckandict = Some (VList items) ->
    dataset ckandict = Ok outdict ->
    dict_get "tags" outdict = None
    /\ exists names,
         dict_get "keywords" outdict = Some (VList names)
         /\ Forall2 (fun tag name => getitem tag "name" = Ok name) items names.
Proof.
  intros ckandict outdict items Ht H. rewrite dataset_unfold in H.
  bind_inv H as o1 Ho1. bind_inv H as o2 Ho2. bind_inv H as o3 Ho3.
  unfold convert_tags, dict_has, dict_getitem in Ho3. rewrite Ht in Ho3.
  cbn [bind py_iter] in Ho3. bind_inv Ho3 as names Hn.
  apply dict_delitem_ok in Ho3. subst o3.
  split.
  - rewrite (dataset_tail_get _ _ _ "tags" H) by reflexivity.
    rewrite dict_get_pop_keys. cbn.
    rewrite synth_contributors_frame by discriminate.
    now rewrite dict_get_del_eq.
  - exists names. split; [|now apply map_result_Forall2].
    rewrite (dataset_tail_get _ _ _ "keywords" H) by reflexivity.
    rewrite dict_get_pop_keys. cbn.
    rewrite synth_contributors_frame by discriminate.
    rewrite dict_get_del_ne by discriminate.
    now rewrite dict_get_set_eq.
Qed.

Lemma map_result_name_missing tags :
  Exists (fun tag => dict_get "name" tag = None) tags ->
  map_result (fun tag => getitem tag "name") (map VDict tags)
  = Raise KeyError.
Proof.
  induction tags as [|t tags IH]; intros H; [inversion H|].
  cbn [map map_result getitem]. unfold dict_getitem.
  destruct (dict_get "name" t) eqn:E; [|reflexivity].
  cbn [bind]. inversion H as [? ? Hx|? ? Hx]; subst; [congruence|].
  now rewrite (IH Hx).
Qed.

(** X11: on a record without extras whose tags are a list of records
    one of which has no name, [dataset] raises KeyError. *)
Theorem dataset_raises_on_unnamed_tag :
  forall (ckandict : dict) tags,
    dict_has "extras" ckandict = false ->
    dict_get "tags" ckandict = Some (VList (map VDict tags)) ->
    Exists (fun tag => dict_get "name" tag = None) tags ->
    dataset ckandict = Raise KeyError.
Proof.
  intros ckandict tags He Ht Hex.
  destruct (map_keys_dataset_total ckandict) as [o2 Ho2].
  rewrite dataset_unfold, (expand_extras_absent _ He). cbn [bind].
  rewrite Ho2. cbn [bind].
  unfold convert_tags, dict_has, dict_getitem. rewrite Ht.
  cbn [bind py_iter]. now rewrite (map_result_name_missing _ Hex).
Qed.

(** X12: when the resources of the record, extras expanded, are a list
    of records and [dataset] returns, [resource] returned on each of
    these records, and the resources of the output are the records it
    returned, in their order. *)
Theorem dataset_converts_resources :
  forall (ckandict fields outdict : dict) ds,
    expand_extras ckandict ckandict = Ok fields ->
    dict_get "resources" fields = Some (VList (map VDict ds)) ->
    dataset ckandict = Ok outdict ->
    exists rs,
      Forall2 (fun d r => resource d = Ok r) ds rs
      /\ dict_get "resources" outdict = Some (VList (map VDict rs)).
Proof.
  intros ckandict fields outdict ds Hf Hr H.
  destruct (dataset_before_tail _ _ _ Hf H) as (o5 & Htail & H5).
  assert (Hr5 : dict_get "resources" o5 = Some (VList (map VDict ds))).
  { now rewrite H5. }
  unfold dataset_tail in Htail.
  bind_inv Htail as o6 Ho6. bind_inv Htail as o8 Ho8.
  injection Htail as <-.
  unfold convert_resources, dict_has, dict_getitem in Ho6.
  rewrite Hr5 in Ho6. cbn [bind py_iter] in Ho6.
  bind_inv Ho6 as converted Hc. injection Ho6 as <-.
  destruct (map_result_resource_of_ok _ _ Hc) as (rs & Hrs & ->).
  exists rs. split; [exact Hrs|].
  rewrite dict_get_strip_nulls, dict_get_del.
  cbn [String.eqb Ascii.eqb Bool.eqb].
  rewrite (extras_licenses_frame _ _ _ "resources" Ho8) by discriminate.
  rewrite synth_license_frame by reflexivity.
  now rewrite dict_get_set_eq.
Qed.

Lemma synth_license_get (o : dict) :
  dict_get "licenses" (synth_license o)
  = if existsb (fun key => dict_has key o)
         ["license_id"; "license_title"; "license_url"]
    then Some (VList [license_entry o])
    else dict_get "licenses" o.
Proof.
  unfold synth_license. rewrite dict_get_pop_keys.
  change (key_in "licenses" ["license_id"; "license_title"; "license_url"])
    with false. cbv iota.
  destruct (existsb _ _); [|reflexivity].
  rewrite dict_get_set_eq. unfold license_entry, dict_has, dict_get_default.
  destruct (dict_get "license_id" o), (dict_get "license_title" o),
    (dict_get "license_url" o); reflexivity.
Qed.

Lemma dataset_license_get :
  forall (ckandict outdict : dict),
    truthy (dict_get_default "extras" ckandict) = false ->
    dataset ckandict = Ok outdict ->
    dict_get "licenses" outdict
    = if existsb (fun key => dict_has key ckandict)
           ["license_id"; "license_title"; "license_url"]
      then Some (VList [license_entry ckandict])
      else drop_none (dict_get "licenses" ckandict).
Proof.
  intros ckandict outdict Hx H.
  destruct (dataset_fields _ _ H) as [fields Hf].
  destruct (dataset_before_tail _ _ _ Hf H) as (o5 & Htail & H5).
  assert (Hc : forall k,
             In k ["licenses"; "license_id"; "license_title"; "license_url"] ->
             dict_get k o5 = dict_get k ckandict).
  { intros k Hk. rewrite H5.
    - apply (expand_extras_falsy _ _ _ Hx Hf).
      simpl in Hk. repeat (destruct Hk as [<-|Hk]; [discriminate|]).
      contradiction.
    - simpl in Hk. repeat (destruct Hk as [<-|Hk]; [reflexivity|]).
      contradiction. }
  unfold dataset_tail in Htail.
  bind_inv Htail as o6 Ho6. bind_inv Htail as o8 Ho8.
  injection Htail as <-.
  unfold extras_licenses in Ho8. rewrite Hx in Ho8. injection Ho8 as <-.
  assert (H6 : forall k,
             In k ["licenses"; "license_id"; "license_title"; "license_url"] ->
             dict_get k o6 = dict_get k ckandict).
  { intros k Hk. rewrite <- (Hc k Hk).
    apply (convert_resources_frame _ _ _ Ho6).
    simpl in Hk. repeat (destruct Hk as [<-|Hk]; [discriminate|]).
    contradiction. }
  rewrite dict_get_strip_nulls, dict_get_del.
  cbn [String.eqb Ascii.eqb Bool.eqb]. rewrite synth_license_get.
  unfold license_entry, dict_has. cbn [existsb].
  rewrite !H6 by (simpl; tauto).
  destruct (dict_get "license_id" ckandict),
    (dict_get "license_title" ckandict),
    (dict_get "license_url" ckandict); reflexivity.
Qed.

(** X13: for a record whose extras are absent or empty and on which
    [dataset] returns: when the record has one of license_id,
    license_title and license_url, the licenses of the output are the
    one entry made of name, title and path, in this order, each taken
    from the field that is there, and a licenses field of the input is
    replaced; when it has none of the three, its licenses field passes
    through. *)
Theorem dataset_license_from_fields :
  forall (ckandict outdict : dict),
    truthy (dict_get_default "extras" ckandict) = false ->
    dataset ckandict = Ok outdict ->
    dict_get "licenses" outdict
    = if existsb (fun key => dict_has key ckandict)
           ["license_id"; "license_title"; "license_url"]
      then Some (VList [license_entry ckandict])
      else drop_none (dict_get "licenses" ckandict).
Proof. exact dataset_license_get. Qed.


End DatasetFields.

(** The theorem at the second record of [test_dataset_license], with a
    licenses field and empty extras. *)
Lemma dataset_license_from_fields_witness :
  let ckandict :=
    [("licenses", VStr "old"); ("extras", VList []);
     ("license_id", VStr "cc-by");
     ("license_url", VStr "http://www.opendefinition.org/licenses/cc-by")] in
  let licenses :=
    VList [VDict [("name", VStr "cc-by");
                  ("path",
                   VStr "http://www.opendefinition.org/licenses/cc-by")]] in
  dataset ckandict = Ok [("licenses", licenses)]
  /\ dict_get "licenses" [("licenses", licenses)] = Some licenses.
Proof.
  intros ckandict licenses. split; [reflexivity|].
  apply (dataset_license_from_fields ckandict); reflexivity.
Defined.

(** The theorem at the record of [test_resources_are_converted]. *)
Lemma dataset_returns_witness :
  exists outdict,
    dataset [("name", VStr "gdp");
             ("resources",
              VList (map VDict [[("id", VStr "1234")]; [("id", VStr "12345")]]))]
    = Ok outdict.
Proof.
  apply (dataset_returns
           [("name", VStr "gdp");
            ("resources",
             VList (map VDict [[("id", VStr "1234")];
                               [("id", VStr "12345")]]))]);
    [reflexivity|reflexivity|].
  right. exists [[("id", VStr "1234")]; [("id", VStr "12345")]].
  split; [reflexivity|].
  repeat constructor; eexists; reflexivity.
Defined.

(** The theorem at the record of [test_dataset_tags], with keywords in
    the input. *)
Lemma dataset_tags_to_keywords_witness :
  let items :=
    [VDict [("display_name", VStr "economy"); ("name", VStr "economy")];
     VDict [("name", VStr "worldbank"); ("state", VStr "active")]] in
  let ckandict := [("keywords", VStr "old"); ("tags", VList items)] in
  dataset ckandict = Ok [("keywords", VList [VStr "economy"; VStr "worldbank"])]
  /\ dict_get "tags" [("keywords", VList [VStr "economy"; VStr "worldbank"])]
     = None.
Proof.
  intros items ckandict. split; [reflexivity|].
  apply (dataset_tags_to_keywords ckandict _ items); reflexivity.
Defined.

(** The theorem at a record whose second tag has only a display name. *)
Lemma dataset_raises_on_unnamed_tag_witness :
  dataset [("tags",
            VList (map VDict [[("name", VStr "economy")];
                              [("display_name", VStr "gdp")]]))]
  = Raise KeyError.
Proof.
  apply (dataset_raises_on_unnamed_tag _
           [[("name", VStr "economy")]; [("display_name", VStr "gdp")]]);
    [reflexivity|reflexivity|].
  apply Exists_cons_tl, Exists_cons_hd. reflexivity.
Defined.

(** The theorem at the record of [test_resources_are_converted]. *)
Lemma dataset_converts_resources_witness :
  let ds := [[("id", VStr "1234"); ("url", VStr "http://someplace.com/data.csv")];
             [("id", VStr "12345"); ("state", VStr "active")]] in
  let ckandict := [("name", VStr "gdp"); ("resources", VList (map VDict ds))] in
  dataset ckandict
  = Ok [("name", VStr "gdp");
        ("resources",
         VList [VDict [("id", VStr "1234");
                       ("path", VStr "http://someplace.com/data.csv")];
                VDict [("id", VStr "12345")]])]
  /\ exists rs,
       Forall2 (fun d r => resource d = Ok r) ds rs
       /\ dict_get "resources"
            [("name", VStr "gdp");
             ("resources",
              VList [VDict [("id", VStr "1234");
                            ("path", VStr "http://someplace.com/data.csv")];
                     VDict [("id", VStr "12345")]])]
          = Some (VList (map VDict rs)).
Proof.
  intros ds ckandict. split; [reflexivity|].
  apply (dataset_converts_resources (lim := default_limits)
           ckandict ckandict _ ds); reflexivity.
Defined.

(** ** [dataset]: the licenses entry of the extras *)

Section DatasetLicenses.

Context {lim : limits}.

Lemma find_licenses_first s rest :
  find_licenses
    (VDict [("key", VStr "licenses"); ("value", VStr s)] :: rest)
  = (licenses_dict <- json.loads_str s ;;
     licenses_list <- method_get licenses_dict "licenses" ;;
     Ok (Some licenses_list)).
Proof. reflexivity. Qed.

Lemma extras_licenses_first (ckandict o : dict) s rest :
  dict_get "extras" ckandict
  = Some (VList (VDict [("key", VStr "licenses"); ("value", VStr s)] :: rest)) ->
  extras_licenses ckandict o
  = (licenses_dict <- json.loads_str s ;;
     licenses_list <- method_get licenses_dict "licenses" ;;
     licenses <- py_iter licenses_list ;;
     add_licenses licenses o).
Proof.
  intros He. unfold extras_licenses, dict_get_default, dict_getitem.
  rewrite He. cbn [truthy bind py_iter]. rewrite find_licenses_first.
  destruct (json.loads_str s) as [v|e]; [|reflexivity]. cbn [bind].
  destruct (method_get v "licenses"); reflexivity.
Qed.

Lemma dataset_reaches_extras_licenses (ckandict outdict : dict) :
  dataset ckandict = Ok outdict ->
  exists o7 o8, extras_licenses ckandict o7 = Ok o8.
Proof.
  intros H. rewrite dataset_unfold in H.
  bind_inv H as o1 Ho1. bind_inv H as o2 Ho2. bind_inv H as o3 Ho3.
  unfold dataset_tail in H. bind_inv H as o6 Ho6. bind_inv H as o8 Ho8.
  eauto.
Qed.

(** X27: [dataset] raises on every record whose extras are a list that
    starts with an entry of key licenses whose value is a string that
    decodes to anything but a JSON object (a JSON array of licenses, for
    one): the search for additional licenses calls [get] on the decoded
    value. *)
Theorem dataset_raises_on_license_array :
  forall (ckandict : dict) s rest v,
    dict_get "extras" ckandict
    = Some (VList (VDict [("key", VStr "licenses"); ("value", VStr s)]
                   :: rest)) ->
    json.loads_str s = Ok v ->
    (forall d, v <> VDict d) ->
    exists e, dataset ckandict = Raise e.
Proof.
  intros ckandict s rest v He Hs Hv.
  destruct (dataset ckandict) as [outdict|e] eqn:H; [exfalso|eauto].
  destruct (dataset_reaches_extras_licenses _ _ H) as (o7 & o8 & H8).
  rewrite (extras_licenses_first _ _ _ _ He), Hs in H8. cbn [bind] in H8.
  destruct v; try discriminate H8. now apply (Hv d).
Qed.

Lemma copy_field_get k license (lo lo' : dict) k' :
  copy_field k license lo = Ok lo' ->
  k' <> k -> dict_get k' lo' = dict_get k' lo.
Proof.
  unfold copy_field. intros H Hne. bind_inv H as present Hp.
  destruct present; [|now injection H as <-].
  bind_inv H as v Hv. injection H as <-. now apply dict_get_set_ne.
Qed.

Lemma add_licenses_extends licenses_list : forall (o o' : dict) old,
  dict_get "licenses" o = Some (VList old) ->
  add_licenses licenses_list o = Ok o' ->
  exists added,
    dict_get "licenses" o' = Some (VList (old ++ added))
    /\ Forall license_fields_only added.
Proof.
  induction licenses_list as [|license rest IH]; intros o o' old Ho H;
    cbn [add_licenses] in H.
  - injection H as <-. exists []. rewrite app_nil_r. auto.
  - bind_inv H as lo1 H1. bind_inv H as lo2 H2. bind_inv H as lo3 H3.
    bind_inv H as licenses Hl. bind_inv H as there Ht.
    bind_inv H as o1 Ho1.
    unfold dict_getitem in Hl. rewrite Ho in Hl. injection Hl as <-.
    destruct there.
    + injection Ho1 as <-. now apply (IH o o' old).
    + cbn [method_append bind] in Ho1. injection Ho1 as <-.
      destruct (IH _ o' _ (dict_get_set_eq _ _ _) H) as (added & Ha & Hall).
      exists (VDict lo3 :: added). split.
      * rewrite Ha. now rewrite <- app_assoc.
      * constructor; [|exact Hall].
        exists lo3. split; [reflexivity|].
        intros k Hk. key_not_in Hk.
        rewrite (copy_field_get _ _ _ _ k H3) by assumption.
        rewrite (copy_field_get _ _ _ _ k H2) by assumption.
        now rewrite (copy_field_get _ _ _ _ k H1) by assumption.
Qed.

Lemma extras_licenses_extends (ckandict o o' : dict) old :
  dict_get "licenses" o = Some (VList old) ->
  extras_licenses ckandict o = Ok o' ->
  exists added,
    dict_get "licenses" o' = Some (VList (old ++ added))
    /\ Forall license_fields_only added.
Proof.
  unfold extras_licenses. intros Ho H.
  destruct (truthy (dict_get_default "extras" ckandict)).
  - bind_inv H as extras He. bind_inv H as items Hi.
    bind_inv H as found Hf. destruct found as [licenses_list|].
    + bind_inv H as licenses Hl.
      now apply (add_licenses_extends licenses o o' old).
    + injection H as <-. exists []. rewrite app_nil_r. auto.
  - injection H as <-. exists []. rewrite app_nil_r. auto.
Qed.

(** X28: when the record, extras expanded, has one of license_id,
    license_title and license_url and [dataset] returns, the licenses of
    the output are a list that starts with the entry made of these
    fields; the entries after it, taken from the licenses entry of the
    extras, have no key other than name, title and path. *)
Theorem dataset_license_entry_first :
  forall (ckandict fields outdict : dict),
    expand_extras ckandict ckandict = Ok fields ->
    existsb (fun key => dict_has key fields)
      ["license_id"; "license_title"; "license_url"] = true ->
    dataset ckandict = Ok outdict ->
    exists added,
      dict_get "licenses" outdict
      = Some (VList (license_entry fields :: added))
      /\ Forall license_fields_only added.
Proof.
  intros ckandict fields outdict Hf Hx H.
  destruct (dataset_before_tail _ _ _ Hf H) as (o5 & Htail & H5).
  unfold dataset_tail in Htail.
  bind_inv Htail as o6 Ho6. bind_inv Htail as o8 Ho8.
  injection Htail as <-.
  assert (H6 : forall k,
             In k ["license_id"; "license_title"; "license_url"] ->
             dict_get k o6 = dict_get k fields).
  { intros k Hk. rewrite <- H5.
    - apply (convert_resources_frame _ _ _ Ho6).
      simpl in Hk. repeat (destruct Hk as [<-|Hk]; [discriminate|]).
      contradiction.
    - simpl in Hk. repeat (destruct Hk as [<-|Hk]; [reflexivity|]).
      contradiction. }
  assert (H7 : dict_get "licenses" (synth_license o6)
               = Some (VList ([license_entry fields] ++ []))).
  { rewrite synth_license_get. unfold license_entry, dict_has in *.
    cbn [existsb] in *. rewrite !H6 by (simpl; tauto).
    now rewrite Hx. }
  destruct (extras_licenses_extends _ _ _ _ H7 Ho8) as (added & Ha & Hall).
  exists added. split; [|exact Hall].
  rewrite dict_get_strip_nulls, dict_get_del.
  cbn [String.eqb Ascii.eqb Bool.eqb]. now rewrite Ha.
Qed.

Lemma copy_field_record k (license lo : dict) :
  exists lo', copy_field k (VDict license) lo = Ok lo'.
Proof.
  unfold copy_field. cbn [py_contains bind getitem].
  unfold dict_has, dict_getitem.
  destruct (dict_get k license); cbn [bind]; eauto.
Qed.

(** X29: [dataset] raises on every record that has none of license_id,
    license_title and license_url and whose extras are the one entry of
    key licenses, its value a JSON object whose licenses are a list that
    starts with an object: the extras give the record a licenses field
    that is a dictionary, and the test for a duplicate looks the new
    license up in it. *)
Theorem dataset_raises_on_extras_licenses_alone :
  forall (ckandict : dict) s d license more,
    dict_get "extras" ckandict
    = Some (VList [VDict [("key", VStr "licenses"); ("value", VStr s)]]) ->
    existsb (fun key => dict_has key ckandict)
      ["license_id"; "license_title"; "license_url"] = false ->
    json.loads_str s = Ok (VDict d) ->
    dict_get "licenses" d = Some (VList (VDict license :: more)) ->
    exists e, dataset ckandict = Raise e.
Proof.
  intros ckandict s d license more He Hx Hs Hd.
  destruct (dataset ckandict) as [outdict|e] eqn:H; [exfalso|eauto].
  destruct (dataset_fields _ _ H) as [fields Hf].
  destruct (dataset_before_tail _ _ _ Hf H) as (o5 & Htail & H5).
  unfold dataset_tail in Htail.
  bind_inv Htail as o6 Ho6. bind_inv Htail as o8 Ho8. clear Htail.
  assert (Hfl : dict_get "licenses" fields = Some (VDict d)).
  { rewrite (expand_extras_list _ _ _ _ He Hf) by discriminate.
    cbn [last_extra dict_get String.eqb Ascii.eqb Bool.eqb].
    cbn [json.loads]. now rewrite Hs. }
  assert (Hfk : forall k,
             In k ["license_id"; "license_title"; "license_url"] ->
             dict_get k fields = dict_get k ckandict).
  { intros k Hk. simpl in Hk.
    repeat (destruct Hk as [<-|Hk];
            [now rewrite (expand_extras_list _ _ _ _ He Hf) by discriminate|]).
    contradiction. }
  assert (H6 : forall k,
             In k ["licenses"; "license_id"; "license_title"; "license_url"] ->
             dict_get k o6 = dict_get k fields).
  { intros k Hk. rewrite <- H5.
    - apply (convert_resources_frame _ _ _ Ho6).
      simpl in Hk. repeat (destruct Hk as [<-|Hk]; [discriminate|]).
      contradiction.
    - simpl in Hk. repeat (destruct Hk as [<-|Hk]; [reflexivity|]).
      contradiction. }
  assert (H7 : dict_get "licenses" (synth_license o6) = Some (VDict d)).
  { rewrite synth_license_get. unfold dict_has in *. cbn [existsb] in *.
    rewrite !H6, !Hfk by (simpl; tauto). rewrite Hx.
    exact Hfl. }
  rewrite (extras_licenses_first _ _ _ _ He), Hs in Ho8.
  cbn [bind method_get] in Ho8. unfold dict_get_default in Ho8.
  rewrite Hd in Ho8. cbn [bind py_iter add_licenses] in Ho8.
  destruct (copy_field_record "name" license []) as [lo1 E1].
  rewrite E1 in Ho8. cbn [bind] in Ho8.
  destruct (copy_field_record "title" license lo1) as [lo2 E2].
  rewrite E2 in Ho8. cbn [bind] in Ho8.
  destruct (copy_field_record "path" license lo2) as [lo3 E3].
  rewrite E3 in Ho8. cbn [bind] in Ho8.
  unfold dict_getitem in Ho8. rewrite H7 in Ho8.
  discriminate Ho8.
Qed.

End DatasetLicenses.

(** The theorem at the record of
    [test_dataset_license_with_licenses_in_extras], shortened to one
    license. *)
Lemma dataset_raises_on_license_array_witness :
  let s := q "[{'name': 'cc-by', 'title': 'Creative Commons Attribution'}]" in
  let ckandict :=
    [("license_id", VStr "odc-odbl");
     ("extras",
      VList [VDict [("key", VStr "licenses"); ("value", VStr s)]])] in
  exists e, dataset ckandict = Raise e.
Proof.
  intros s ckandict.
  apply (dataset_raises_on_license_array ckandict s []
           (VList [VDict [("name", VStr "cc-by");
                          ("title", VStr "Creative Commons Attribution")]]));
    [reflexivity|reflexivity|discriminate].
Defined.

(** The theorem at a record with a license_id and two licenses in the
    extras, the second of which is the one of the license_id. *)
Lemma dataset_license_entry_first_witness :
  let s := q "{'licenses': [{'name': 'cc-by', 'id': 1}, {'name': 'odc-odbl'}]}" in
  let ckandict :=
    [("license_id", VStr "odc-odbl");
     ("extras",
      VList [VDict [("key", VStr "licenses"); ("value", VStr s)]])] in
  exists fields outdict added,
    expand_extras ckandict ckandict = Ok fields
    /\ dataset ckandict = Ok outdict
    /\ dict_get "licenses" outdict
       = Some (VList (license_entry fields :: added))
    /\ Forall license_fields_only added.
Proof.
  intros s ckandict.
  destruct (expand_extras ckandict ckandict) as [fields|] eqn:Hf;
    [|discriminate Hf].
  destruct (dataset ckandict) as [outdict|] eqn:H; [|discriminate H].
  assert (Hx : existsb (fun key => dict_has key fields)
                 ["license_id"; "license_title"; "license_url"] = true).
  { injection Hf as <-. reflexivity. }
  destruct (dataset_license_entry_first ckandict fields outdict Hf Hx H)
    as (added & Ha).
  exists fields, outdict, added. auto.
Defined.

(** The theorem at a record with a name and the licenses entry. *)
Lemma dataset_raises_on_extras_licenses_alone_witness :
  let s := q "{'licenses': [{'name': 'cc-by'}]}" in
  let ckandict :=
    [("name", VStr "gdp");
     ("extras",
      VList [VDict [("key", VStr "licenses"); ("value", VStr s)]])] in
  exists e, dataset ckandict = Raise e.
Proof.
  intros s ckandict.
  apply (dataset_raises_on_extras_licenses_alone ckandict s
           [("licenses", VList [VDict [("name", VStr "cc-by")]])]
           [("name", VStr "cc-by")] []);
    reflexivity.
Defined.

(** ** [package]: what it keeps and what it removes *)

Lemma package_steps (slugify : value -> result string) (P D : dict) :
  package slugify P = Ok D ->
  exists o1 o2 o3 o4,
    frictionless_to_ckan.map_keys package_mapping P P = Ok o1
    /\ collapse_licenses o1 = Ok o2
    /\ collapse_sources o2 = Ok o3
    /\ collapse_contributors o3 = Ok o4
    /\ convert_keywords slugify o4 = Ok D.
Proof.
  unfold package. intros H.
  bind_inv H as o1 Ho1. bind_inv H as o2 Ho2. bind_inv H as o3 Ho3.
  bind_inv H as o4 Ho4. exists o1, o2, o3, o4. auto.
Qed.

Lemma collapse_licenses_own (o o' : dict) :
  collapse_licenses o = Ok o' ->
  dict_get "licenses" o'
  = if truthy (dict_get_default "licenses" o) then None
    else dict_get "licenses" o.
Proof.
  unfold collapse_licenses. intros H.
  destruct (truthy (dict_get_default "licenses" o)).
  - repeat (let x := fresh "x" in let Hx := fresh "Hx" in bind_inv H as x Hx).
    apply dict_delitem_ok in H. subst. apply dict_get_del_eq.
  - now injection H as <-.
Qed.

Lemma collapse_sources_own (o o' : dict) :
  collapse_sources o = Ok o' ->
  dict_get "sources" o'
  = if truthy (dict_get_default "sources" o) then None
    else dict_get "sources" o.
Proof.
  unfold collapse_sources. intros H.
  destruct (truthy (dict_get_default "sources" o)).
  - repeat (let x := fresh "x" in let Hx := fresh "Hx" in bind_inv H as x Hx).
    apply dict_delitem_ok in H. subst. apply dict_get_del_eq.
  - now injection H as <-.
Qed.

Lemma collapse_contributors_own (o o' : dict) :
  collapse_contributors o = Ok o' ->
  dict_get "contributors" o'
  = if truthy (dict_get_default "contributors" o) then None
    else dict_get "contributors" o.
Proof.
  unfold collapse_contributors. intros H.
  destruct (truthy (dict_get_default "contributors" o)).
  - repeat (let x := fresh "x" in let Hx := fresh "Hx" in bind_inv H as x Hx).
    apply dict_delitem_ok in H. subst. apply dict_get_del_eq.
  - now injection H as <-.
Qed.

Lemma convert_keywords_own slugify (o o' : dict) :
  convert_keywords slugify o = Ok o' ->
  dict_get "keywords" o'
  = if truthy (dict_get_default "keywords" o) then None
    else dict_get "keywords" o.
Proof.
  unfold convert_keywords. intros H.
  destruct (truthy (dict_get_default "keywords" o)).
  - repeat (let x := fresh "x" in let Hx := fresh "Hx" in bind_inv H as x Hx).
    apply dict_delitem_ok in H. subst. apply dict_get_del_eq.
  - now injection H as <-.
Qed.

(** X14: a record returned by [package] has neither description nor
    homepage, and each of licenses, sources, contributors and keywords
    is absent from it when it was non-empty in the input, and as in the
    input when it was empty or absent. *)
Theorem package_removes_collapsed_fields :
  forall (slugify : value -> result string) (P D : dict),
    package slugify P = Ok D ->
    dict_get "description" D = None
    /\ dict_get "homepage" D = None
    /\ forall k,
         In k ["licenses"; "sources"; "contributors"; "keywords"] ->
         dict_get k D
         = if truthy (dict_get_default k P) then None else dict_get k P.
Proof.
  intros slugify P D H.
  destruct (package_output _ _ _ H) as (Hd & Hh & _).
  split; [exact Hd|]. split; [exact Hh|].
  destruct (package_steps _ _ _ H) as (o1 & o2 & o3 & o4 & H1 & H2 & H3 & H4 & H5).
  pose proof (collapse_licenses_own _ _ H2) as L.
  pose proof (collapse_sources_own _ _ H3) as S.
  pose proof (collapse_contributors_own _ _ H4) as C.
  pose proof (convert_keywords_own _ _ _ H5) as K.
  apply collapse_licenses_spec in H2. destruct H2 as [F2 _].
  apply collapse_sources_spec in H3. destruct H3 as [F3 _].
  apply collapse_contributors_spec in H4. destruct H4 as [F4 _].
  apply convert_keywords_spec in H5. destruct H5 as [F5 _].
  pose proof (fun k Hk => map_keys_package_frame _ _ _ k H1 Hk) as F1.
  intros k Hk. simpl in Hk.
  destruct Hk as [<-|[<-|[<-|[<-|[]]]]].
  - rewrite F5, F4, F3, L by reflexivity.
    rewrite (dict_get_default_ext o1 P) by now apply F1.
    now rewrite F1.
  - rewrite F5, F4, S by reflexivity.
    rewrite (dict_get_default_ext o2 P) by now rewrite F2, F1.
    now rewrite F2, F1.
  - rewrite F5, C by reflexivity.
    rewrite (dict_get_default_ext o3 P) by now rewrite F3, F2, F1.
    now rewrite F3, F2, F1.
  - rewrite K.
    rewrite (dict_get_default_ext o4 P) by now rewrite F4, F3, F2, F1.
    now rewrite F4, F3, F2, F1.
Qed.

(** The theorem at a record with a description, non-empty licenses and
    empty keywords. *)
Lemma package_removes_collapsed_fields_witness :
  let P := [("description", VStr "d");
            ("licenses", VList [VDict [("type", VStr "cc-by")]]);
            ("keywords", VList [])] in
  let D := [("keywords", VList []); ("notes", VStr "d");
            ("license_id", VStr "cc-by")] in
  package plain_slugify P = Ok D
  /\ dict_get "description" D = None
  /\ dict_get "licenses" D = None
  /\ dict_get "keywords" D = Some (VList []).
Proof.
  intros P D.
  assert (H : package plain_slugify P = Ok D) by reflexivity.
  split; [exact H|].
  pose proof (package_removes_collapsed_fields plain_slugify P D H)
    as (Hd & _ & Hk).
  split; [exact Hd|]. split.
  - apply (Hk "licenses"). simpl. tauto.
  - apply (Hk "keywords"). simpl. tauto.
Defined.

(** X15: a key that no step of [package] names passes through: the
    output holds the value of the input under the same key, a null value
    included, and has the key only if the input has it.  No such key is
    moved to extras. *)
Theorem package_passes_other_keys :
  forall (slugify : value -> result string) (P D : dict) k,
    package slugify P = Ok D ->
    key_in k package_keys = false ->
    dict_get k D = dict_get k P.
Proof.
  intros slugify P D k H Hk.
  destruct (package_steps _ _ _ H) as (o1 & o2 & o3 & o4 & H1 & H2 & H3 & H4 & H5).
  apply collapse_licenses_spec in H2. destruct H2 as [F2 _].
  apply collapse_sources_spec in H3. destruct H3 as [F3 _].
  apply collapse_contributors_spec in H4. destruct H4 as [F4 _].
  apply convert_keywords_spec in H5. destruct H5 as [F5 _].
  unfold key_in, package_keys in Hk. cbn [existsb] in Hk.
  repeat match type of Hk with
         | (String.eqb k ?s || _) = false =>
             let E := fresh "E" in
             destruct (String.eqb k s) eqn:E; [discriminate|];
             cbn [orb] in Hk
         end.
  rewrite F5, F4, F3, F2
    by (unfold key_in; cbn [existsb];
        rewrite ?E, ?E0, ?E1, ?E2, ?E3, ?E4, ?E5, ?E6, ?E7, ?E8, ?E9,
          ?E10, ?E11, ?E12, ?E13, ?E14; reflexivity).
  apply (map_keys_package_frame _ _ _ _ H1).
  unfold key_in. cbn [existsb]. now rewrite E, E0, E1, E2.
Qed.

(** The theorem at a record with a null version and a key of no
    schema. *)
Lemma package_passes_other_keys_witness :
  let P := [("custom", VStr "hello"); ("version", VNone);
            ("homepage", VStr "h")] in
  let D := [("custom", VStr "hello"); ("version", VNone); ("url", VStr "h")] in
  package plain_slugify P = Ok D
  /\ dict_get "custom" D = dict_get "custom" P
  /\ dict_get "version" D = dict_get "version" P.
Proof.
  intros P D. split; [reflexivity|]. split.
  - apply (package_passes_other_keys plain_slugify P D "custom"); reflexivity.
  - apply (package_passes_other_keys plain_slugify P D "version"); reflexivity.
Defined.

(** ** [package]: renamed and collapsed fields *)

Lemma copy_if_set_get first src dst (o o' : dict) :
  copy_if_set (VDict first) src dst o = Ok o' ->
  dict_get dst o'
  = if truthy (dict_get_default src first) then dict_get src first
    else dict_get dst o.
Proof.
  unfold copy_if_set. cbn [method_get bind getitem]. unfold dict_getitem.
  destruct (truthy (dict_get_default src first)).
  - destruct (dict_get src first) as [y|]; [|discriminate].
    cbn [bind]. intros H. injection H as <-. apply dict_get_set_eq.
  - intros H. now injection H as <-.
Qed.

Lemma collapse_sources_falsy (o o' : dict) :
  truthy (dict_get_default "sources" o) = false ->
  collapse_sources o = Ok o' -> o' = o.
Proof. unfold collapse_sources. intros ->. congruence. Qed.

(** X16: when the record has a description and [package] returns, the
    notes of the output are the description, whatever the record held
    under notes; when it has a homepage and its sources are empty or
    absent, the url of the output is the homepage. *)
Theorem package_renames :
  forall (slugify : value -> result string) (P D : dict),
    package slugify P = Ok D ->
    (dict_has "description" P = true ->
     dict_get "notes" D = dict_get "description" P)
    /\ (dict_has "homepage" P = true ->
        truthy (dict_get_default "sources" P) = false ->
        dict_get "url" D = dict_get "homepage" P).
Proof.
  intros slugify P D H.
  destruct (package_steps _ _ _ H) as (o1 & o2 & o3 & o4 & H1 & H2 & H3 & H4 & H5).
  pose proof H3 as H3'.
  apply collapse_licenses_spec in H2. destruct H2 as [F2 _].
  apply collapse_sources_spec in H3. destruct H3 as [F3 _].
  apply collapse_contributors_spec in H4. destruct H4 as [F4 _].
  apply convert_keywords_spec in H5. destruct H5 as [F5 _].
  split.
  - intros Hd. rewrite F5, F4, F3, F2 by reflexivity.
    rewrite (map_keys_package_get _ _ _ "notes" H1).
    cbn [String.eqb Ascii.eqb Bool.eqb]. now rewrite Hd.
  - intros Hh Hs. rewrite F5, F4 by reflexivity.
    assert (Hs2 : truthy (dict_get_default "sources" o2) = false).
    { rewrite (dict_get_default_ext o2 P); [assumption|].
      rewrite F2 by reflexivity.
      now apply (map_keys_package_frame _ _ _ _ H1). }
    rewrite (collapse_sources_falsy _ _ Hs2 H3').
    rewrite F2 by reflexivity.
    rewrite (map_keys_package_get _ _ _ "url" H1).
    cbn [String.eqb Ascii.eqb Bool.eqb]. now rewrite Hh.
Qed.

(** The theorem at the record of [test_basic_mappings], with notes and
    url in the input. *)
Lemma package_renames_witness :
  let P := [("notes", VStr "old"); ("url", VStr "old");
            ("description", VStr "Country, regional and world GDP");
            ("homepage", VStr "https://datopian.com")] in
  let D := [("notes", VStr "Country, regional and world GDP");
            ("url", VStr "https://datopian.com")] in
  package plain_slugify P = Ok D
  /\ dict_get "notes" D = dict_get "description" P
  /\ dict_get "url" D = dict_get "homepage" P.
Proof.
  intros P D.
  assert (H : package plain_slugify P = Ok D) by reflexivity.
  split; [exact H|].
  pose proof (package_renames plain_slugify P D H) as (Hn & Hu).
  split; [apply Hn|apply Hu]; reflexivity.
Defined.

Lemma collapse_licenses_fields (o o' : dict) first rest :
  dict_get "licenses" o = Some (VList (VDict first :: rest)) ->
  collapse_licenses o = Ok o' ->
  dict_get "license_id" o' = dict_get "type" first
  /\ dict_get "license_title" o'
     = if truthy (dict_get_default "title" first) then dict_get "title" first
       else dict_get "license_title" o.
Proof.
  intros Hl H. unfold collapse_licenses, dict_get_default, dict_getitem in H.
  rewrite Hl in H. cbn [truthy bind getitem0 getitem] in H.
  unfold dict_getitem in H.
  destruct (dict_get "type" first) as [t|] eqn:Ht; [|discriminate].
  cbn [bind] in H. bind_inv H as o1 Ho1. bind_inv H as n Hn.
  bind_inv H as o2 Ho2. apply dict_delitem_ok in H. subst o'.
  assert (Hframe : forall k, k <> "extras" -> dict_get k o2 = dict_get k o1).
  { intros k Hk. destruct (Nat.ltb 1 n).
    - now apply (archive_frame _ _ _ _ _ Ho2).
    - now injection Ho2 as <-. }
  rewrite !dict_get_del_ne, !Hframe by discriminate. split.
  - rewrite (copy_if_set_frame _ _ _ _ _ _ Ho1) by discriminate.
    apply dict_get_set_eq.
  - rewrite (copy_if_set_get _ _ _ _ _ Ho1).
    destruct (truthy _); [reflexivity|]. now apply dict_get_set_ne.
Qed.

(** X17: when the licenses of the record are a list whose first element
    is a record and [package] returns: the license_id of the output is
    the type of that first license; its license_title is the title of
    the first license when that title is non-empty, and the
    license_title of the input otherwise; and the output has no licenses
    key. *)
Theorem package_collapses_licenses :
  forall (slugify : value -> result string) (P D : dict) first rest,
    dict_get "licenses" P = Some (VList (VDict first :: rest)) ->
    package slugify P = Ok D ->
    dict_get "license_id" D = dict_get "type" first
    /\ dict_get "license_title" D
       = (if truthy (dict_get_default "title" first)
          then dict_get "title" first
          else dict_get "license_title" P)
    /\ dict_get "licenses" D = None.
Proof.
  intros slugify P D first rest Hl H.
  destruct (package_steps _ _ _ H) as (o1 & o2 & o3 & o4 & H1 & H2 & H3 & H4 & H5).
  assert (Hl1 : dict_get "licenses" o1 = Some (VList (VDict first :: rest))).
  { now rewrite (map_keys_package_frame _ _ _ "licenses" H1). }
  destruct (collapse_licenses_fields _ _ _ _ Hl1 H2) as [Hid Htitle].
  pose proof (collapse_licenses_own _ _ H2) as Hown.
  unfold dict_get_default in Hown. rewrite Hl1 in Hown. cbn in Hown.
  apply collapse_sources_spec in H3. destruct H3 as [F3 _].
  apply collapse_contributors_spec in H4. destruct H4 as [F4 _].
  apply convert_keywords_spec in H5. destruct H5 as [F5 _].
  rewrite !F5, !F4, !F3 by reflexivity.
  split; [exact Hid|]. split; [|exact Hown].
  rewrite Htitle.
  now rewrite (map_keys_package_frame _ _ _ "license_title" H1).
Qed.

(** The theorem at a record with two licenses. *)
Lemma package_collapses_licenses_witness :
  let first := [("type", VStr "odc-pddl"); ("title", VStr "Open Data")] in
  let rest := [VDict [("type", VStr "cc-zero")]] in
  let P := [("licenses", VList (VDict first :: rest))] in
  exists D,
    package plain_slugify P = Ok D
    /\ dict_get "license_id" D = Some (VStr "odc-pddl")
    /\ dict_get "license_title" D = Some (VStr "Open Data")
    /\ dict_get "licenses" D = None.
Proof.
  intros first rest P.
  destruct (package plain_slugify P) as [D|] eqn:H; [|discriminate H].
  exists D. split; [reflexivity|].
  exact (package_collapses_licenses plain_slugify P D first rest eq_refl H).
Defined.

Lemma package_license_keyerror (slugify : value -> result string) (P : dict)
  first rest :
  dict_get "licenses" P = Some (VList (VDict first :: rest)) ->
  dict_get "type" first = None ->
  package slugify P = Raise KeyError.
Proof.
  intros Hl Ht.
  destruct (map_keys_package_total P) as [o1 H1].
  assert (Hl1 : dict_get "licenses" o1 = Some (VList (VDict first :: rest))).
  { now rewrite (map_keys_package_frame _ _ _ "licenses" H1). }
  unfold package. rewrite H1. cbn [bind].
  unfold collapse_licenses, dict_get_default, dict_getitem.
  rewrite Hl1. cbn [truthy bind getitem0 getitem]. unfold dict_getitem.
  now rewrite Ht.
Qed.

(** X18: when the licenses of the record are a list whose first element
    is a record without the key type, [package] raises KeyError. *)
Theorem package_raises_on_untyped_license :
  forall (slugify : value -> result string) (P : dict) first rest,
    dict_get "licenses" P = Some (VList (VDict first :: rest)) ->
    dict_get "type" first = None ->
    package slugify P = Raise KeyError.
Proof. intros. eapply package_license_keyerror; eassumption. Qed.

(** The theorem at the first record of the package test
    [test_dataset_license], whose license has a name and no type. *)
Lemma package_raises_on_untyped_license_witness :
  package plain_slugify
    [("licenses",
      VList [VDict [("name", VStr "odc-odbl");
                    ("path", VStr "http://example.com/file.csv")]])]
  = Raise KeyError.
Proof.
  apply (package_raises_on_untyped_license plain_slugify _
           [("name", VStr "odc-odbl");
            ("path", VStr "http://example.com/file.csv")] []);
    reflexivity.
Defined.

(** X19: the two converters do not compose on a licensed dataset: for a
    Catalog record whose extras are absent or empty and that has one of
    license_id, license_title and license_url, [package] raises KeyError
    on the record [dataset] returns, since the license entry [dataset]
    builds has a name and no type. *)
Theorem package_raises_on_dataset_license {lim : limits} :
  forall (slugify : value -> result string) (ckandict F : dict),
    truthy (dict_get_default "extras" ckandict) = false ->
    existsb (fun key => dict_has key ckandict)
      ["license_id"; "license_title"; "license_url"] = true ->
    dataset ckandict = Ok F ->
    package slugify F = Raise KeyError.
Proof.
  intros slugify ckandict F Hx Hany H.
  pose proof (dataset_license_get _ _ Hx H) as Hl. rewrite Hany in Hl.
  unfold license_entry in Hl.
  eapply package_license_keyerror; [exact Hl|].
  destruct (dict_get "license_id" ckandict),
    (dict_get "license_title" ckandict),
    (dict_get "license_url" ckandict); reflexivity.
Qed.

(** The theorem at the first record of [test_dataset_license]. *)
Lemma package_raises_on_dataset_license_witness :
  dataset [("license_id", VStr "odc-odbl")]
  = Ok [("licenses", VList [VDict [("name", VStr "odc-odbl")]])]
  /\ package plain_slugify
       [("licenses", VList [VDict [("name", VStr "odc-odbl")]])]
     = Raise KeyError.
Proof.
  split; [reflexivity|].
  apply (package_raises_on_dataset_license plain_slugify
           [("license_id", VStr "odc-odbl")]); reflexivity.
Defined.

Lemma collapse_sources_fields (o o' : dict) first rest :
  dict_get "sources" o = Some (VList (VDict first :: rest)) ->
  collapse_sources o = Ok o' ->
  dict_get "author" o' = dict_get "title" first
  /\ dict_get "author_email" o'
     = (if truthy (dict_get_default "email" first) then dict_get "email" first
        else dict_get "author_email" o)
  /\ dict_get "url" o'
     = (if truthy (dict_get_default "path" first) then dict_get "path" first
        else dict_get "url" o).
Proof.
  intros Hl H. unfold collapse_sources, dict_get_default, dict_getitem in H.
  rewrite Hl in H. cbn [truthy bind getitem0 getitem] in H.
  unfold dict_getitem in H.
  destruct (dict_get "title" first) as [t|] eqn:Ht; [|discriminate].
  cbn [bind] in H. bind_inv H as o1 Ho1. bind_inv H as o2 Ho2.
  bind_inv H as n Hn.
  bind_inv H as o3 Ho3. apply dict_delitem_ok in H. subst o'.
  assert (Hframe : forall k, k <> "extras" -> dict_get k o3 = dict_get k o2).
  { intros k Hk. destruct (Nat.ltb 1 n).
    - now apply (archive_frame _ _ _ _ _ Ho3).
    - now injection Ho3 as <-. }
  rewrite !dict_get_del_ne, !Hframe by discriminate. repeat split.
  - rewrite (copy_if_set_frame _ _ _ _ _ _ Ho2) by discriminate.
    rewrite (copy_if_set_frame _ _ _ _ _ _ Ho1) by discriminate.
    apply dict_get_set_eq.
  - rewrite (copy_if_set_frame _ _ _ _ _ _ Ho2) by discriminate.
    rewrite (copy_if_set_get _ _ _ _ _ Ho1).
    destruct (truthy _); [reflexivity|]. now apply dict_get_set_ne.
  - rewrite (copy_if_set_get _ _ _ _ _ Ho2).
    destruct (truthy _); [reflexivity|].
    rewrite (copy_if_set_frame _ _ _ _ _ _ Ho1) by discriminate.
    now apply dict_get_set_ne.
Qed.

(** X20: when the sources of the record are a list whose first element
    is a record and [package] returns: the author of the output is the
    title of that first source; author_email is its email when that is
    non-empty, and the author_email of the input otherwise; url is its
    path when that is non-empty, also when the record has a homepage,
    and otherwise the homepage of the input or, without one, its url;
    and the output has no sources key. *)
Theorem package_collapses_sources :
  forall (slugify : value -> result string) (P D : dict) first rest,
    dict_get "sources" P = Some (VList (VDict first :: rest)) ->
    package slugify P = Ok D ->
    dict_get "author" D = dict_get "title" first
    /\ dict_get "author_email" D
       = (if truthy (dict_get_default "email" first)
          then dict_get "email" first
          else dict_get "author_email" P)
    /\ dict_get "url" D
       = (if truthy (dict_get_default "path" first)
          then dict_get "path" first
          else if dict_has "homepage" P then dict_get "homepage" P
               else dict_get "url" P)
    /\ dict_get "sources" D = None.
Proof.
  intros slugify P D first rest Hl H.
  destruct (package_steps _ _ _ H) as (o1 & o2 & o3 & o4 & H1 & H2 & H3 & H4 & H5).
  apply collapse_licenses_spec in H2. destruct H2 as [F2 _].
  assert (Hl2 : dict_get "sources" o2 = Some (VList (VDict first :: rest))).
  { rewrite F2 by reflexivity.
    now rewrite (map_keys_package_frame _ _ _ "sources" H1). }
  destruct (collapse_sources_fields _ _ _ _ Hl2 H3) as (Ha & Hae & Hu).
  pose proof (collapse_sources_own _ _ H3) as Hown.
  unfold dict_get_default in Hown. rewrite Hl2 in Hown. cbn in Hown.
  apply collapse_contributors_spec in H4. destruct H4 as [F4 _].
  apply convert_keywords_spec in H5. destruct H5 as [F5 _].
  rewrite !F5, !F4 by reflexivity.
  split; [exact Ha|]. split; [|split; [|exact Hown]].
  - rewrite Hae, F2 by reflexivity.
    now rewrite (map_keys_package_frame _ _ _ "author_email" H1).
  - rewrite Hu, F2 by reflexivity.
    rewrite (map_keys_package_get _ _ _ "url" H1).
    reflexivity.
Qed.

(** The theorem at a record whose only source has a title and a path,
    and that has a homepage. *)
Lemma package_collapses_sources_witness :
  let first := [("title", VStr "World Bank"); ("path", VStr "http://wb")] in
  let P := [("homepage", VStr "http://home");
            ("sources", VList [VDict first])] in
  let D := [("url", VStr "http://wb"); ("author", VStr "World Bank")] in
  package plain_slugify P = Ok D
  /\ dict_get "author" D = Some (VStr "World Bank")
  /\ dict_get "url" D = Some (VStr "http://wb")
  /\ dict_get "sources" D = None.
Proof.
  intros first P D.
  assert (H : package plain_slugify P = Ok D) by reflexivity.
  split; [exact H|].
  pose proof (package_collapses_sources plain_slugify P D first [] eq_refl H)
    as (Ha & _ & Hu & Hs).
  split; [exact Ha|]. split; [exact Hu|exact Hs].
Defined.

Lemma collapse_contributors_fields (o o' : dict) first rest :
  dict_get "contributors" o = Some (VList (VDict first :: rest)) ->
  collapse_contributors o = Ok o' ->
  dict_get "maintainer" o' = dict_get "title" first
  /\ dict_get "maintainer_email" o'
     = (if truthy (dict_get_default "email" first) then dict_get "email" first
        else dict_get "maintainer_email" o).
Proof.
  intros Hl H.
  unfold collapse_contributors, dict_get_default, dict_getitem in H.
  rewrite Hl in H. cbn [truthy bind getitem0 getitem] in H.
  unfold dict_getitem in H.
  destruct (dict_get "title" first) as [t|] eqn:Ht; [|discriminate].
  cbn [bind] in H. bind_inv H as o1 Ho1. bind_inv H as n Hn.
  bind_inv H as o2 Ho2. apply dict_delitem_ok in H. subst o'.
  assert (Hframe : forall k, k <> "extras" -> dict_get k o2 = dict_get k o1).
  { intros k Hk. destruct (Nat.ltb 1 n).
    - now apply (archive_frame _ _ _ _ _ Ho2).
    - bind_inv Ho2 as keys Hkeys. injection Ho2 as <-.
      now apply overflow_loop_frame. }
  rewrite !dict_get_del_ne, !Hframe by discriminate. split.
  - rewrite (copy_if_set_frame _ _ _ _ _ _ Ho1) by discriminate.
    apply dict_get_set_eq.
  - rewrite (copy_if_set_get _ _ _ _ _ Ho1).
    destruct (truthy _); [reflexivity|]. now apply dict_get_set_ne.
Qed.

(** X21: when the contributors of the record are a list whose first
    element is a record and [package] returns: the maintainer of the
    output is the title of that first contributor, whatever its role;
    maintainer_email is its email when that is non-empty, and the
    maintainer_email of the input otherwise; and the output has no
    contributors key. *)
Theorem package_collapses_contributors :
  forall (slugify : value -> result string) (P D : dict) first rest,
    dict_get "contributors" P = Some (VList (VDict first :: rest)) ->
    package slugify P = Ok D ->
    dict_get "maintainer" D = dict_get "title" first
    /\ dict_get "maintainer_email" D
       = (if truthy (dict_get_default "email" first)
          then dict_get "email" first
          else dict_get "maintainer_email" P)
    /\ dict_get "contributors" D = None.
Proof.
  intros slugify P D first rest Hl H.
  destruct (package_steps _ _ _ H) as (o1 & o2 & o3 & o4 & H1 & H2 & H3 & H4 & H5).
  apply collapse_licenses_spec in H2. destruct H2 as [F2 _].
  apply collapse_sources_spec in H3. destruct H3 as [F3 _].
  assert (Hl3 : dict_get "contributors" o3
                = Some (VList (VDict first :: rest))).
  { rewrite F3, F2 by reflexivity.
    now rewrite (map_keys_package_frame _ _ _ "contributors" H1). }
  destruct (collapse_contributors_fields _ _ _ _ Hl3 H4) as (Hm & Hme).
  pose proof (collapse_contributors_own _ _ H4) as Hown.
  unfold dict_get_default in Hown. rewrite Hl3 in Hown. cbn in Hown.
  apply convert_keywords_spec in H5. destruct H5 as [F5 _].
  rewrite !F5 by reflexivity.
  split; [exact Hm|]. split; [|exact Hown].
  rewrite Hme, F3, F2 by reflexivity.
  now rewrite (map_keys_package_frame _ _ _ "maintainer_email" H1).
Qed.

(** The theorem at a record whose first contributor is an author. *)
Lemma package_collapses_contributors_witness :
  let first := [("title", VStr "abc"); ("email", VStr "abc@abc.com");
                ("role", VStr "author")] in
  let P := [("contributors", VList [VDict first; VDict [("title", VStr "xyz")]])] in
  exists D,
    package plain_slugify P = Ok D
    /\ dict_get "maintainer" D = Some (VStr "abc")
    /\ dict_get "maintainer_email" D = Some (VStr "abc@abc.com")
    /\ dict_get "contributors" D = None.
Proof.
  intros first P.
  destruct (package plain_slugify P) as [D|] eqn:H; [|discriminate H].
  exists D. split; [reflexivity|].
  exact (package_collapses_contributors plain_slugify P D first _ eq_refl H).
Defined.

(** ** [package]: the extras only grow *)

Lemma archive_extends old name seq (o o' : dict) :
  In name ["licenses"; "sources"; "contributors"] ->
  extends_extras old o ->
  archive name seq o = Ok o' ->
  extends_extras old o'.
Proof.
  intros Hname (added & He & Hall) H. unfold archive in H.
  set (o0 := if negb (truthy (dict_get_default "extras" o))
             then dict_set "extras" (VList []) o else o) in H.
  assert (H0 : dict_get "extras" o0 = Some (VList (old ++ added))).
  { unfold o0, dict_get_default. rewrite He. cbn [truthy].
    destruct (old ++ added)%list eqn:E; cbn [negb].
    - apply dict_get_set_eq.
    - assumption. }
  unfold dict_getitem in H. rewrite H0 in H. cbn [bind method_append] in H.
  injection H as <-.
  exists (added ++ [VDict [(name, seq)]])%list. split.
  - rewrite dict_get_set_eq. now rewrite app_assoc.
  - apply Forall_app. split; [assumption|].
    constructor; [|constructor]. exists name, seq. auto.
Qed.

Lemma overflow_loop_extends old keys contributors (o : dict) :
  extends_extras old o ->
  extends_extras old (overflow_loop keys contributors o).
Proof.
  intros (added & He & Hall).
  induction keys as [|key rest IH]; cbn [overflow_loop];
    [exists added; auto|].
  destruct (existsb (String.eqb key) _); [|assumption].
  unfold dict_get_default. rewrite He. cbn [truthy].
  destruct (old ++ added)%list eqn:E; cbn [negb]; [|assumption].
  apply app_eq_nil in E. destruct E as [-> ->].
  exists [VDict [("contributors", contributors)]]. split.
  - apply dict_get_set_eq.
  - constructor; [|constructor]. exists "contributors", contributors.
    simpl. auto.
Qed.

Lemma extends_extras_ext old (o o' : dict) :
  dict_get "extras" o' = dict_get "extras" o ->
  extends_extras old o -> extends_extras old o'.
Proof. intros E (added & He & Hall). exists added. now rewrite E. Qed.

(** The steps of [package] keep a property of the record that depends
    on its extras only and that the two ways of archiving keep. *)
Section ExtrasInvariant.

Variable Inv : dict -> Prop.

Hypothesis Inv_ext :
  forall o o' : dict,
    dict_get "extras" o' = dict_get "extras" o -> Inv o -> Inv o'.

Hypothesis Inv_archive :
  forall name seq (o o' : dict),
    In name ["licenses"; "sources"; "contributors"] ->
    Inv o -> archive name seq o = Ok o' -> Inv o'.

Hypothesis Inv_overflow :
  forall keys contributors (o : dict),
    Inv o -> Inv (overflow_loop keys contributors o).

Lemma collapse_licenses_keeps (o o' : dict) :
  Inv o -> collapse_licenses o = Ok o' -> Inv o'.
Proof.
  unfold collapse_licenses. intros Hinv H.
  destruct (truthy (dict_get_default "licenses" o)).
  - bind_inv H as licenses Hl. bind_inv H as first Hf.
    bind_inv H as type Ht. bind_inv H as o1 Ho1. bind_inv H as n Hn.
    bind_inv H as o2 Ho2. apply dict_delitem_ok in H. subst o'.
    apply (Inv_ext o2); [now apply dict_get_del_ne|].
    assert (H1 : Inv o1).
    { apply (Inv_ext o); [|assumption].
      rewrite (copy_if_set_frame _ _ _ _ _ _ Ho1) by discriminate.
      now apply dict_get_set_ne. }
    destruct (Nat.ltb 1 n).
    + apply (Inv_archive "licenses" _ _ _ ltac:(simpl; auto) H1 Ho2).
    + now injection Ho2 as <-.
  - now injection H as <-.
Qed.

Lemma collapse_sources_keeps (o o' : dict) :
  Inv o -> collapse_sources o = Ok o' -> Inv o'.
Proof.
  unfold collapse_sources. intros Hinv H.
  destruct (truthy (dict_get_default "sources" o)).
  - bind_inv H as sources Hl. bind_inv H as first Hf.
    bind_inv H as title Ht. bind_inv H as o1 Ho1. bind_inv H as o2 Ho2.
    bind_inv H as n Hn.
    bind_inv H as o3 Ho3. apply dict_delitem_ok in H. subst o'.
    apply (Inv_ext o3); [now apply dict_get_del_ne|].
    assert (H2 : Inv o2).
    { apply (Inv_ext o); [|assumption].
      rewrite (copy_if_set_frame _ _ _ _ _ _ Ho2) by discriminate.
      rewrite (copy_if_set_frame _ _ _ _ _ _ Ho1) by discriminate.
      now apply dict_get_set_ne. }
    destruct (Nat.ltb 1 n).
    + apply (Inv_archive "sources" _ _ _ ltac:(simpl; auto) H2 Ho3).
    + now injection Ho3 as <-.
  - now injection H as <-.
Qed.

Lemma collapse_contributors_keeps (o o' : dict) :
  Inv o -> collapse_contributors o = Ok o' -> Inv o'.
Proof.
  unfold collapse_contributors. intros Hinv H.
  destruct (truthy (dict_get_default "contributors" o)).
  - bind_inv H as contributors Hl. bind_inv H as first Hf.
    bind_inv H as title Ht. bind_inv H as o1 Ho1. bind_inv H as n Hn.
    bind_inv H as o2 Ho2. apply dict_delitem_ok in H. subst o'.
    apply (Inv_ext o2); [now apply dict_get_del_ne|].
    assert (H1 : Inv o1).
    { apply (Inv_ext o); [|assumption].
      rewrite (copy_if_set_frame _ _ _ _ _ _ Ho1) by discriminate.
      now apply dict_get_set_ne. }
    destruct (Nat.ltb 1 n).
    + apply (Inv_archive "contributors" _ _ _
               ltac:(simpl; auto) H1 Ho2).
    + bind_inv Ho2 as keys Hkeys. injection Ho2 as <-.
      now apply Inv_overflow.
  - now injection H as <-.
Qed.

Lemma package_keeps (slugify : value -> result string) (P D : dict) :
  Inv P -> package slugify P = Ok D -> Inv D.
Proof.
  intros HP H.
  destruct (package_steps _ _ _ H) as (o1 & o2 & o3 & o4 & H1 & H2 & H3 & H4 & H5).
  assert (I1 : Inv o1).
  { apply (Inv_ext P); [|assumption].
    now apply (map_keys_package_frame _ _ _ "extras" H1). }
  pose proof (collapse_licenses_keeps _ _ I1 H2) as I2.
  pose proof (collapse_sources_keeps _ _ I2 H3) as I3.
  pose proof (collapse_contributors_keeps _ _ I3 H4) as I4.
  apply convert_keywords_spec in H5. destruct H5 as [F5 _].
  apply (Inv_ext o4); [|assumption].
  now apply F5.
Qed.

End ExtrasInvariant.

(** X22: when the extras of the record are a list and [package] returns,
    the extras of the output are that list followed by the entries
    [package] appended, each a record with the one key licenses, sources
    or contributors: no entry of the input is removed, changed or
    moved. *)
Theorem package_extras_grow :
  forall (slugify : value -> result string) (P D : dict) old,
    dict_get "extras" P = Some (VList old) ->
    package slugify P = Ok D ->
    exists added,
      dict_get "extras" D = Some (VList (old ++ added))
      /\ Forall archive_entry added.
Proof.
  intros slugify P D old He H.
  apply (package_keeps (extends_extras old)
           (fun o o' E I => extends_extras_ext old o o' E I)
           (archive_extends old) (overflow_loop_extends old) slugify P D);
    [|exact H].
  exists []. rewrite app_nil_r. split; [exact He|constructor].
Qed.

(** The theorem at a record with one extras entry, two licenses and two
    sources. *)
Lemma package_extras_grow_witness :
  let old := [VDict [("key", VStr "k"); ("value", VStr "v")]] in
  let licenses := VList [VDict [("type", VStr "a")]; VDict [("type", VStr "b")]] in
  let sources := VList [VDict [("title", VStr "s")]; VDict [("title", VStr "t")]] in
  let P := [("extras", VList old); ("licenses", licenses);
            ("sources", sources)] in
  exists D added,
    package plain_slugify P = Ok D
    /\ dict_get "extras" D = Some (VList (old ++ added))
    /\ Forall archive_entry added.
Proof.
  intros old licenses sources P.
  destruct (package plain_slugify P) as [D|] eqn:H; [|discriminate H].
  destruct (package_extras_grow plain_slugify P D old eq_refl H)
    as (added & He & Hall).
  exists D, added. auto.
Defined.

(** ** The round trip Catalog, Package, Catalog (C1) *)

Section RoundTrip.

Context {lim : limits}.

Lemma only_archived_ext (o o' : dict) :
  dict_get "extras" o' = dict_get "extras" o ->
  only_archived o -> only_archived o'.
Proof.
  intros E [H|(added & He & Hall)].
  - left. now rewrite (dict_get_default_ext o' o "extras" E).
  - right. exists added. now rewrite E.
Qed.

Lemma archive_only name seq (o o' : dict) :
  In name ["licenses"; "sources"; "contributors"] ->
  only_archived o -> archive name seq o = Ok o' -> only_archived o'.
Proof.
  intros Hname Hinv H. unfold archive in H.
  assert (Hentry : archive_entry (VDict [(name, seq)])).
  { exists name, seq. auto. }
  destruct (truthy (dict_get_default "extras" o)) eqn:T; cbn [negb] in H.
  - destruct Hinv as [Hf|(added & He & Hall)]; [congruence|].
    unfold dict_getitem in H. rewrite He in H. cbn [bind method_append] in H.
    injection H as <-. right.
    exists (added ++ [VDict [(name, seq)]])%list. split.
    + apply dict_get_set_eq.
    + apply Forall_app. split; [assumption|]. now constructor.
  - unfold dict_getitem in H. rewrite dict_get_set_eq in H.
    cbn [bind method_append app] in H. injection H as <-. right.
    exists [VDict [(name, seq)]]. split.
    + apply dict_get_set_eq.
    + now constructor.
Qed.

Lemma overflow_loop_only keys contributors (o : dict) :
  only_archived o -> only_archived (overflow_loop keys contributors o).
Proof.
  intros Hinv.
  induction keys as [|key rest IH]; cbn [overflow_loop]; [assumption|].
  destruct (existsb (String.eqb key) _); [|assumption].
  destruct (truthy (dict_get_default "extras" o)); cbn [negb]; [assumption|].
  right. exists [VDict [("contributors", contributors)]]. split.
  - apply dict_get_set_eq.
  - constructor; [|constructor]. exists "contributors", contributors.
    simpl. auto.
Qed.

(** The expansion of the extras raises KeyError on an entry that
    [package] archived: the entry has no key. *)
Lemma expand_loop_archived entry rest (o : dict) :
  archive_entry entry -> expand_loop (entry :: rest) o = Raise KeyError.
Proof.
  intros (name & seq & -> & Hname). cbn [expand_loop getitem].
  unfold dict_getitem. cbn [dict_get].
  simpl in Hname. destruct Hname as [<-|[<-|[<-|[]]]]; reflexivity.
Qed.

Lemma dataset_raises_on_archived (slugify : value -> result string)
  (P D : dict) :
  truthy (dict_get_default "extras" P) = false ->
  package slugify P = Ok D ->
  truthy (dict_get_default "extras" D) = true ->
  dataset D = Raise KeyError.
Proof.
  intros HP H HD.
  assert (Hinv : only_archived D).
  { apply (package_keeps only_archived only_archived_ext archive_only
             overflow_loop_only slugify P D); [now left|exact H]. }
  destruct Hinv as [Hf|(added & He & Hall)]; [congruence|].
  unfold dict_get_default in HD. rewrite He in HD.
  destruct added as [|entry rest]; [discriminate HD|].
  inversion Hall as [|? ? Hentry _]; subst.
  rewrite dataset_unfold. unfold expand_extras, dict_has, dict_getitem.
  rewrite He. cbn [bind py_iter].
  now rewrite (expand_loop_archived entry rest D Hentry).
Qed.

(** When [package] returns on a record with a list of licenses, its
    output has a license_id. *)
Lemma package_license_id (slugify : value -> result string) (P D : dict)
  first rest :
  dict_get "licenses" P = Some (VList (VDict first :: rest)) ->
  package slugify P = Ok D ->
  dict_has "license_id" D = true.
Proof.
  intros Hl H.
  destruct (dict_get "type" first) as [t|] eqn:Ht.
  2: { rewrite (package_license_keyerror slugify P first rest Hl Ht) in H.
       discriminate H. }
  destruct (package_steps _ _ _ H) as (o1 & o2 & o3 & o4 & H1 & H2 & H3 & H4 & H5).
  assert (Hl1 : dict_get "licenses" o1 = Some (VList (VDict first :: rest))).
  { now rewrite (map_keys_package_frame _ _ _ "licenses" H1). }
  destruct (collapse_licenses_fields _ _ _ _ Hl1 H2) as [Hid _].
  apply collapse_sources_spec in H3. destruct H3 as [F3 _].
  apply collapse_contributors_spec in H4. destruct H4 as [F4 _].
  apply convert_keywords_spec in H5. destruct H5 as [F5 _].
  unfold dict_has. rewrite F5, F4, F3, Hid, Ht by reflexivity. reflexivity.
Qed.

(** C1, at the inputs where the code parts from it.  The round trip is
    taken on a record D that [package] returned for a Package record P
    without extras of its own.
    - If [package] moved a field of P into extras, that is, if D has
      extras, [dataset] raises KeyError on D, and so does the round
      trip: the entries [package] writes have the one key licenses,
      sources or contributors, and [dataset] reads the keys key and
      value of every entry.
    - If P has a list of licenses, the round trip raises on D: with more
      than one license by the first case, and with one because D has a
      license_id, of which [dataset] makes a license with a name, where
      [package] reads the type of the license.
    In both cases the second round trip does not return, and is no
    fixed point. *)
Theorem catalog_roundtrip_raises :
  (forall (slugify : value -> result string) (P D : dict),
      truthy (dict_get_default "extras" P) = false ->
      package slugify P = Ok D ->
      truthy (dict_get_default "extras" D) = true ->
      dataset D = Raise KeyError
      /\ catalog_roundtrip slugify D = Raise KeyError)
  /\ (forall (slugify : value -> result string) (P D : dict) first rest,
         truthy (dict_get_default "extras" P) = false ->
         dict_get "licenses" P = Some (VList (VDict first :: rest)) ->
         package slugify P = Ok D ->
         exists e, catalog_roundtrip slugify D = Raise e).
Proof.
  split.
  - intros slugify P D HP H HD.
    pose proof (dataset_raises_on_archived slugify P D HP H HD) as Hd.
    split; [exact Hd|]. unfold catalog_roundtrip. now rewrite Hd.
  - intros slugify P D first rest HP Hl H. unfold catalog_roundtrip.
    destruct (truthy (dict_get_default "extras" D)) eqn:HD.
    + exists KeyError.
      now rewrite (dataset_raises_on_archived slugify P D HP H HD).
    + destruct (dataset D) as [F|e] eqn:Hd; [|now exists e].
      exists KeyError. cbn [bind].
      pose proof (dataset_license_get _ _ HD Hd) as HF.
      cbn [existsb] in HF.
      rewrite (package_license_id slugify P D first rest Hl H) in HF.
      cbn [orb] in HF. unfold license_entry in HF.
      eapply package_license_keyerror; [exact HF|].
      destruct (dict_get "license_id" D), (dict_get "license_title" D),
        (dict_get "license_url" D); reflexivity.
Qed.

(** The round trip on some Catalog records: it returns on records with
    an author, resources or tags, and raises KeyError on a record with a
    license, which [dataset] gives a name where [package] reads a type,
    and on the record [package] made of two licenses. *)
Example catalog_roundtrip_examples :
  catalog_roundtrip plain_slugify [("author", VStr "A")]
  = Ok [("maintainer", VStr "A");
        ("extras",
         VList [VDict [("contributors",
                        VList [VDict [("title", VStr "A");
                                      ("role", VStr "author")]])]])]
  /\ catalog_roundtrip plain_slugify [("author_email", VStr "a@x.com")]
     = Ok []
  /\ catalog_roundtrip plain_slugify [("license_id", VStr "cc-by")]
     = Raise KeyError
  /\ catalog_roundtrip plain_slugify
       [("resources", VList [VDict [("url", VStr "http://x/data.csv")]])]
     = Ok [("resources", VList [VDict [("path", VStr "http://x/data.csv")]])]
  /\ catalog_roundtrip plain_slugify
       [("tags", VList [VDict [("name", VStr "GDP")]])]
     = Ok [("tags", VList [VDict [("name", VStr "gdp")]])]
  /\ catalog_roundtrip plain_slugify [("extras", VList [])] = Ok []
  /\ (package plain_slugify
        [("licenses", VList [VDict [("type", VStr "a")];
                             VDict [("type", VStr "b")]])]
      = Ok [("license_id", VStr "a");
            ("extras",
             VList [VDict [("licenses",
                            VList [VDict [("type", VStr "a")];
                                   VDict [("type", VStr "b")]])]])]
      /\ catalog_roundtrip plain_slugify
           [("license_id", VStr "a");
            ("extras",
             VList [VDict [("licenses",
                            VList [VDict [("type", VStr "a")];
                                   VDict [("type", VStr "b")]])]])]
         = Raise KeyError)
  /\ catalog_roundtrip plain_slugify [("version", VNone)] = Ok [].
Proof. repeat split. Qed.

End RoundTrip.

(** The theorem at the Package record that [dataset] returns for the
    Catalog record with the one field author, and at the Package record
    with one license. *)
Lemma catalog_roundtrip_raises_witness :
  let contributors :=
    VList [VDict [("title", VStr "A"); ("role", VStr "author")]] in
  let P := [("contributors", contributors)] in
  let D := [("maintainer", VStr "A");
            ("extras", VList [VDict [("contributors", contributors)]])] in
  let P' := [("licenses", VList [VDict [("type", VStr "cc-zero")]])] in
  let D' := [("license_id", VStr "cc-zero")] in
  (dataset [("author", VStr "A")] = Ok P
   /\ package plain_slugify P = Ok D
   /\ dataset D = Raise KeyError
   /\ catalog_roundtrip plain_slugify D = Raise KeyError)
  /\ (package plain_slugify P' = Ok D'
      /\ exists e, catalog_roundtrip plain_slugify D' = Raise e).
Proof.
  intros contributors P D P' D'.
  destruct (catalog_roundtrip_raises (lim := default_limits)) as [Harch Hlic].
  split.
  - split; [reflexivity|]. split; [reflexivity|].
    apply (Harch plain_slugify P D); reflexivity.
  - split; [reflexivity|].
    apply (Hlic plain_slugify P' D' [("type", VStr "cc-zero")] []);
      reflexivity.
Defined.

(** ** [package]: keywords, and the records it accepts *)

Lemma tag_of_ok slugify keyword tag :
  tag_of slugify keyword = Ok tag ->
  exists slug,
    slugify keyword = Ok slug /\ tag = VDict [("name", VStr (lower slug))].
Proof.
  unfold tag_of. intros H. bind_inv H as slug Hs.
  injection H as <-. eauto.
Qed.

Lemma package_before_keywords (slugify : value -> result string)
  (P D : dict) :
  package slugify P = Ok D ->
  exists o4,
    convert_keywords slugify o4 = Ok D
    /\ forall k, key_in k ["keywords"; "tags"] = true ->
                 dict_get k o4 = dict_get k P.
Proof.
  intros H.
  destruct (package_steps _ _ _ H) as (o1 & o2 & o3 & o4 & H1 & H2 & H3 & H4 & H5).
  apply collapse_licenses_spec in H2. destruct H2 as [F2 _].
  apply collapse_sources_spec in H3. destruct H3 as [F3 _].
  apply collapse_contributors_spec in H4. destruct H4 as [F4 _].
  exists o4. split; [exact H5|].
  intros k Hk. apply key_in_In in Hk. simpl in Hk.
  destruct Hk as [<-|[<-|[]]];
    (rewrite F4, F3, F2 by reflexivity;
     now apply (map_keys_package_frame _ _ _ _ H1)).
Qed.

(** X24: when the keywords of the record are a non-empty list and
    [package] returns, the slug function returned a string for every
    keyword, the tags of the output are the records with the one key
    name holding that string in lower case, in the order of the
    keywords, and the output has no keywords key. *)
Theorem package_keywords_to_tags :
  forall (slugify : value -> result string) (P D : dict) keyword keywords,
    dict_get "keywords" P = Some (VList (keyword :: keywords)) ->
    package slugify P = Ok D ->
    exists tags,
      dict_get "tags" D = Some (VList tags)
      /\ Forall2
           (fun keyword tag =>
              exists slug,
                slugify keyword = Ok slug
                /\ tag = VDict [("name", VStr (lower slug))])
           (keyword :: keywords) tags
      /\ dict_get "keywords" D = None.
Proof.
  intros slugify P D keyword keywords Hk H.
  destruct (package_before_keywords _ _ _ H) as (o4 & H5 & F).
  assert (Hk4 : dict_get "keywords" o4 = Some (VList (keyword :: keywords))).
  { now rewrite F. }
  unfold convert_keywords, dict_get_default, dict_getitem in H5.
  rewrite Hk4 in H5. cbn [truthy bind py_iter] in H5.
  bind_inv H5 as tags Ht. apply dict_delitem_ok in H5. subst D.
  exists tags. split; [|split].
  - rewrite dict_get_del_ne by discriminate. apply dict_get_set_eq.
  - apply map_result_Forall2 in Ht.
    revert Ht. apply Forall2_impl. apply tag_of_ok.
  - apply dict_get_del_eq.
Qed.

(** The theorem at the record of [test_keywords_converted_to_tags], with
    the identity for slug function. *)
Lemma package_keywords_to_tags_witness :
  let P := [("keywords", VList [VStr "economy!!!"; VStr "World Bank"])] in
  exists D tags,
    package plain_slugify P = Ok D
    /\ dict_get "tags" D = Some (VList tags)
    /\ Forall2
         (fun keyword tag =>
            exists slug,
              plain_slugify keyword = Ok slug
              /\ tag = VDict [("name", VStr (lower slug))])
         [VStr "economy!!!"; VStr "World Bank"] tags
    /\ dict_get "keywords" D = None.
Proof.
  intros P.
  destruct (package plain_slugify P) as [D|] eqn:H; [|discriminate H].
  destruct (package_keywords_to_tags plain_slugify P D _ _ eq_refl H)
    as (tags & Ht).
  exists D, tags. split; [reflexivity|exact Ht].
Defined.

(** X25: when the keywords of the record are absent or empty (a value
    that is false in a condition) and [package] returns, no tags are
    made: the tags of the output are the tags of the input, and the
    output has a tags key only if the input has one. *)
Theorem package_keeps_tags :
  forall (slugify : value -> result string) (P D : dict),
    truthy (dict_get_default "keywords" P) = false ->
    package slugify P = Ok D ->
    dict_get "tags" D = dict_get "tags" P.
Proof.
  intros slugify P D Hk H.
  destruct (package_before_keywords _ _ _ H) as (o4 & H5 & F).
  unfold convert_keywords in H5.
  rewrite (dict_get_default_ext o4 P "keywords") in H5
    by (now apply F).
  rewrite Hk in H5. injection H5 as <-.
  now apply F.
Qed.

(** The theorem at a record with an empty keywords list and tags. *)
Lemma package_keeps_tags_witness :
  let P := [("keywords", VList []); ("tags", VList [VStr "t"])] in
  exists D,
    package plain_slugify P = Ok D
    /\ dict_get "tags" D = Some (VList [VStr "t"]).
Proof.
  intros P.
  destruct (package plain_slugify P) as [D|] eqn:H; [|discriminate H].
  exists D. split; [reflexivity|].
  exact (package_keeps_tags plain_slugify P D eq_refl H).
Defined.

(** X26: [package] returns, with no exception and whatever the slug
    function, on every record whose licenses, sources, contributors and
    keywords are each absent or empty; the fields of the output are
    those of the input, description and homepage renamed. *)
Theorem package_returns :
  forall (slugify : value -> result string) (P : dict),
    truthy (dict_get_default "licenses" P) = false ->
    truthy (dict_get_default "sources" P) = false ->
    truthy (dict_get_default "contributors" P) = false ->
    truthy (dict_get_default "keywords" P) = false ->
    exists D,
      package slugify P = Ok D
      /\ frictionless_to_ckan.map_keys package_mapping P P = Ok D.
Proof.
  intros slugify P Hl Hs Hc Hk.
  destruct (map_keys_package_total P) as [o1 H1].
  exists o1. split; [|exact H1].
  assert (F : forall k,
             key_in k ["description"; "notes"; "homepage"; "url"] = false ->
             dict_get_default k o1 = dict_get_default k P).
  { intros k Hin. apply dict_get_default_ext.
    now apply (map_keys_package_frame _ _ _ _ H1). }
  unfold package. rewrite H1. cbn [bind].
  unfold collapse_licenses. rewrite F, Hl by reflexivity. cbn [bind].
  unfold collapse_sources. rewrite F, Hs by reflexivity. cbn [bind].
  unfold collapse_contributors. rewrite F, Hc by reflexivity. cbn [bind].
  unfold convert_keywords. rewrite F, Hk by reflexivity. reflexivity.
Qed.

(** The theorem at the record of [test_basic_mappings], with empty
    licenses. *)
Lemma package_returns_witness :
  let P := [("description", VStr "Country, regional and world GDP.");
            ("homepage", VStr "https://datopian.com");
            ("licenses", VList [])] in
  exists D,
    package plain_slugify P = Ok D
    /\ frictionless_to_ckan.map_keys package_mapping P P = Ok D.
Proof.
  intros P.
  apply (package_returns plain_slugify P); reflexivity.
Defined.

(** ** [package] over the store: the dictionary it is given *)

Lemma nth_error_replace_nth_ne (h : store.heap) l loc o :
  l <> loc -> nth_error (store.replace_nth l o h) loc = nth_error h loc.
Proof.
  revert l loc.
  induction h as [|x h IH]; intros [|l] [|loc] Hne; simpl;
    try reflexivity.
  - congruence.
  - apply IH. congruence.
Qed.

Section KeepsObject.

Variable loc : nat.
Variable entries : list (string * store.ref_value).

Lemma keeps_ret {A} (a : A) : keeps_object loc entries (store.ret a).
Proof. intros h a' h' Hl H. inversion H. subst. exact Hl. Qed.

Lemma keeps_throw {A} e : keeps_object loc entries (@store.throw A e).
Proof. intros h a' h' Hl H. discriminate H. Qed.

Lemma keeps_bind {A B} (m : store.M A) (f : A -> store.M B) :
  keeps_object loc entries m ->
  (forall a, keeps_object loc entries (f a)) ->
  keeps_object loc entries (store.mbind m f).
Proof.
  intros Hm Hf h b h' Hl H. unfold store.mbind in H.
  destruct (m h) as [[a h1]|e] eqn:E; [|discriminate H].
  exact (Hf a h1 b h' (Hm h a h1 Hl E) H).
Qed.

Lemma keeps_lift {A} (r : result A) : keeps_object loc entries (store.lift r).
Proof.
  intros h a h' Hl H. unfold store.lift in H.
  destruct r; inversion H. subst. exact Hl.
Qed.

Lemma keeps_get_heap : keeps_object loc entries store.get_heap.
Proof. intros h a h' Hl H. inversion H. subst. exact Hl. Qed.

Lemma keeps_alloc o : keeps_object loc entries (store.alloc o).
Proof.
  intros h a h' Hl H. inversion H. subst.
  rewrite nth_error_app1; [exact Hl|].
  apply nth_error_Some. congruence.
Qed.

Lemma keeps_deref l : keeps_object loc entries (store.deref l).
Proof.
  intros h a h' Hl H. unfold store.deref in H.
  destruct (nth_error h l); inversion H. subst. exact Hl.
Qed.

Lemma keeps_assign l o :
  l <> loc -> keeps_object loc entries (store.assign l o).
Proof.
  intros Hne h a h' Hl H. unfold store.assign in H.
  destruct (Nat.ltb l (length h)); inversion H. subst.
  now rewrite nth_error_replace_nth_ne.
Qed.

Lemma keeps_when b m :
  keeps_object loc entries m -> keeps_object loc entries (store.when b m).
Proof. intros Hm. destruct b; [exact Hm|apply keeps_ret]. Qed.

Lemma keeps_entries_of e v : keeps_object loc entries (store.entries_of e v).
Proof.
  destruct v; try apply keeps_throw.
  apply keeps_bind; [apply keeps_deref|].
  intros [items|es]; [apply keeps_throw|apply keeps_ret].
Qed.

Lemma keeps_is_true v : keeps_object loc entries (store.is_true v).
Proof.
  destruct v;
    (apply keeps_bind;
     [first [apply keeps_get_heap | apply keeps_deref]
     |intros ?; apply keeps_ret]).
Qed.

Lemma keeps_getitem v k : keeps_object loc entries (store.getitem v k).
Proof.
  apply keeps_bind; [apply keeps_entries_of|].
  intros le. destruct (dict_get k (snd le)); [apply keeps_ret|apply keeps_throw].
Qed.

Lemma keeps_method_get v k : keeps_object loc entries (store.method_get v k).
Proof.
  apply keeps_bind; [apply keeps_entries_of|intros ?; apply keeps_ret].
Qed.

Lemma keeps_method_keys v : keeps_object loc entries (store.method_keys v).
Proof.
  apply keeps_bind; [apply keeps_entries_of|intros ?; apply keeps_ret].
Qed.

Lemma keeps_has_key v k : keeps_object loc entries (store.has_key v k).
Proof.
  apply keeps_bind; [apply keeps_entries_of|intros ?; apply keeps_ret].
Qed.

Lemma keeps_getitem0 v : keeps_object loc entries (store.getitem0 v).
Proof.
  destruct v; try apply keeps_throw.
  - simpl. destruct (py_chars (String.length s) s);
      [apply keeps_throw|apply keeps_ret].
  - apply keeps_bind; [apply keeps_deref|].
    intros [[|x items]|es];
      first [apply keeps_throw|apply keeps_ret].
Qed.

Lemma keeps_py_len v : keeps_object loc entries (store.py_len v).
Proof.
  destruct v; try apply keeps_throw.
  - apply keeps_ret.
  - apply keeps_bind; [apply keeps_deref|intros ?; apply keeps_ret].
Qed.

Lemma keeps_py_iter v : keeps_object loc entries (store.py_iter v).
Proof.
  destruct v; try apply keeps_throw.
  - apply keeps_ret.
  - apply keeps_bind; [apply keeps_deref|intros ?; apply keeps_ret].
Qed.

(** Item assignment and deletion change the object they are applied to,
    and no other. *)
Lemma keeps_setitem l k x :
  l <> loc -> keeps_object loc entries (store.setitem (store.RRef l) k x).
Proof.
  intros Hne h a h' Hl H.
  unfold store.setitem, store.entries_of, store.mbind, store.deref in H.
  destruct (nth_error h l) as [[items|es]|]; try discriminate H.
  exact (keeps_assign _ _ Hne h a h' Hl H).
Qed.

Lemma keeps_delitem l k :
  l <> loc -> keeps_object loc entries (store.delitem (store.RRef l) k).
Proof.
  intros Hne h a h' Hl H.
  unfold store.delitem, store.entries_of, store.mbind, store.deref in H.
  destruct (nth_error h l) as [[items|es]|]; try discriminate H.
  cbn [store.ret snd fst] in H.
  destruct (dict_has k es); [|discriminate H].
  exact (keeps_assign _ _ Hne h a h' Hl H).
Qed.

(** [append] changes a list; applied to the dictionary at [loc] it
    raises. *)
Lemma keeps_append v x : keeps_object loc entries (store.method_append v x).
Proof.
  intros h a h' Hl H. destruct v; try discriminate H.
  unfold store.method_append, store.mbind, store.deref in H.
  destruct (Nat.eq_dec loc0 loc) as [->|Hne].
  - rewrite Hl in H. discriminate H.
  - destruct (nth_error h loc0) as [[items|es]|]; try discriminate H.
    exact (keeps_assign _ _ Hne h a h' Hl H).
Qed.

Lemma keeps_for_each {A} (f : A -> store.M unit) l :
  (forall x, keeps_object loc entries (f x)) ->
  keeps_object loc entries (store.for_each f l).
Proof.
  intros Hf. induction l as [|x l IH]; simpl.
  - apply keeps_ret.
  - apply keeps_bind; [apply Hf|intros _; exact IH].
Qed.

Lemma keeps_map_m {A B} (f : A -> store.M B) l :
  (forall x, keeps_object loc entries (f x)) ->
  keeps_object loc entries (store.map_m f l).
Proof.
  intros Hf. induction l as [|x l IH]; simpl.
  - apply keeps_ret.
  - apply keeps_bind; [apply Hf|intros y].
    apply keeps_bind; [exact IH|intros ys; apply keeps_ret].
Qed.

Ltac keeps :=
  repeat
    first
      [ apply keeps_ret | apply keeps_throw | apply keeps_lift
      | apply keeps_get_heap | apply keeps_alloc
      | apply keeps_append
      | apply keeps_setitem; assumption
      | apply keeps_delitem; assumption
      | apply keeps_is_true | apply keeps_getitem | apply keeps_method_get
      | apply keeps_method_keys | apply keeps_has_key
      | apply keeps_getitem0 | apply keeps_py_len | apply keeps_py_iter
      | apply keeps_when
      | apply keeps_bind; [|intros ?] ].

Variable slugify : value -> result string.

(** The steps of [package] on a copy at another location [n]. *)
Variable n : nat.
Hypothesis Hn : n <> loc.

Lemma keeps_map_keys fddict :
  keeps_object loc entries (store.map_keys fddict (store.RRef n)).
Proof. apply keeps_for_each. intros kv. keeps. Qed.

Lemma keeps_archive name :
  keeps_object loc entries (store.archive name (store.RRef n)).
Proof. unfold store.archive, store.field. keeps. Qed.

Lemma keeps_copy_if_set first src dst :
  keeps_object loc entries (store.copy_if_set first src dst (store.RRef n)).
Proof. unfold store.copy_if_set. keeps. Qed.

Lemma keeps_collapse_licenses :
  keeps_object loc entries (store.collapse_licenses (store.RRef n)).
Proof.
  unfold store.collapse_licenses, store.field. keeps;
    first [apply keeps_copy_if_set | apply keeps_archive].
Qed.

Lemma keeps_collapse_sources :
  keeps_object loc entries (store.collapse_sources (store.RRef n)).
Proof.
  unfold store.collapse_sources, store.field. keeps;
    first [apply keeps_copy_if_set | apply keeps_archive].
Qed.

Lemma keeps_overflow_loop keys :
  keeps_object loc entries (store.overflow_loop keys (store.RRef n)).
Proof.
  induction keys as [|key rest IH]; cbn [store.overflow_loop].
  - apply keeps_ret.
  - destruct (existsb (String.eqb key) ["path"; "organisation"; "role"]);
      [|exact IH].
    unfold store.field.
    apply keeps_bind; [apply keeps_method_get|intros extras].
    apply keeps_bind; [apply keeps_is_true|intros t].
    destruct (negb t); [keeps|exact IH].
Qed.

Lemma keeps_collapse_contributors :
  keeps_object loc entries (store.collapse_contributors (store.RRef n)).
Proof.
  unfold store.collapse_contributors, store.field.
  apply keeps_bind; [apply keeps_method_get|intros contributors].
  apply keeps_bind; [apply keeps_is_true|intros t].
  apply keeps_when.
  apply keeps_bind; [apply keeps_getitem|intros contributors'].
  apply keeps_bind; [apply keeps_getitem0|intros first].
  apply keeps_bind; [apply keeps_getitem|intros title].
  apply keeps_bind; [now apply keeps_setitem|intros _].
  apply keeps_bind; [apply keeps_copy_if_set|intros _].
  apply keeps_bind; [apply keeps_py_len|intros m].
  apply keeps_bind; [|intros _; now apply keeps_delitem].
  destruct (Nat.ltb 1 m); [apply keeps_archive|].
  apply keeps_bind; [apply keeps_method_keys|intros keys].
  apply keeps_overflow_loop.
Qed.

Lemma keeps_tag_of keyword :
  keeps_object loc entries (store.tag_of slugify keyword).
Proof. unfold store.tag_of. keeps. Qed.

Lemma keeps_convert_keywords :
  keeps_object loc entries (store.convert_keywords slugify (store.RRef n)).
Proof.
  unfold store.convert_keywords, store.field.
  apply keeps_bind; [apply keeps_method_get|intros keywords].
  apply keeps_bind; [apply keeps_is_true|intros t].
  apply keeps_when.
  apply keeps_bind; [apply keeps_getitem|intros keywords'].
  apply keeps_bind; [apply keeps_py_iter|intros items].
  apply keeps_bind; [apply keeps_map_m; intros x; apply keeps_tag_of|intros tags].
  keeps.
Qed.

Lemma keeps_package_steps fddict :
  keeps_object loc entries
    (store.mbind (store.map_keys fddict (store.RRef n)) (fun _ =>
     store.mbind (store.collapse_licenses (store.RRef n)) (fun _ =>
     store.mbind (store.collapse_sources (store.RRef n)) (fun _ =>
     store.mbind (store.collapse_contributors (store.RRef n)) (fun _ =>
     store.mbind (store.convert_keywords slugify (store.RRef n)) (fun _ =>
     store.ret (store.RRef n))))))).
Proof.
  apply keeps_bind; [apply keeps_map_keys|intros _].
  apply keeps_bind; [apply keeps_collapse_licenses|intros _].
  apply keeps_bind; [apply keeps_collapse_sources|intros _].
  apply keeps_bind; [apply keeps_collapse_contributors|intros _].
  apply keeps_bind; [apply keeps_convert_keywords|intros _].
  apply keeps_ret.
Qed.

End KeepsObject.

(** A step whose result is not used passes the rest its store. *)
Lemma mbind_skip {A B} (m : store.M A) (k : store.M B) h b h' :
  store.mbind m (fun _ => k) h = Ok (b, h') ->
  exists h1, k h1 = Ok (b, h').
Proof.
  unfold store.mbind. intros H.
  destruct (m h) as [[a h1]|e]; [|discriminate H].
  now exists h1.
Qed.

(** X23: [package] works on a copy.  Given a reference to a dictionary
    object of the store, a call that returns gives a reference to a new
    object, at the first free location, and the dictionary it was given
    has the entries it had before the call.  (The objects the entries
    refer to are shared with the copy.) *)
Theorem package_keeps_input_dict :
  forall (slugify : value -> result string) (h h' : store.heap)
         (loc : nat) entries (out : store.ref_value),
    nth_error h loc = Some (store.ODict entries) ->
    store.package slugify (store.RRef loc) h = Ok (out, h') ->
    out = store.RRef (length h)
    /\ out <> store.RRef loc
    /\ nth_error h' loc = Some (store.ODict entries).
Proof.
  intros slugify h h' loc entries out Hl H.
  assert (Hlt : loc < length h) by (apply nth_error_Some; congruence).
  unfold store.package in H.
  unfold store.mbind at 1 in H.
  unfold store.copy_dict, store.entries_of, store.mbind at 1 2, store.deref in H.
  rewrite Hl in H. cbn [store.ret store.alloc snd] in H.
  assert (Hn : length h <> loc) by lia.
  assert (Hl' : nth_error (h ++ [store.ODict entries])%list loc
                = Some (store.ODict entries)).
  { now rewrite nth_error_app1. }
  pose proof (keeps_package_steps loc entries slugify (length h) Hn
                (store.RRef loc) _ _ _ Hl' H) as Hkeep.
  assert (Hout : out = store.RRef (length h)).
  { repeat (apply mbind_skip in H; destruct H as [? H]).
    now inversion H. }
  subst out. repeat split; [|exact Hkeep].
  intros E. inversion E. lia.
Qed.

(** The theorem at a store that holds a record with two licenses, which
    makes [package] create and fill the extras of its copy. *)
Lemma package_keeps_input_dict_witness :
  let h := [store.ODict [("type", store.RStr "a")];
            store.ODict [("type", store.RStr "b")];
            store.OList [store.RRef 0; store.RRef 1];
            store.ODict [("name", store.RStr "n");
                         ("licenses", store.RRef 2)]] in
  exists out h',
    store.package plain_slugify (store.RRef 3) h = Ok (out, h')
    /\ out = store.RRef 4
    /\ out <> store.RRef 3
    /\ nth_error h' 3
       = Some (store.ODict [("name", store.RStr "n");
                            ("licenses", store.RRef 2)]).
Proof.
  intros h.
  destruct (store.package plain_slugify (store.RRef 3) h)
    as [[out h']|] eqn:H; [|discriminate H].
  exists out, h'. split; [reflexivity|].
  exact (package_keeps_input_dict plain_slugify h h' 3 _ out eq_refl H).
Defined.
